(** * scraper.js: session restore and per-profile PDF export

    A shallow embedding of [src/scraper.js].  Strings are sequences of
    code units below 256; the browser driver, the file system and the
    clock are external collaborators whose answers are given by an
    environment [Env] of oracles, and the program is written in a state
    and exception monad over a [World] that holds the clock, the files
    the program touches and the trace of everything it did. *)

From Stdlib Require Import List ZArith Lia Bool Arith Ascii String.
From Stdlib Require DecimalString.
From Stdlib Require Import Permutation Sorted.
Import ListNotations.
Local Open Scope string_scope.
Local Open Scope Z_scope.

(** ** JavaScript string operations used by the program *)

Module JsString.

(** White space as [String.prototype.trim] sees it, on code units
    below 256: TAB, LF, VT, FF, CR, SPACE and NBSP. *)
Definition is_space (c : ascii) : bool :=
  let n := nat_of_ascii c in
  ((9 <=? n)%nat && (n <=? 13)%nat) || (n =? 32)%nat || (n =? 160)%nat.

Fixpoint trimStart (s : string) : string :=
  match s with
  | EmptyString => EmptyString
  | String c s' => if is_space c then trimStart s' else s
  end.

Fixpoint trimEnd (s : string) : string :=
  match s with
  | EmptyString => EmptyString
  | String c s' =>
      match trimEnd s' with
      | EmptyString => if is_space c then EmptyString else String c EmptyString
      | t => String c t
      end
  end.

(** [s.trim()] *)
Definition trim (s : string) : string := trimEnd (trimStart s).

(** [s.startsWith(p)], returning what follows the prefix. *)
Fixpoint stripPrefix (p s : string) : option string :=
  match p, s with
  | EmptyString, _ => Some s
  | String a p', String b s' => if Ascii.eqb a b then stripPrefix p' s' else None
  | String _ _, EmptyString => None
  end.

(** [s.endsWith(suf)] *)
Fixpoint endsWith (suf s : string) : bool :=
  String.eqb s suf ||
  match s with
  | EmptyString => false
  | String _ s' => endsWith suf s'
  end.

(** [s.includes(sub)] *)
Fixpoint includes (sub s : string) : bool :=
  match stripPrefix sub s with
  | Some _ => true
  | None => match s with
            | EmptyString => false
            | String _ s' => includes sub s'
            end
  end.

(** [s.replace(/\/$/, '')]: drop one slash at the very end. *)
Fixpoint removeTrailingSlash (s : string) : string :=
  match s with
  | EmptyString => EmptyString
  | String c EmptyString => if Ascii.eqb c "/" then EmptyString else s
  | String c s' => String c (removeTrailingSlash s')
  end.

(** The separator class [[\n,]] of [split(/[\n,]+/)]. *)
Definition is_sep (c : ascii) : bool := Ascii.eqb c "010" || Ascii.eqb c ",".

(** [s.split(/[\n,]+/)]: [splitFrom cur inSep s] scans [s] with the
    piece under construction [cur]; [inSep] tells that the
    previous code unit was a separator, so that a run of separators
    closes one piece only. *)
Fixpoint splitFrom (cur : string) (inSep : bool) (s : string) : list string :=
  match s with
  | EmptyString => [cur]
  | String c s' =>
      if is_sep c
      then if inSep then splitFrom cur true s'
           else cur :: splitFrom EmptyString true s'
      else splitFrom (cur ++ String c EmptyString) false s'
  end.

Definition split (s : string) : list string := splitFrom EmptyString false s.

(** JavaScript truthiness of a string. *)
Definition truthy (s : string) : bool :=
  match s with EmptyString => false | _ => true end.

End JsString.
Import JsString.

(** ** extractProfileId (scraper.js 151-165) *)

(** The class [[^\/\?]] of the capture group. *)
Definition seg_char (c : ascii) : bool :=
  negb (Ascii.eqb c "/" || Ascii.eqb c "?").

(** The longest run of [[^\/\?]] at the head of [s]: the greedy [+]. *)
Fixpoint take_seg (s : string) : string :=
  match s with
  | EmptyString => EmptyString
  | String c s' => if seg_char c then String c (take_seg s') else EmptyString
  end.

(** [/\/in\/([^\/\?]+)/] tried at the head of [s]; the result is group 1. *)
Definition match_here (s : string) : option string :=
  match stripPrefix "/in/" s with
  | Some r => match take_seg r with
              | EmptyString => None
              | g => Some g
              end
  | None => None
  end.

(** [url.match(/\/in\/([^\/\?]+)/)]: the leftmost position where the
    pattern matches; [None] is JavaScript's [null]. *)
Fixpoint regex_match (s : string) : option string :=
  match match_here s with
  | Some g => Some g
  | None => match s with
            | EmptyString => None
            | String _ s' => regex_match s'
            end
  end.

(** [None] is the [null] the function returns; the [try]/[catch] of the
    source guards [url.match], which does not throw on a string. *)
Definition extractProfileId (url : string) : option string :=
  match regex_match url with
  | Some m1 => if truthy m1 then Some (removeTrailingSlash m1) else None
  | None => None
  end.

(** ** The outside world *)

(** The files the program names.  [InFolder f] is
    [path.join(DOWNLOAD_FOLDER, f)]; both directory functions of the
    source are only ever called with [DOWNLOAD_FOLDER]. *)
Inductive Path :=
| COOKIES_FILE
| profileURLsPath
| DOWNLOAD_FOLDER
| InFolder (f : string).

Inductive FsCall :=
| Mkdir (p : Path)
| ReadFile (p : Path)
| WriteFile (p : Path) (data : string)
| Readdir (p : Path)
| Stat (p : Path)
| Access (p : Path)
| Rename (src dst : Path).

Record Cookie := mkCookie { cname : string; cvalue : string; cdomain : string }.

(** A located [WebElement]. *)
Definition Elem := nat.

Inductive Locator :=
| ById (id : string)
| ByCss (sel : string)
| ByXpath (xp : string).

Inductive DrvCall :=
| Build
| Get (url : string)
| WaitLocated (l : Locator) (ms : Z)
| FindElement (l : Locator)
| FindElements (l : Locator)
| SendKeys (e : Elem) (keys : option string)
| Click (e : Elem)
| WaitUrl (ms : Z)
| GetCookies
| DriverSleep (ms : Z)
| AddCookie (c : Cookie)
| Refresh
| ExecuteScript (script : string) (arg : Elem)
| Quit.

(** Thrown values: every one is an [Error] object, so reading its
    [message] in a handler is safe. *)
Inductive Err :=
| FsError (c : FsCall)
| DriverError (c : DrvCall)
| SyntaxError
| TypeError.

(** The lines written with [console.log], [console.warn] and
    [console.error], one constructor per message. *)
Inductive Msg :=
| MDownloadFolder | MFolderExists
| MErrorGettingDriver (e : Err) | MFailedToCreateDriver
| MOpeningLogin | MEnteringCredentials | MLoggingIn | MLoginSuccessful
| MCookiesSaved | MTotalCookies (n : nat) | MErrorDuringLogin (e : Err)
| MCouldNotAddCookie (name : string) (e : Err) | MCookiesLoaded
| MErrorLoadingCookies (e : Err)
| MTryingSavedCookies | MLoginInputNotFound | MNotLogged | MLoginFailed
| MError (e : Err)
| MNoPdfToRename | MAlreadyExists (f : string) | MRenamedTo (f : string)
| MErrorRenaming (e : Err)
| MCouldNotExtract (i n : nat) (url : string)
| MProcessing (i n : nat) (profileId : string) | MUrl (url : string)
| MNoSecondOverflow | MClickingMore | MFoundSaveToPdf
| MDownloadInitiated | MDownloadCompleted (f : string) | MDownloadTimeout
| MErrorFindingPdfButton (e : Err) | MInitiatedAlternative
| MAlternativeFailed (e : Err) | MErrorProcessing (e : Err)
| MFoundURLs (urls : list string) | MErrorReadingURLs (e : Err)
| MAllProcessed | MPdfsSavedIn.

(** What the program did: driver calls and file-system writes as they
    are issued, its own [sleep]s, and its console lines. *)
Inductive Event :=
| Drv (c : DrvCall)
| Fs (c : FsCall)
| Slept (ms : Z)
| Log (m : Msg).

(** An entry of the download directory. *)
Record file := mkFile { fname : string; mtime : Z; fdata : string }.

Record World := mkWorld {
  now : Z;                        (* Date.now() *)
  folder : option (list file);    (* DOWNLOAD_FOLDER in readdir order, None while it does not exist *)
  cookiesFile : option string;    (* contents of COOKIES_FILE *)
  profilesFile : option string;   (* contents of profileURLsPath *)
  trace : list Event              (* most recent first *)
}.

(** The handle of the browser session that getDriver builds. *)
Inductive Driver : Set := ChromeDriver.

(** The environment: the process environment, the JSON codec, and the
    answers of the browser, the operating system and the clock.  Every
    oracle sees the whole world, trace included, so its answers may
    depend on everything that happened before. *)
Record Env := mkEnv {
  LINKEDIN_EMAIL : option string;
  LINKEDIN_PASSWORD : option string;
  (* JSON.parse: None is a SyntaxError, Some None a value that is not
     iterable, Some (Some l) an array; an entry of the array is Some c
     for a cookie object and None for null *)
  JSON_parse : string -> option (option (list (option Cookie)));
  JSON_stringify : list Cookie -> string;
  fs_fault : FsCall -> World -> bool;       (* the OS refuses the call *)
  drv_fault : DrvCall -> World -> bool;     (* the driver rejects the call *)
  drv_elements : DrvCall -> World -> list Elem;
  drv_cookies : World -> list Cookie;
  drv_urls : World -> list string;          (* getCurrentUrl, poll after poll *)
  external : World -> option (list file);   (* the folder once browser and OS have acted *)
  lag : World -> nat                        (* time a call takes beyond what was asked *)
}.

(** ** State and exception monad *)

Inductive Res (A : Type) :=
| Ok (a : A)
| Throw (e : Err)
| Diverge.
Arguments Ok {A} a.
Arguments Throw {A} e.
Arguments Diverge {A}.

Definition M (A : Type) := World -> Res A * World.

Definition ret {A} (a : A) : M A := fun w => (Ok a, w).

Definition throw {A} (e : Err) : M A := fun w => (Throw e, w).

Definition bind {A B} (m : M A) (k : A -> M B) : M B :=
  fun w => match m w with
           | (Ok a, w') => k a w'
           | (Throw e, w') => (Throw e, w')
           | (Diverge, w') => (Diverge, w')
           end.

(** [try { m } catch (e) { h e }] *)
Definition try_catch {A} (m : M A) (h : Err -> M A) : M A :=
  fun w => match m w with
           | (Throw e, w') => h e w'
           | r => r
           end.

Notation "x <- m ;; k" := (bind m (fun x => k))
  (at level 61, m at next level, right associativity).
Notation "m ;;; k" := (bind m (fun _ => k))
  (at level 61, right associativity).

(** [for (const x of l) { f x }] *)
Fixpoint forEach {A} (l : list A) (f : A -> M unit) : M unit :=
  match l with
  | [] => ret tt
  | x :: l' => f x ;;; forEach l' f
  end.

(** [Promise.all(l.map(f))] *)
Fixpoint mapM {A B} (f : A -> M B) (l : list A) : M (list B) :=
  match l with
  | [] => ret []
  | x :: l' => y <- f x ;; ys <- mapM f l' ;; ret (y :: ys)
  end.

Definition push (ev : Event) (w : World) : World :=
  mkWorld (now w) (folder w) (cookiesFile w) (profilesFile w) (ev :: trace w).

Definition set_folder (d : option (list file)) (w : World) : World :=
  mkWorld (now w) d (cookiesFile w) (profilesFile w) (trace w).

Definition set_cookiesFile (c : option string) (w : World) : World :=
  mkWorld (now w) (folder w) c (profilesFile w) (trace w).

Definition emit (ev : Event) : M unit := fun w => (Ok tt, push ev w).

Definition console (m : Msg) : M unit := emit (Log m).

Definition dateNow : M Z := fun w => (Ok (now w), w).

(** ** Primitives: clock, file system, driver *)

(** A double quote, for the selectors that contain one. *)
Definition dq : string := String (ascii_of_nat 34) EmptyString.

(** Decimal text of a number, as a template literal prints it. *)
Definition decimal (z : Z) : string :=
  DecimalString.NilZero.string_of_int (Z.to_int z).

(** Rename inside the folder, as rename(2) does it: an entry already
    called [dst] is replaced. *)
Definition rename_entry (src dst : string) (d : list file) : list file :=
  if String.eqb src dst then d
  else map (fun x => if String.eqb (fname x) src
                     then mkFile dst (mtime x) (fdata x) else x)
           (filter (fun x => negb (String.eqb (fname x) dst)) d).

Definition lookup (f : string) (d : list file) : option file :=
  find (fun x => String.eqb (fname x) f) d.

(** The value of [Date.prototype.getTime()]: [Some t] is the number
    [t], [None] is [NaN]. *)
Definition JsTime := option Z.

(** A [Date] holds at most 8.64e15 ms on either side of the epoch;
    outside that range it is invalid and [getTime()] is [NaN]. *)
Definition getTime (mtime : Z) : JsTime :=
  if Z.abs mtime <=? 8640000000000000 then Some mtime else None.

Section Program.

Variable E : Env.

(** While the program awaits a driver call or a timer the clock
    advances by [ms] and whatever the call takes on top, and browser
    and OS may change the download folder. *)
Definition elapse (ms : Z) (w : World) : World :=
  mkWorld (now w + ms + Z.of_nat (lag E w)) (external E w)
          (cookiesFile w) (profilesFile w) (trace w).

(** [sleep(ms)] (scraper.js 146-148) *)
Definition sleep (ms : Z) : M unit :=
  fun w => (Ok tt, push (Slept ms) (elapse ms w)).

(** A driver call: recorded, answered by the oracle on the world in
    which it was issued. *)
Definition drv {A} (c : DrvCall) (answer : World -> A) : M A :=
  fun w => let w' := push (Drv c) (elapse 0 w) in
           if drv_fault E c w then (Throw (DriverError c), w')
           else (Ok (answer w), w').

Definition drv_unit (c : DrvCall) : M unit := drv c (fun _ => tt).

(** [findElement] and [wait(until.elementLocated ...)]: the first
    element found, an error when there is none. *)
Definition drv_element (c : DrvCall) : M Elem :=
  l <- drv c (drv_elements E c) ;;
  match l with
  | e :: _ => ret e
  | [] => throw (DriverError c)
  end.

(** The condition [driver.wait] polls after the login form is sent
    (scraper.js 63-67). *)
Definition postLogin (url : string) : bool :=
  includes "linkedin.com/feed" url || includes "linkedin.com/check/add-phone" url.

Definition waitUrl (ms : Z) : M unit :=
  urls <- drv (WaitUrl ms) (drv_urls E) ;;
  if existsb postLogin urls then ret tt else throw (DriverError (WaitUrl ms)).

(** A file-system call that reads: the world is left as it is. *)
Definition fs_read {A} (c : FsCall) (answer : World -> option A) : M A :=
  fun w => if fs_fault E c w then (Throw (FsError c), w)
           else match answer w with
                | Some a => (Ok a, w)
                | None => (Throw (FsError c), w)
                end.

(** A file-system call that writes: recorded, then carried out unless
    the OS refuses it or it cannot be done. *)
Definition fs_write (c : FsCall) (effect : World -> option World) : M unit :=
  fun w => let w' := push (Fs c) w in
           if fs_fault E c w then (Throw (FsError c), w')
           else match effect w' with
                | Some w'' => (Ok tt, w'')
                | None => (Throw (FsError c), w')
                end.

Definition readFile (p : Path) : M string :=
  fs_read (ReadFile p)
    (fun w => match p with
              | COOKIES_FILE => cookiesFile w
              | profileURLsPath => profilesFile w
              | _ => None
              end).

Definition writeFile (p : Path) (data : string) : M unit :=
  fs_write (WriteFile p data)
    (fun w => match p with
              | COOKIES_FILE => Some (set_cookiesFile (Some data) w)
              | _ => None
              end).

(** [fs.mkdir(p, { recursive: true })] *)
Definition mkdir (p : Path) : M unit :=
  fs_write (Mkdir p)
    (fun w => match p with
              | DOWNLOAD_FOLDER =>
                  Some (match folder w with
                        | Some _ => w
                        | None => set_folder (Some []) w
                        end)
              | _ => None
              end).

Definition readdir (p : Path) : M (list string) :=
  fs_read (Readdir p)
    (fun w => match p with
              | DOWNLOAD_FOLDER => option_map (map fname) (folder w)
              | _ => None
              end).

(** [(await fs.stat(p)).mtime.getTime()]: a number of milliseconds,
    or [NaN] for a time stamp outside the range of [Date]. *)
Definition stat_mtime (p : Path) : M JsTime :=
  fs_read (Stat p)
    (fun w => match p, folder w with
              | InFolder f, Some d => option_map (fun x => getTime (mtime x)) (lookup f d)
              | _, _ => None
              end).

Definition access (p : Path) : M unit :=
  fs_read (Access p)
    (fun w => match p, folder w with
              | InFolder f, Some d => option_map (fun _ => tt) (lookup f d)
              | _, _ => None
              end).

Definition rename (src dst : Path) : M unit :=
  fs_write (Rename src dst)
    (fun w => match src, dst, folder w with
              | InFolder a, InFolder b, Some d =>
                  match lookup a d with
                  | Some _ => Some (set_folder (Some (rename_entry a b d)) w)
                  | None => None
                  end
              | _, _, _ => None
              end).

(** ** The program *)

(** getDriver (scraper.js 14-40); [None] is the [null] it returns. *)
Definition getDriver : M (option Driver) :=
  try_catch
    (drv_unit Build ;;; ret (Some ChromeDriver))
    (fun e => console (MErrorGettingDriver e) ;;; ret None).

Definition submitButton : Locator :=
  ByCss ("button[type=" ++ dq ++ "submit" ++ dq ++ "]").

(** loginToLinkedIn (scraper.js 42-88) *)
Definition loginToLinkedIn (driver : Driver) : M bool :=
  try_catch
    (console MOpeningLogin ;;;
     drv_unit (Get "https://www.linkedin.com/login") ;;;
     console MEnteringCredentials ;;;
     emailInput <- drv_element (WaitLocated (ById "username") 10000) ;;
     drv_unit (SendKeys emailInput (LINKEDIN_EMAIL E)) ;;;
     passwordInput <- drv_element (FindElement (ById "password")) ;;
     drv_unit (SendKeys passwordInput (LINKEDIN_PASSWORD E)) ;;;
     loginButton <- drv_element (FindElement submitButton) ;;
     drv_unit (Click loginButton) ;;;
     console MLoggingIn ;;;
     waitUrl 15000 ;;;
     console MLoginSuccessful ;;;
     cookies <- drv GetCookies (drv_cookies E) ;;
     writeFile COOKIES_FILE (JSON_stringify E cookies) ;;;
     console MCookiesSaved ;;;
     console (MTotalCookies (List.length cookies)) ;;;
     drv_unit (DriverSleep 3000) ;;;
     ret true)
    (fun error => console (MErrorDuringLogin error) ;;; ret false).

(** The body of the loop over the cookies (scraper.js 98-102).  For
    a null entry [addCookie] throws a TypeError before any command goes
    to the browser, and the handler throws again when it reads
    [cookie.name]: the error leaves the loop. *)
Definition addCookieOrWarn (entry : option Cookie) : M unit :=
  match entry with
  | Some cookie =>
      try_catch (drv_unit (AddCookie cookie))
                (fun err => console (MCouldNotAddCookie (cname cookie) err))
  | None => throw TypeError
  end.

(** loadCookies (scraper.js 90-112): the handler logs and rethrows. *)
Definition loadCookies (driver : Driver) : M unit :=
  try_catch
    (cookiesData <- readFile COOKIES_FILE ;;
     parsed <- match JSON_parse E cookiesData with
               | Some v => ret v
               | None => throw SyntaxError
               end ;;
     drv_unit (Get "https://www.linkedin.com") ;;;
     cookies <- match parsed with
                | Some l => ret l
                | None => throw TypeError
                end ;;
     forEach cookies addCookieOrWarn ;;;
     console MCookiesLoaded ;;;
     drv_unit Refresh)
    (fun error => console (MErrorLoadingCookies error) ;;; throw error).

(** loginWithSavedCookies (scraper.js 114-144).  The result is [Some b]
    for [return b] and [None] for the [undefined] of the path that
    leaves the outer handler without a [return]. *)
Definition loginWithSavedCookies (driver : Driver) : M (option bool) :=
  try_catch
    (loadCookies driver ;;;
     drv_unit (Get "https://www.linkedin.com/feed/") ;;;
     console MTryingSavedCookies ;;;
     emailInput <- try_catch
                     (e <- drv_element (WaitLocated (ById "username") 10000) ;;
                      ret (Some e))
                     (fun _ => console MLoginInputNotFound ;;; ret None) ;;
     match emailInput with
     | Some _ =>
         console MNotLogged ;;;
         success <- loginToLinkedIn driver ;;
         if negb success
         then console MLoginFailed ;;; ret (Some false)
         else console MLoginSuccessful ;;; ret (Some true)
     | None => console MLoginSuccessful ;;; ret (Some true)
     end)
    (fun error => console (MError error) ;;; ret None).

(** The entries of [pdfStats]: [{ name, time }]; the [path] that
    renameDownloadedPdf adds is [InFolder name]. *)
Record PdfStat := mkStat { name : string; time : JsTime }.

(** [f.endsWith('.pdf') && !f.endsWith('.crdownload')] *)
Definition isPdf (f : string) : bool :=
  endsWith ".pdf" f && negb (endsWith ".crdownload" f).

(** The comparator [(a, b) => b.time - a.time]; the difference is
    [NaN] as soon as one of the times is. *)
Definition compareStats (a b : PdfStat) : JsTime :=
  match time b, time a with
  | Some tb, Some ta => Some (tb - ta)
  | _, _ => None
  end.

(** The comparator does not put [b] before [a]: its value is not
    above zero.  The sort reads [NaN] as [+0]. *)
Definition notAbove (v : JsTime) : bool :=
  match v with
  | Some z => z <=? 0
  | None => true
  end.

(** [pdfStats.sort((a, b) => b.time - a.time)].  For a consistent
    comparator, which this one is when no time is [NaN], the sort of
    JavaScript is the stable sort, written here as a stable insertion
    sort with the comparator of the source.  With a [NaN] among the
    times the language leaves the order to the engine; for two entries
    every order-preserving engine, V8 among them, keeps the listing
    order, as the insertion sort does. *)
Fixpoint insertStat (x : PdfStat) (l : list PdfStat) : list PdfStat :=
  match l with
  | [] => [x]
  | y :: l' => if notAbove (compareStats x y) then x :: l else y :: insertStat x l'
  end.

Fixpoint sortStats (l : list PdfStat) : list PdfStat :=
  match l with
  | [] => []
  | x :: l' => insertStat x (sortStats l')
  end.

(** [Promise.all(pdfFiles.map(async f => ({ name: f, time: ... })))] *)
Definition statAll (pdfFiles : list string) : M (list PdfStat) :=
  mapM (fun f => t <- stat_mtime (InFolder f) ;; ret (mkStat f t)) pdfFiles.

(** One round of the loop of waitForDownload (scraper.js 172-193):
    [Some f] is the [return] inside the [try], [None] falls through to
    the [sleep]. *)
Definition pollDownload : M (option string) :=
  try_catch
    (files <- readdir DOWNLOAD_FOLDER ;;
     let pdfFiles := filter isPdf files in
     if (0 <? List.length pdfFiles)%nat
     then pdfStats <- statAll pdfFiles ;;
          match sortStats pdfStats with
          | first :: _ => ret (Some (name first))
          | [] => throw TypeError
          end
     else ret None)
    (fun _ => ret None).

(** The [while] loop of waitForDownload.  [fuel] bounds the number of
    rounds; [Diverge] is what is left when it runs out. *)
Fixpoint waitLoop (fuel : nat) (timeout startTime : Z) : M (option string) :=
  fun w =>
    if now w - startTime <? timeout
    then match fuel with
         | O => (Diverge, w)
         | S fuel' =>
             (found <- pollDownload ;;
              match found with
              | Some f => ret (Some f)
              | None => sleep 500 ;;; waitLoop fuel' timeout startTime
              end) w
         end
    else (Ok None, w).

(** waitForDownload (scraper.js 168-199), on [DOWNLOAD_FOLDER].  Every
    round but the last sleeps 500 ms, so [timeout / 500 + 1] rounds are
    never exceeded (see [waitForDownload_returns]). *)
Definition waitForDownload (timeout : Z) : M (option string) :=
  startTime <- dateNow ;;
  waitLoop (Z.to_nat (timeout / 500) + 1) timeout startTime.

(** The naming of the artifact (scraper.js 226-244): the [try] holds
    both the existence check and the rename under the timestamped name;
    its handler renames to [<profileId>.pdf]. *)
Definition moveIntoPlace (profileId : string) (mostRecentPdf : PdfStat) : M bool :=
  let newFileName := profileId ++ ".pdf" in
  let newFilePath := InFolder newFileName in
  try_catch
    (access newFilePath ;;;
     console (MAlreadyExists newFileName) ;;;
     timestamp <- dateNow ;;
     let timestampedName := profileId ++ "_" ++ decimal timestamp ++ ".pdf" in
     rename (InFolder (name mostRecentPdf)) (InFolder timestampedName) ;;;
     console (MRenamedTo timestampedName) ;;;
     ret true)
    (fun _ =>
       rename (InFolder (name mostRecentPdf)) newFilePath ;;;
       console (MRenamedTo newFileName) ;;;
       ret true).

(** renameDownloadedPdf (scraper.js 202-250), on [DOWNLOAD_FOLDER]. *)
Definition renameDownloadedPdf (profileId : string) : M bool :=
  try_catch
    (files <- readdir DOWNLOAD_FOLDER ;;
     let pdfFiles := filter isPdf files in
     if (List.length pdfFiles =? 0)%nat
     then console MNoPdfToRename ;;; ret false
     else
       pdfStats <- statAll pdfFiles ;;
       match sortStats pdfStats with
       | [] => throw TypeError
       | mostRecentPdf :: _ => moveIntoPlace profileId mostRecentPdf
       end)
    (fun e => console (MErrorRenaming e) ;;; ret false).

(** getProfileURLs (scraper.js 341-351) *)
Definition getProfileURLs : M (list string) :=
  try_catch
    (urlsData <- readFile profileURLsPath ;;
     let urls := filter truthy (map trim (split (trim urlsData))) in
     console (MFoundURLs urls) ;;;
     ret urls)
    (fun e => console (MErrorReadingURLs e) ;;; ret []).

Definition overflowButtons : Locator :=
  ByXpath ("//button[contains(@id, " ++ dq ++ "profile-overflow-action" ++ dq ++ ")]").

Definition saveToPdfItem : Locator :=
  ByXpath ("//div[@role=" ++ dq ++ "button" ++ dq ++ " and contains(., "
           ++ dq ++ "Save to PDF" ++ dq ++ ")]").

Definition saveToPdfAnywhere : Locator :=
  ByXpath ("//*[contains(text(), " ++ dq ++ "Save to PDF" ++ dq ++ ")]").

Definition clickScript : string := "arguments[0].click();".

(** [if (downloadedFile) { ... } else { ... }] (scraper.js 302-312);
    [None] is the [null] of waitForDownload. *)
Definition claimDownload (profileId : string) (downloadedFile : option string) : M unit :=
  match downloadedFile with
  | Some f =>
      if truthy f
      then console (MDownloadCompleted f) ;;;
           sleep 2000 ;;;
           renameDownloadedPdf profileId ;;;
           ret tt
      else console MDownloadTimeout
  | None => console MDownloadTimeout
  end.

(** The inner [try] block of the loop (scraper.js 285-312). *)
Definition savePdf (secondOverflowAction : Elem) (profileId : string) : M unit :=
  console MClickingMore ;;;
  drv_unit (Click secondOverflowAction) ;;;
  sleep 1000 ;;;
  pdfButton <- drv_element (FindElement saveToPdfItem) ;;
  console MFoundSaveToPdf ;;;
  drv_unit (ExecuteScript clickScript pdfButton) ;;;
  console MDownloadInitiated ;;;
  downloadedFile <- waitForDownload 30000 ;;
  claimDownload profileId downloadedFile.

(** The alternative selector (scraper.js 318-329). *)
Definition savePdfAlternative (profileId : string) : M unit :=
  pdfButtonAlt <- drv_element (FindElement saveToPdfAnywhere) ;;
  drv_unit (ExecuteScript clickScript pdfButtonAlt) ;;;
  console MInitiatedAlternative ;;;
  downloadedFile <- waitForDownload 30000 ;;
  match downloadedFile with
  | Some f =>
      if truthy f
      then sleep 2000 ;;; renameDownloadedPdf profileId ;;; ret tt
      else ret tt
  | None => ret tt
  end.

(** The [try] statement of the loop body (scraper.js 268-337); each
    [continue] ends the round. *)
Definition exportProfile (url profileId : string) : M unit :=
  try_catch
    (drv_unit (Get url) ;;;
     sleep 3000 ;;;
     overflowActions <- drv (FindElements overflowButtons)
                            (drv_elements E (FindElements overflowButtons)) ;;
     match nth_error overflowActions 1 with
     | None => console MNoSecondOverflow
     | Some secondOverflowAction =>
         try_catch
           (savePdf secondOverflowAction profileId)
           (fun e =>
              console (MErrorFindingPdfButton e) ;;;
              try_catch
                (savePdfAlternative profileId)
                (fun e2 => console (MAlternativeFailed e2)))
     end)
    (fun e => console (MErrorProcessing e)).

(** The body of the [for] loop (scraper.js 256-337) at index [i] of
    [n] URLs. *)
Definition processProfile (driver : Driver) (i n : nat) (raw : string) : M unit :=
  let url := trim raw in
  if negb (truthy url) then ret tt
  else
    let profileId := extractProfileId url in
    match profileId with
    | None => console (MCouldNotExtract (i + 1) n url)
    | Some profileId =>
        if negb (truthy profileId)
        then console (MCouldNotExtract (i + 1) n url)
        else
          console (MProcessing (i + 1) n profileId) ;;;
          console (MUrl url) ;;;
          exportProfile url profileId
    end.

(** [for (let i = ...; i < URLs.length; i++)] from index [i] on. *)
Fixpoint profilesLoop (driver : Driver) (i n : nat) (URLs : list string) : M unit :=
  match URLs with
  | [] => ret tt
  | raw :: rest => processProfile driver i n raw ;;; profilesLoop driver (S i) n rest
  end.

(** proccessProfiles (scraper.js 252-339) *)
Definition proccessProfiles (driver : Driver) : M unit :=
  URLs <- getProfileURLs ;;
  profilesLoop driver 0 (List.length URLs) URLs.

(** The first statement of main (scraper.js 355-360). *)
Definition ensureDownloadFolder : M unit :=
  try_catch
    (mkdir DOWNLOAD_FOLDER ;;; console MDownloadFolder)
    (fun _ => console MFolderExists).

(** main (scraper.js 353-383) *)
Definition main : M unit :=
  ensureDownloadFolder ;;;
  driver <- getDriver ;;
  match driver with
  | None => console MFailedToCreateDriver
  | Some driver =>
      isLogged <- loginWithSavedCookies driver ;;
      match isLogged with
      | Some true =>
          sleep 3000 ;;;
          proccessProfiles driver ;;;
          console MAllProcessed ;;;
          console MPdfsSavedIn ;;;
          sleep 5000 ;;;
          drv_unit Quit
      | _ =>
          console MLoginFailed ;;;
          sleep 5000 ;;;
          drv_unit Quit
      end
  end.

End Program.

(** ** Vocabulary of the properties *)

(** Every code unit of [s] is in the class [[^\/\?]]. *)
Fixpoint all_seg (s : string) : bool :=
  match s with
  | EmptyString => true
  | String c s' => seg_char c && all_seg s'
  end.

(** [s] is empty or starts with a slash or a question mark. *)
Definition ends_segment (s : string) : bool :=
  match s with
  | EmptyString => true
  | String c _ => negb (seg_char c)
  end.

(** The URL has a path segment [/in/<segment>]: somewhere it reads
    [/in/] followed by a code unit other than a slash and a question
    mark. *)
Definition has_in_segment (url : string) : Prop :=
  exists pre c rest, url = pre ++ "/in/" ++ String c rest /\ seg_char c = true.

(** The URLs the loop of proccessProfiles got to, read off the console
    lines that start a round ([Could not extract ...] and [URL: ...]);
    like the trace, most recent first. *)
Fixpoint urls_seen (evs : list Event) : list string :=
  match evs with
  | [] => []
  | Log (MCouldNotExtract _ _ url) :: evs' => url :: urls_seen evs'
  | Log (MUrl url) :: evs' => url :: urls_seen evs'
  | _ :: evs' => urls_seen evs'
  end.

(** [w'] comes after [w]: the trace grew by events that start no
    round of the loop, and the list of targets is as it was. *)
Definition frame (w w' : World) : Prop :=
  profilesFile w' = profilesFile w /\
  exists evs, trace w' = (evs ++ trace w)%list /\ urls_seen evs = [].

(** [m] ends (it returns or throws) and starts no round of the loop. *)
Definition tame {A} (m : M A) : Prop :=
  forall w, fst (m w) <> Diverge /\ frame w (snd (m w)).

(** [m] returns: it neither throws nor runs for ever. *)
Definition safe {A} (m : M A) : Prop :=
  forall w, exists a, fst (m w) = Ok a.

(** The qualifying artifacts of the download folder. *)
Definition candidates (w : World) : list string :=
  match folder w with
  | Some d => filter isPdf (map fname d)
  | None => []
  end.

(** [f] is a qualifying entry of [d] and none is more recent. *)
Definition latest (d : list file) (f : file) : Prop :=
  In f d /\ isPdf (fname f) = true /\
  forall g, In g d -> isPdf (fname g) = true -> mtime g <= mtime f.

(** The folder can be listed and its entries inspected. *)
Definition readable (E : Env) (w : World) : Prop :=
  fs_fault E (Readdir DOWNLOAD_FOLDER) w = false /\
  forall f, fs_fault E (Stat (InFolder f)) w = false.

(** The world after one round of waitForDownload that found nothing. *)
Definition idle (E : Env) (w : World) : World := snd (sleep E 500 w).

(** The session store cannot be loaded: the file is absent or its
    contents do not parse. *)
Definition store_unusable (E : Env) (w : World) : Prop :=
  cookiesFile w = None \/
  exists c, cookiesFile w = Some c /\ JSON_parse E c = None.

(** The target list cannot be read or holds nothing. *)
Definition targets_empty (w : World) : Prop :=
  profilesFile w = None \/
  exists c, profilesFile w = Some c /\ trim c = "".

(** [m] only reads: it leaves the world as it found it. *)
Definition reads {A} (m : M A) : Prop := forall w, snd (m w) = w.

(** The end of main on its two paths that have a browser:
    [await sleep(5000); await driver.quit()]. *)
Definition quitAfter (E : Env) (w : World) : Res unit * World :=
  drv_unit E Quit (snd (sleep E 5000 w)).

(** The environment [E] with the credentials replaced. *)
Definition with_credentials (email password : option string) (E : Env) : Env :=
  mkEnv email password (JSON_parse E) (JSON_stringify E) (fs_fault E) (drv_fault E)
        (drv_elements E) (drv_cookies E) (drv_urls E) (external E) (lag E).

(** The time [getTime()] gives for the entry [f] of [d]. *)
Definition mtime_in (d : list file) (f : string) : JsTime :=
  match lookup f d with
  | Some x => getTime (mtime x)
  | None => None
  end.

(** The qualifying entries of [d] have time stamps within the range
    of [Date]. *)
Definition dated (d : list file) : Prop :=
  forall f, In f d -> isPdf (fname f) = true -> getTime (mtime f) = Some (mtime f).

(** What both directory functions pick from the folder [d]: the head
    of the sorted statistics of its qualifying entries. *)
Definition selected (d : list file) : option string :=
  match sortStats (map (fun f => mkStat f (mtime_in d f))
                       (filter isPdf (map fname d))) with
  | first :: _ => Some (name first)
  | [] => None
  end.


(** Every code unit of [s] satisfies [p]. *)
Fixpoint all_chars (p : ascii -> bool) (s : string) : bool :=
  match s with
  | EmptyString => true
  | String c s' => p c && all_chars p s'
  end.

(** [s] holds neither a newline nor a comma. *)
Definition sep_free (s : string) : bool := all_chars (fun c => negb (is_sep c)) s.

(** An entry of the target list as getProfileURLs hands it on: not
    empty, without white space at either end, without a separator. *)
Definition clean_url (u : string) : Prop :=
  u <> "" /\ trim u = u /\ sep_free u = true.

(** [s] does not start with white space. *)
Definition starts_clean (s : string) : bool :=
  match s with
  | EmptyString => true
  | String c _ => negb (is_space c)
  end.

(** The cookies handed to [addCookie], read off the events; like the
    trace, most recent first. *)
Fixpoint cookies_added (evs : list Event) : list Cookie :=
  match evs with
  | [] => []
  | Drv (AddCookie c) :: evs' => c :: cookies_added evs'
  | _ :: evs' => cookies_added evs'
  end.

(** [m] returns [true], or ends with the folder as it found it. *)
Definition true_or_untouched (m : M bool) : Prop :=
  forall w, fst (m w) = Ok true \/
            (fst (m w) <> Diverge /\ folder (snd (m w)) = folder w).

(** Every event that [m] adds to the trace satisfies [p]. *)
Definition only (p : Event -> bool) {A} (m : M A) : Prop :=
  forall w, exists evs, trace (snd (m w)) = (evs ++ trace w)%list /\
                        forallb p evs = true.

(** The file-system writes the program may issue: the cookie file is
    written, the download folder is created, and entries of the
    download folder are renamed within it. *)
Definition own_files (ev : Event) : bool :=
  match ev with
  | Fs (WriteFile COOKIES_FILE _) => true
  | Fs (Mkdir DOWNLOAD_FOLDER) => true
  | Fs (Rename (InFolder _) (InFolder _)) => true
  | Fs _ => false
  | _ => true
  end.

(** The pages the browser may be sent to: the three fixed pages of
    the service, and URLs in which extractProfileId finds an
    identifier. *)
Definition known_page (ev : Event) : bool :=
  match ev with
  | Drv (Get url) =>
      String.eqb url "https://www.linkedin.com/login"
      || String.eqb url "https://www.linkedin.com"
      || String.eqb url "https://www.linkedin.com/feed/"
      || match extractProfileId url with Some _ => true | None => false end
  | _ => true
  end.

(** The events of a round that goes no further than looking for the
    overflow buttons. *)
Definition looks_only (ev : Event) : bool :=
  match ev with
  | Drv (Get _) => true
  | Drv (FindElements _) => true
  | Drv _ => false
  | Fs _ => false
  | Slept _ => true
  | Log _ => true
  end.

(** [m], when it throws, has added only events that satisfy [p]. *)
Definition throws_within (p : Event -> bool) {A} (m : M A) : Prop :=
  forall w e w', m w = (Throw e, w') ->
                 exists evs, trace w' = (evs ++ trace w)%list /\ forallb p evs = true.

(** The events of a round in which no download was announced and no
    file was touched. *)
Definition before_download (ev : Event) : bool :=
  match ev with
  | Log MDownloadInitiated => false
  | Fs _ => false
  | _ => true
  end.

(** The URL without its query and fragment: what stands before the
    first question mark or hash. *)
Fixpoint before_query (url : string) : string :=
  match url with
  | EmptyString => EmptyString
  | String c url' =>
      if Ascii.eqb c "?" || Ascii.eqb c "#" then EmptyString
      else String c (before_query url')
  end.

(** The steps of savePdf that come before the wait (scraper.js
    286-298). *)
Definition startDownload (E : Env) (secondOverflowAction : Elem) : M unit :=
  console MClickingMore ;;;
  drv_unit E (Click secondOverflowAction) ;;;
  sleep E 1000 ;;;
  pdfButton <- drv_element E (FindElement saveToPdfItem) ;;
  console MFoundSaveToPdf ;;;
  drv_unit E (ExecuteScript clickScript pdfButton) ;;;
  console MDownloadInitiated.

(** The steps of the alternative selector that come before the wait
    (scraper.js 319-323). *)
Definition startAlternative (E : Env) : M unit :=
  pdfButtonAlt <- drv_element E (FindElement saveToPdfAnywhere) ;;
  drv_unit E (ExecuteScript clickScript pdfButtonAlt) ;;;
  console MInitiatedAlternative.

(** The number of 500 ms sleeps among the events. *)
Definition polls (evs : list Event) : nat :=
  List.length (filter (fun ev => match ev with Slept 500 => true | _ => false end) evs).

(** The cookies of the stored array that stand before its first
    [null]. *)
Fixpoint before_null (entries : list (option Cookie)) : list Cookie :=
  match entries with
  | Some cookie :: entries' => cookie :: before_null entries'
  | _ => []
  end.

(** No entry of the stored array is [null]. *)
Definition all_objects (entries : list (option Cookie)) : bool :=
  forallb (fun entry => match entry with Some _ => true | None => false end) entries.

(** The events other than the first console line of loginToLinkedIn:
    where all events are such, loginToLinkedIn was not called. *)
Definition not_login (ev : Event) : bool :=
  match ev with
  | Log MOpeningLogin => false
  | _ => true
  end.

(** [w'] is [w] with events added that all satisfy [p]. *)
Definition within (p : Event -> bool) (w w' : World) : Prop :=
  exists evs, trace w' = (evs ++ trace w)%list /\ forallb p evs = true.

(** ** Scenarios *)

(** The JSON text of a list of cookies as [JSON.stringify(cookies,
    null, 2)] writes it, for cookies of three fields whose values need
    no escaping. *)
Definition nl : string := String "010" EmptyString.

Definition json_field (key value : string) : string :=
  "    " ++ dq ++ key ++ dq ++ ": " ++ dq ++ value ++ dq.

Definition json_cookie (c : Cookie) : string :=
  "  {" ++ nl ++ json_field "name" (cname c) ++ "," ++ nl
  ++ json_field "value" (cvalue c) ++ "," ++ nl
  ++ json_field "domain" (cdomain c) ++ nl ++ "  }".

Definition json_cookies (cookies : list Cookie) : string :=
  match cookies with
  | [] => "[]"
  | _ => "[" ++ nl ++ String.concat ("," ++ nl) (map json_cookie cookies) ++ nl ++ "]"
  end.

Definition li_at : Cookie := mkCookie "li_at" "token" ".linkedin.com".
Definition jsessionid : Cookie := mkCookie "JSESSIONID" "ajax" ".www.linkedin.com".

(** A store into which a [null] has found its way, between two
    cookies. *)
Definition json_with_null : string :=
  "[" ++ nl ++ json_cookie li_at ++ "," ++ nl ++ "  null," ++ nl
  ++ json_cookie jsessionid ++ nl ++ "]".

(** [JSON.parse] on the texts of the scenarios; any other text is
    taken for a syntax error. *)
Definition parse_store (text : string) : option (option (list (option Cookie))) :=
  if String.eqb text json_with_null then Some (Some [Some li_at; None; Some jsessionid])
  else match find (fun l => String.eqb text (json_cookies l))
                  [[]; [li_at]; [li_at; jsessionid]] with
       | Some l => Some (Some (map Some l))
       | None => None
       end.

(** A cooperative environment: nothing is refused, the page shows no
    login form, two overflow buttons and the menu item, and the folder
    is left alone. *)
Definition cooperative (email password : option string) : Env :=
  mkEnv email password
        parse_store
        json_cookies
        (fun _ _ => false)
        (fun _ _ => false)
        (fun c _ => match c with
                    | WaitLocated _ _ => []
                    | FindElements _ => [1%nat; 2%nat]
                    | _ => [3%nat]
                    end)
        (fun _ => [])
        (fun _ => ["https://www.linkedin.com/feed/"])
        folder
        (fun _ => 0%nat).

(** A first run: credentials set, no session store yet, one target. *)
Definition first_run_env : Env :=
  cooperative (Some "user@example.com") (Some "secret").

Definition first_run : World :=
  mkWorld 1700000000000 None None
          (Some "https://www.linkedin.com/in/jane-smith/") [].

(** A later run without credentials in the process environment: the
    session store holds a session that is still valid, and the export
    that the click starts lands in the folder as [Profile.pdf]. *)
Definition download_started (ev : Event) : bool :=
  match ev with Drv (ExecuteScript _ _) => true | _ => false end.

Definition artifact_claimed (ev : Event) : bool :=
  match ev with Fs (Rename _ _) => true | _ => false end.

Definition no_credentials_env : Env :=
  mkEnv None None
        parse_store
        json_cookies
        (fun _ _ => false)
        (fun _ _ => false)
        (fun c _ => match c with
                    | WaitLocated _ _ => []
                    | FindElements _ => [1%nat; 2%nat]
                    | _ => [3%nat]
                    end)
        (fun _ => [])
        (fun _ => ["https://www.linkedin.com/feed/"])
        (fun w => if existsb download_started (trace w)
                     && negb (existsb artifact_claimed (trace w))
                  then Some [mkFile "Profile.pdf" (now w) "export of jane-smith"]
                  else folder w)
        (fun _ => 0%nat).

Definition later_run : World :=
  mkWorld 1700000000000 None (Some (json_cookies [li_at]))
          (Some "https://www.linkedin.com/in/jane-smith/") [].

(** A folder with two finished exports, one download in progress and
    a file that is no export. *)
Definition busy_folder : World :=
  mkWorld 1700000000000
          (Some [mkFile "Profile.pdf" 1000 "older";
                 mkFile "Profile (1).pdf" 5000 "newer";
                 mkFile "Profile (2).pdf.crdownload" 9000 "partial";
                 mkFile "notes.txt" 7000 "notes"])
          None None [].

(** A file system with the usual limit of 255 code units on a name:
    a rename to a longer name is refused. *)
Definition name_limit_env : Env :=
  mkEnv (Some "user@example.com") (Some "secret")
        parse_store
        json_cookies
        (fun c _ => match c with
                    | Rename _ (InFolder dst) => (255 <? String.length dst)%nat
                    | _ => false
                    end)
        (fun _ _ => false)
        (fun _ _ => [])
        (fun _ => [])
        (fun _ => [])
        folder
        (fun _ => 0%nat).

Fixpoint replicate (n : nat) (c : ascii) : string :=
  match n with
  | O => EmptyString
  | S n' => String c (replicate n' c)
  end.

(** An identifier of 240 code units: [long_id ++ ".pdf"] fits in a name,
    the timestamped name does not. *)
Definition long_id : string := replicate 240 "a".

(** The folder after a first export of [long_id], with a second export
    just downloaded. *)
Definition second_export : World :=
  mkWorld 1700000000000
          (Some [mkFile "Profile.pdf" 2000 "second export";
                 mkFile (long_id ++ ".pdf") 1000 "first export"])
          None None [].

(** A target list that holds two spaces and nothing else. *)
Definition blank_list : World :=
  mkWorld 1700000000000 None None (Some "  ") [].

(** A browser that rejects every call. *)
Definition hostile_env : Env :=
  mkEnv (Some "user@example.com") (Some "secret")
        parse_store
        json_cookies
        (fun _ _ => false)
        (fun _ _ => true)
        (fun _ _ => [])
        (fun _ => [])
        (fun _ => [])
        folder
        (fun _ => 0%nat).

(** A target list of two lines, the second ending the file. *)
Definition two_targets : World :=
  mkWorld 1700000000000 None None
          (Some (String.concat (String "010" EmptyString)
                   ["https://www.linkedin.com/in/jane-smith/";
                    "https://www.linkedin.com/in/john-doe-123456"])) [].

(** A browser that takes no cookie, and stores of two cookies, with
    and without a [null] between them. *)
Definition no_cookie_env : Env :=
  mkEnv (Some "user@example.com") (Some "secret")
        parse_store
        json_cookies
        (fun _ _ => false)
        (fun c _ => match c with AddCookie _ => true | _ => false end)
        (fun _ _ => [])
        (fun _ => [])
        (fun _ => [])
        folder
        (fun _ => 0%nat).

(** A browser on which the credential login goes through: every
    element is found, the feed is reached, one cookie is set. *)
Definition login_env : Env :=
  mkEnv (Some "user@example.com") (Some "secret")
        parse_store
        json_cookies
        (fun _ _ => false)
        (fun _ _ => false)
        (fun _ _ => [7%nat])
        (fun _ => [li_at])
        (fun _ => ["https://www.linkedin.com/login"; "https://www.linkedin.com/feed/"])
        folder
        (fun _ => 0%nat).

(** A browser that shows the login form after the restore and then,
    during the credential login, lets the wait for the form fail. *)
Definition expired_env : Env :=
  mkEnv (Some "user@example.com") (Some "secret")
        parse_store
        json_cookies
        (fun _ _ => false)
        (fun c w => match c with
                    | WaitLocated _ _ => existsb (fun ev => match ev with
                                                           | Log MNotLogged => true
                                                           | _ => false
                                                           end) (trace w)
                    | _ => false
                    end)
        (fun _ _ => [7%nat])
        (fun _ => [])
        (fun _ => [])
        folder
        (fun _ => 0%nat).

(** A machine on which no browser can be started. *)
Definition no_browser_env : Env :=
  mkEnv None None
        (fun _ => None)
        (fun _ => "")
        (fun _ _ => false)
        (fun _ _ => true)
        (fun _ _ => [])
        (fun _ => [])
        (fun _ => [])
        folder
        (fun _ => 0%nat).

(** A folder with one finished export and one download in progress,
    nothing yet claimed. *)
Definition fresh_export : World :=
  mkWorld 1700000000000
          (Some [mkFile "Profile.pdf" 4000 "export of jane-smith";
                 mkFile "Profile (1).pdf.crdownload" 6000 "partial"])
          None None [].

(** Pages that show a single overflow button. *)
Definition one_button_env : Env :=
  mkEnv (Some "user@example.com") (Some "secret")
        parse_store
        json_cookies
        (fun _ _ => false)
        (fun _ _ => false)
        (fun c _ => match c with
                    | FindElements _ => [1%nat]
                    | _ => []
                    end)
        (fun _ => [])
        (fun _ => [])
        folder
        (fun _ => 0%nat).

(** Stores of two cookies. *)
Definition two_cookies : World :=
  mkWorld 1700000000000 None (Some (json_cookies [li_at; jsessionid])) None [].

Definition two_cookies_and_null : World :=
  mkWorld 1700000000000 None (Some json_with_null) None [].





(** The world right after the click on the menu item: the export has
    been asked for and is not yet in the folder. *)
Definition export_pending : World :=
  mkWorld 1700000000000 (Some []) None None [Drv (ExecuteScript clickScript 3%nat)].

Definition same_locator (a b : Locator) : bool :=
  match a, b with
  | ById x, ById y => String.eqb x y
  | ByCss x, ByCss y => String.eqb x y
  | ByXpath x, ByXpath y => String.eqb x y
  | _, _ => false
  end.

(** A page whose menu item is not a [div] with the role of a button:
    the first selector finds nothing, the alternative one finds the
    item; the session is valid, and no export reaches the folder. *)
Definition text_only_env : Env :=
  mkEnv None None
        parse_store
        json_cookies
        (fun _ _ => false)
        (fun c _ => match c with
                    | FindElement l => same_locator l saveToPdfItem
                    | _ => false
                    end)
        (fun c _ => match c with
                    | WaitLocated _ _ => []
                    | FindElements _ => [1%nat; 2%nat]
                    | _ => [3%nat]
                    end)
        (fun _ => [])
        (fun _ => ["https://www.linkedin.com/feed/"])
        folder
        (fun _ => 0%nat).

(** The first run's folder and clock after the steps of savePdf up
    to the click on the menu item. *)
Definition after_click : World := snd (startDownload first_run_env 2%nat first_run).
(** ** Identifier extraction *)

Lemma append_assoc (a b c : string) : (a ++ b) ++ c = a ++ (b ++ c).
Proof. induction a as [|x a IH]; simpl; [reflexivity | now rewrite IH]. Qed.

Lemma take_seg_app (seg rest : string) :
  all_seg seg = true -> ends_segment rest = true ->
  take_seg (seg ++ rest) = seg.
Proof.
  induction seg as [|c seg IH]; simpl; intros Hs Hr.
  - destruct rest as [|c r]; simpl in *; [reflexivity|].
    now destruct (seg_char c).
  - apply andb_prop in Hs as [Hc Hs]. rewrite Hc. now rewrite IH.
Qed.

Lemma removeTrailingSlash_seg (seg : string) :
  all_seg seg = true -> removeTrailingSlash seg = seg.
Proof.
  induction seg as [|c seg IH]; simpl; intros Hs; [reflexivity|].
  apply andb_prop in Hs as [Hc Hs].
  destruct seg as [|c' seg'].
  - unfold seg_char in Hc. destruct (Ascii.eqb c "/"); [discriminate | reflexivity].
  - now rewrite (IH Hs).
Qed.

Lemma stripPrefix_shorter (p a b : string) :
  (String.length p <= String.length a)%nat ->
  stripPrefix p (a ++ b) <> None -> stripPrefix p a <> None.
Proof.
  revert a; induction p as [|x p IH]; intros a Hlen H; simpl in *; [discriminate|].
  destruct a as [|y a]; simpl in *; [lia|].
  destruct (Ascii.eqb x y); [|exact H].
  apply IH; [lia | exact H].
Qed.

Lemma includes_cons (sub : string) (c : ascii) (s : string) :
  includes sub (String c s) = false -> includes sub s = false.
Proof. simpl. destruct (stripPrefix sub (String c s)); [discriminate | trivial]. Qed.

Lemma includes_here (sub s : string) :
  includes sub s = false -> stripPrefix sub s = None.
Proof.
  destruct s; simpl; destruct (stripPrefix sub _); intros H;
    solve [discriminate | reflexivity].
Qed.

Lemma length_append (a b : string) :
  String.length (a ++ b) = (String.length a + String.length b)%nat.
Proof. induction a; simpl; congruence. Qed.

(** Text in which [/in/] does not occur is skipped by the search. *)
Lemma regex_match_skip (pre tail : string) :
  includes "/in/" (pre ++ "/in") = false ->
  regex_match ((pre ++ "/in") ++ tail) = regex_match ("/in" ++ tail).
Proof.
  induction pre as [|c pre IH]; intros H; [reflexivity|].
  change ((String c pre ++ "/in") ++ tail) with (String c ((pre ++ "/in") ++ tail)).
  change (String c pre ++ "/in") with (String c (pre ++ "/in")) in H.
  assert (Hhere : stripPrefix "/in/" (String c ((pre ++ "/in") ++ tail)) = None).
  { destruct (stripPrefix "/in/" (String c ((pre ++ "/in") ++ tail))) eqn:Hs; [|reflexivity].
    exfalso.
    assert (Hne : stripPrefix "/in/" (String c (pre ++ "/in")) <> None).
    { apply (stripPrefix_shorter "/in/" (String c (pre ++ "/in")) tail).
      - simpl. rewrite length_append. simpl. lia.
      - change (String c (pre ++ "/in") ++ tail) with (String c ((pre ++ "/in") ++ tail)).
        rewrite Hs. discriminate. }
    exact (Hne (includes_here _ _ H)). }
  cbn [regex_match]. unfold match_here. rewrite Hhere.
  apply IH. exact (includes_cons _ _ _ H).
Qed.

Lemma extractProfileId_segment (pre seg rest : string) :
  includes "/in/" (pre ++ "/in") = false ->
  seg <> "" -> all_seg seg = true -> ends_segment rest = true ->
  extractProfileId (pre ++ "/in/" ++ seg ++ rest) = Some seg.
Proof.
  intros Hpre Hne Hseg Hrest.
  unfold extractProfileId.
  replace (pre ++ "/in/" ++ seg ++ rest) with ((pre ++ "/in") ++ ("/" ++ seg ++ rest))
    by (rewrite append_assoc; reflexivity).
  rewrite (regex_match_skip pre _ Hpre).
  change ("/in" ++ "/" ++ seg ++ rest) with (String "/" ("in/" ++ (seg ++ rest))).
  cbn [regex_match]. unfold match_here.
  change (stripPrefix "/in/" (String "/" ("in/" ++ seg ++ rest)))
    with (Some (seg ++ rest)).
  cbv beta iota. rewrite (take_seg_app seg rest Hseg Hrest).
  destruct seg as [|c seg']; [contradiction|].
  cbn [truthy]. now rewrite (removeTrailingSlash_seg _ Hseg).
Qed.

Lemma stripPrefix_Some (p s r : string) :
  stripPrefix p s = Some r -> s = p ++ r.
Proof.
  revert s; induction p as [|x p IH]; intros s H; simpl in *.
  - now injection H as ->.
  - destruct s as [|y s]; [discriminate|].
    destruct (Ascii.eqb_spec x y) as [->|]; [|discriminate].
    now rewrite (IH _ H).
Qed.

Lemma regex_match_Some (s g : string) :
  regex_match s = Some g -> has_in_segment s.
Proof.
  induction s as [|c s IH]; intros H.
  - discriminate.
  - cbn [regex_match] in H.
    destruct (match_here (String c s)) eqn:Hm.
    + unfold match_here in Hm.
      destruct (stripPrefix "/in/" (String c s)) as [r|] eqn:Hs; [|discriminate].
      apply stripPrefix_Some in Hs.
      destruct r as [|c' r']; [discriminate|].
      simpl in Hm. destruct (seg_char c') eqn:Hc; [|discriminate].
      exists "", c', r'. split; [exact Hs | exact Hc].
    + destruct (IH H) as (pre & c' & rest & -> & Hc).
      exists (String c pre), c', rest. split; [reflexivity | exact Hc].
Qed.

Lemma regex_match_None (s : string) :
  regex_match s = None -> ~ has_in_segment s.
Proof.
  intros H (pre & c & rest & -> & Hc). revert H.
  induction pre as [|x pre IH]; intros H.
  - cbn in H. rewrite Hc in H. discriminate.
  - change (String x pre ++ "/in/" ++ String c rest)
      with (String x (pre ++ "/in/" ++ String c rest)) in H.
    cbn [regex_match] in H.
    destruct (match_here (String x (pre ++ "/in/" ++ String c rest))); [discriminate|].
    exact (IH H).
Qed.

Lemma regex_match_truthy (s g : string) :
  regex_match s = Some g -> truthy g = true.
Proof.
  induction s as [|c s IH]; intros H; [discriminate|].
  cbn [regex_match] in H.
  destruct (match_here (String c s)) as [g'|] eqn:Hm; [|exact (IH H)].
  injection H as ->. unfold match_here in Hm.
  destruct (stripPrefix "/in/" (String c s)) as [r|]; [|discriminate].
  destruct (take_seg r); [discriminate|]. now injection Hm as <-.
Qed.

(** ** Reasoning about computations *)

Lemma urls_seen_app (a b : list Event) :
  urls_seen (a ++ b)%list = (urls_seen a ++ urls_seen b)%list.
Proof.
  induction a as [|ev a IH]; [reflexivity|].
  destruct ev as [c|c|ms|m]; simpl; try exact IH.
  destruct m; simpl; rewrite ?IH; reflexivity.
Qed.

Lemma frame_refl (w : World) : frame w w.
Proof. split; [reflexivity | now exists []]. Qed.

Lemma frame_trans (w1 w2 w3 : World) :
  frame w1 w2 -> frame w2 w3 -> frame w1 w3.
Proof.
  intros [Hp (e1 & H1 & Hs1)] [Hq (e2 & H2 & Hs2)]. split; [congruence|].
  exists (e2 ++ e1)%list. split.
  - rewrite H2, H1. now rewrite app_assoc.
  - rewrite urls_seen_app, Hs1, Hs2. reflexivity.
Qed.

Lemma frame_push (ev : Event) (w : World) :
  urls_seen [ev] = [] -> frame w (push ev w).
Proof. intros H. split; [reflexivity | now exists [ev]]. Qed.

Lemma frame_elapse (E : Env) (ms : Z) (w : World) : frame w (elapse E ms w).
Proof. split; [reflexivity | now exists []]. Qed.

Section Tame.

Variable E : Env.
Context {A B : Type}.

Lemma tame_ret (a : A) : tame (ret a).
Proof. intros w. split; [discriminate | apply frame_refl]. Qed.

Lemma tame_throw (e : Err) : tame (@throw A e).
Proof. intros w. split; [discriminate | apply frame_refl]. Qed.

Lemma tame_bind (m : M A) (k : A -> M B) :
  tame m -> (forall a, tame (k a)) -> tame (bind m k).
Proof.
  intros Hm Hk w. unfold bind. destruct (Hm w) as [Hd Hf].
  destruct (m w) as [[a|e|] w1]; simpl in *.
  - destruct (Hk a w1) as [Hd' Hf']. split; [exact Hd' | exact (frame_trans _ _ _ Hf Hf')].
  - split; [discriminate | exact Hf].
  - contradiction.
Qed.

Lemma tame_try (m : M A) (h : Err -> M A) :
  tame m -> (forall e, tame (h e)) -> tame (try_catch m h).
Proof.
  intros Hm Hh w. unfold try_catch. destruct (Hm w) as [Hd Hf].
  destruct (m w) as [[a|e|] w1]; simpl in *.
  - split; [discriminate | exact Hf].
  - destruct (Hh e w1) as [Hd' Hf']. split; [exact Hd' | exact (frame_trans _ _ _ Hf Hf')].
  - contradiction.
Qed.

Lemma tame_drv (c : DrvCall) (answer : World -> A) : tame (drv E c answer).
Proof.
  intros w. unfold drv.
  assert (frame w (push (Drv c) (elapse E 0 w)))
    by (eapply frame_trans; [apply frame_elapse | now apply frame_push]).
  destruct (drv_fault E c w); simpl; (split; [discriminate | assumption]).
Qed.

Lemma tame_fs_read (c : FsCall) (answer : World -> option A) :
  tame (fs_read E c answer).
Proof.
  intros w. unfold fs_read.
  destruct (fs_fault E c w); [|destruct (answer w)]; simpl;
    (split; [discriminate | apply frame_refl]).
Qed.

Lemma safe_ret (a : A) : safe (ret a).
Proof. intros w. now exists a. Qed.

Lemma safe_bind (m : M A) (k : A -> M B) :
  safe m -> (forall a, safe (k a)) -> safe (bind m k).
Proof.
  intros Hm Hk w. unfold bind. destruct (Hm w) as [a Ha].
  destruct (m w) as [r w1]; simpl in Ha; subst r. apply Hk.
Qed.

Lemma safe_try (m : M A) (h : Err -> M A) :
  tame m -> (forall e, safe (h e)) -> safe (try_catch m h).
Proof.
  intros Hm Hh w. unfold try_catch. destruct (Hm w) as [Hd _].
  destruct (m w) as [[a|e|] w1]; simpl in *.
  - now exists a.
  - apply Hh.
  - contradiction.
Qed.

End Tame.

Lemma tame_console (m : Msg) : urls_seen [Log m] = [] -> tame (console m).
Proof. intros H w. split; [discriminate | now apply frame_push]. Qed.

Lemma safe_console (m : Msg) : safe (console m).
Proof. intros w. now exists tt. Qed.

Lemma tame_sleep (E : Env) (ms : Z) : tame (sleep E ms).
Proof.
  intros w. split; [discriminate|]. unfold sleep; simpl.
  eapply frame_trans; [apply frame_elapse | now apply frame_push].
Qed.

Lemma safe_sleep (E : Env) (ms : Z) : safe (sleep E ms).
Proof. intros w. now exists tt. Qed.

Lemma tame_dateNow : tame dateNow.
Proof. intros w. split; [discriminate | apply frame_refl]. Qed.

Lemma tame_fs_write (E : Env) (c : FsCall) (effect : World -> option World) :
  (forall w w', effect w = Some w' ->
                profilesFile w' = profilesFile w /\ trace w' = trace w) ->
  tame (fs_write E c effect).
Proof.
  intros He w. unfold fs_write.
  assert (Hp : frame w (push (Fs c) w)) by now apply frame_push.
  destruct (fs_fault E c w); [simpl; split; [discriminate | exact Hp]|].
  destruct (effect (push (Fs c) w)) as [w'|] eqn:Hw; simpl;
    (split; [discriminate|]); [|exact Hp].
  destruct (He _ _ Hw) as [H1 H2].
  eapply frame_trans; [exact Hp|]. split; [exact H1 | now exists []].
Qed.

Lemma tame_forEach {A} (l : list A) (f : A -> M unit) :
  (forall x, tame (f x)) -> tame (forEach l f).
Proof.
  intros Hf. induction l as [|x l IH]; simpl.
  - apply tame_ret.
  - apply tame_bind; [apply Hf | intros _; exact IH].
Qed.

Lemma tame_mapM {A B} (f : A -> M B) (l : list A) :
  (forall x, tame (f x)) -> tame (mapM f l).
Proof.
  intros Hf. induction l as [|x l IH]; simpl.
  - apply tame_ret.
  - apply tame_bind; [apply Hf | intros y].
    apply tame_bind; [exact IH | intros ys; apply tame_ret].
Qed.

(** One step of the proof that a computation is tame: follow its
    syntax, splitting on what it inspects. *)
Ltac tame_step :=
  match goal with
  | |- tame (bind _ _) => apply tame_bind; [|intro]
  | |- tame (try_catch _ _) => apply tame_try; [|intro]
  | |- tame (ret _) => apply tame_ret
  | |- tame (throw _) => apply tame_throw
  | |- tame (console _) => apply tame_console; reflexivity
  | |- tame (sleep _ _) => apply tame_sleep
  | |- tame dateNow => apply tame_dateNow
  | |- tame (drv _ _ _) => apply tame_drv
  | |- tame (drv_unit _ _) => apply tame_drv
  | |- tame (fs_read _ _ _) => apply tame_fs_read
  | |- tame (forEach _ _) => apply tame_forEach; intro
  | |- tame (mapM _ _) => apply tame_mapM; intro
  | |- tame (match ?x with _ => _ end) => destruct x
  | |- tame _ => assumption
  end.

Ltac tame := repeat tame_step.

Section TameProgram.

Variable E : Env.

Lemma tame_drv_element (c : DrvCall) : tame (drv_element E c).
Proof. unfold drv_element. tame. Qed.

Lemma tame_waitUrl (ms : Z) : tame (waitUrl E ms).
Proof. unfold waitUrl. tame. Qed.

Lemma tame_readFile (p : Path) : tame (readFile E p).
Proof. apply tame_fs_read. Qed.

Lemma tame_readdir (p : Path) : tame (readdir E p).
Proof. apply tame_fs_read. Qed.

Lemma tame_stat_mtime (p : Path) : tame (stat_mtime E p).
Proof. apply tame_fs_read. Qed.

Lemma tame_access (p : Path) : tame (access E p).
Proof. apply tame_fs_read. Qed.

Lemma tame_writeFile (p : Path) (data : string) : tame (writeFile E p data).
Proof.
  apply tame_fs_write. intros w w' H.
  destruct p; try discriminate. injection H as <-. now split.
Qed.

Lemma tame_mkdir (p : Path) : tame (mkdir E p).
Proof.
  apply tame_fs_write. intros w w' H.
  destruct p; try discriminate. injection H as <-.
  destruct (folder w); now split.
Qed.

Lemma tame_rename (src dst : Path) : tame (rename E src dst).
Proof.
  apply tame_fs_write. intros w w' H.
  destruct src; try discriminate. destruct dst; try discriminate.
  destruct (folder w); try discriminate.
  destruct (lookup _ _); try discriminate. injection H as <-. now split.
Qed.

End TameProgram.

Section Reads.

Context {A B : Type}.

Lemma reads_ret (a : A) : reads (ret a).
Proof. now intros w. Qed.

Lemma reads_throw (e : Err) : reads (@throw A e).
Proof. now intros w. Qed.

Lemma reads_bind (m : M A) (k : A -> M B) :
  reads m -> (forall a, reads (k a)) -> reads (bind m k).
Proof.
  intros Hm Hk w. unfold bind. specialize (Hm w).
  destruct (m w) as [[a|e|] w1]; simpl in *; subst; [apply Hk | reflexivity..].
Qed.

Lemma reads_try (m : M A) (h : Err -> M A) :
  reads m -> (forall e, reads (h e)) -> reads (try_catch m h).
Proof.
  intros Hm Hh w. unfold try_catch. specialize (Hm w).
  destruct (m w) as [[a|e|] w1]; simpl in *; subst; [reflexivity | apply Hh | reflexivity].
Qed.

Lemma reads_fs_read (E : Env) (c : FsCall) (answer : World -> option A) :
  reads (fs_read E c answer).
Proof.
  intros w. unfold fs_read.
  destruct (fs_fault E c w); [|destruct (answer w)]; reflexivity.
Qed.

End Reads.

Lemma reads_mapM {A B} (f : A -> M B) (l : list A) :
  (forall x, reads (f x)) -> reads (mapM f l).
Proof.
  intros Hf. induction l as [|x l IH]; simpl.
  - apply reads_ret.
  - apply reads_bind; [apply Hf | intros y].
    apply reads_bind; [exact IH | intros ys; apply reads_ret].
Qed.

Section Download.

Variable E : Env.

Lemma tame_statAll (pdfFiles : list string) : tame (statAll E pdfFiles).
Proof. unfold statAll. tame. apply tame_stat_mtime. Qed.

Lemma reads_statAll (pdfFiles : list string) : reads (statAll E pdfFiles).
Proof.
  unfold statAll. apply reads_mapM. intros f.
  apply reads_bind; [apply reads_fs_read | intros t; apply reads_ret].
Qed.

Lemma tame_pollDownload : tame (pollDownload E).
Proof. unfold pollDownload. tame; [apply tame_readdir | apply tame_statAll]. Qed.

Lemma reads_pollDownload : reads (pollDownload E).
Proof.
  unfold pollDownload. apply reads_try; [|intros e; apply reads_ret].
  apply reads_bind; [apply reads_fs_read | intros files].
  destruct (0 <? _)%nat; [|apply reads_ret].
  apply reads_bind; [apply reads_statAll | intros stats].
  destruct (sortStats stats); [apply reads_throw | apply reads_ret].
Qed.

Lemma safe_pollDownload : safe (pollDownload E).
Proof.
  unfold pollDownload. apply safe_try; [|intros e; exact (safe_ret _)].
  tame; [apply tame_readdir | apply tame_statAll].
Qed.

(** One round of the loop, unfolded. *)
Lemma waitLoop_round (fuel : nat) (timeout startTime : Z) (w : World) :
  now w - startTime < timeout ->
  waitLoop E (S fuel) timeout startTime w =
  match fst (pollDownload E w) with
  | Ok (Some f) => (Ok (Some f), w)
  | Ok None => waitLoop E fuel timeout startTime (idle E w)
  | Throw e => (Throw e, w)
  | Diverge => (Diverge, w)
  end.
Proof.
  intros H. cbn [waitLoop]. apply Z.ltb_lt in H. rewrite H.
  unfold bind at 1. pose proof (reads_pollDownload w) as Hw.
  destruct (pollDownload E w) as [[[f|]|e|] w1]; simpl in *; subst; reflexivity.
Qed.

Lemma waitLoop_done (fuel : nat) (timeout startTime : Z) (w : World) :
  timeout <= now w - startTime ->
  waitLoop E fuel timeout startTime w = (Ok None, w).
Proof.
  intros H. apply Z.ltb_ge in H.
  destruct fuel; cbn [waitLoop]; rewrite H; reflexivity.
Qed.

Lemma now_idle (w : World) : now w + 500 <= now (idle E w).
Proof. unfold idle, sleep, elapse; simpl. lia. Qed.

Lemma frame_idle (w : World) : frame w (idle E w).
Proof. exact (proj2 (tame_sleep E 500 w)). Qed.

(** With a round of fuel for every 500 ms left, the loop returns:
    the fuel does not run out and nothing is thrown. *)
Lemma waitLoop_ends (fuel : nat) (timeout startTime : Z) (w : World) :
  timeout - (now w - startTime) <= 500 * Z.of_nat fuel ->
  (exists r, fst (waitLoop E fuel timeout startTime w) = Ok r) /\
  frame w (snd (waitLoop E fuel timeout startTime w)).
Proof.
  revert w; induction fuel as [|fuel IH]; intros w Hfuel.
  - rewrite waitLoop_done by lia. split; [now exists None | apply frame_refl].
  - destruct (Z.lt_ge_cases (now w - startTime) timeout) as [Hlt|Hge].
    + rewrite (waitLoop_round _ _ _ _ Hlt).
      destruct (safe_pollDownload w) as [r Hr]. rewrite Hr.
      destruct r as [f|].
      * split; [now exists (Some f) | apply frame_refl].
      * pose proof (now_idle w).
        destruct (IH (idle E w)) as [Hd Hf]; [lia|].
        split; [exact Hd | exact (frame_trans _ _ _ (frame_idle w) Hf)].
    + rewrite waitLoop_done by lia. split; [now exists None | apply frame_refl].
Qed.

Lemma fuel_enough (timeout : Z) :
  timeout <= 500 * Z.of_nat (Z.to_nat (timeout / 500) + 1).
Proof.
  destruct (Z.lt_ge_cases timeout 0) as [Hneg|Hpos]; [lia|].
  pose proof (Z.div_pos timeout 500 Hpos ltac:(lia)).
  pose proof (Z.mod_pos_bound timeout 500 ltac:(lia)).
  pose proof (Z.div_mod timeout 500 ltac:(lia)).
  rewrite Nat2Z.inj_add, Z2Nat.id by lia. lia.
Qed.

Lemma waitForDownload_unfold (timeout : Z) (w : World) :
  waitForDownload E timeout w =
  waitLoop E (Z.to_nat (timeout / 500) + 1) timeout (now w) w.
Proof. reflexivity. Qed.

(** waitForDownload returns, for every timeout and in every world. *)
Lemma waitForDownload_returns (timeout : Z) : safe (waitForDownload E timeout).
Proof.
  intros w. rewrite waitForDownload_unfold. apply waitLoop_ends.
  pose proof (fuel_enough timeout). lia.
Qed.

Lemma tame_waitForDownload (timeout : Z) : tame (waitForDownload E timeout).
Proof.
  intros w. split.
  - destruct (waitForDownload_returns timeout w) as [r ->]. discriminate.
  - rewrite waitForDownload_unfold. apply waitLoop_ends.
    pose proof (fuel_enough timeout). lia.
Qed.

Lemma tame_moveIntoPlace (profileId : string) (mostRecentPdf : PdfStat) :
  tame (moveIntoPlace E profileId mostRecentPdf).
Proof.
  unfold moveIntoPlace. tame; solve [apply tame_access | apply tame_rename].
Qed.

Lemma tame_renameDownloadedPdf (profileId : string) :
  tame (renameDownloadedPdf E profileId).
Proof.
  unfold renameDownloadedPdf. tame;
    solve [apply tame_readdir | apply tame_statAll | apply tame_moveIntoPlace].
Qed.

Lemma safe_renameDownloadedPdf (profileId : string) :
  safe (renameDownloadedPdf E profileId).
Proof.
  unfold renameDownloadedPdf. apply safe_try.
  - tame; solve [apply tame_readdir | apply tame_statAll | apply tame_moveIntoPlace].
  - intros e. apply safe_bind; [apply safe_console | intros _; exact (safe_ret _)].
Qed.

Lemma tame_claimDownload (profileId : string) (downloadedFile : option string) :
  tame (claimDownload E profileId downloadedFile).
Proof. unfold claimDownload. tame. apply tame_renameDownloadedPdf. Qed.

Lemma tame_savePdf (e : Elem) (profileId : string) : tame (savePdf E e profileId).
Proof.
  unfold savePdf. tame;
    solve [apply tame_drv_element | apply tame_waitForDownload | apply tame_claimDownload].
Qed.

Lemma tame_savePdfAlternative (profileId : string) :
  tame (savePdfAlternative E profileId).
Proof.
  unfold savePdfAlternative. tame;
    solve [apply tame_drv_element | apply tame_waitForDownload | apply tame_renameDownloadedPdf].
Qed.

End Download.

(** ** The loop over the targets *)

Lemma run_unit (m : M unit) (w : World) :
  safe m -> tame m -> exists w', m w = (Ok tt, w') /\ frame w w'.
Proof.
  intros Hs Ht. destruct (Hs w) as [[] Ha]. destruct (Ht w) as [_ Hf].
  exists (snd (m w)). split; [|exact Hf].
  destruct (m w) as [r w']; simpl in *. now subst r.
Qed.

Section Loop.

Variable E : Env.
Variable driver : Driver.

Lemma tame_exportProfile (url profileId : string) : tame (exportProfile E url profileId).
Proof.
  unfold exportProfile. tame;
    solve [apply tame_savePdf | apply tame_savePdfAlternative].
Qed.

Lemma safe_exportProfile (url profileId : string) : safe (exportProfile E url profileId).
Proof.
  unfold exportProfile. apply safe_try; [|intros e; apply safe_console].
  tame; solve [apply tame_savePdf | apply tame_savePdfAlternative].
Qed.

(** What one round of the loop does, whatever browser and file system
    answer: it returns, and it started on its URL unless that is blank. *)
Lemma processProfile_runs (i n : nat) (raw : string) (w : World) :
  exists w', processProfile E driver i n raw w = (Ok tt, w') /\
             profilesFile w' = profilesFile w /\
             exists evs, trace w' = (evs ++ trace w)%list /\
                         urls_seen evs = if truthy (trim raw) then [trim raw] else [].
Proof.
  unfold processProfile. destruct (truthy (trim raw)); cbn [negb].
  - destruct (extractProfileId (trim raw)) as [profileId|].
    + destruct (truthy profileId); cbn [negb].
      * change (exists w',
          exportProfile E (trim raw) profileId
            (push (Log (MUrl (trim raw)))
               (push (Log (MProcessing (i + 1) n profileId)) w)) = (Ok tt, w') /\
          profilesFile w' = profilesFile w /\
          exists evs, trace w' = (evs ++ trace w)%list /\ urls_seen evs = [trim raw]).
        destruct (run_unit _ (push (Log (MUrl (trim raw)))
                                (push (Log (MProcessing (i + 1) n profileId)) w))
                    (safe_exportProfile (trim raw) profileId)
                    (tame_exportProfile (trim raw) profileId))
          as (w' & Hrun & Hp & evs & Ht & Hs).
        exists w'. split; [exact Hrun|]. split; [exact Hp|].
        exists (evs ++ [Log (MUrl (trim raw)); Log (MProcessing (i + 1) n profileId)])%list.
        split.
        -- rewrite Ht. simpl. now rewrite <- app_assoc.
        -- rewrite urls_seen_app, Hs. reflexivity.
      * eexists. split; [reflexivity|]. split; [reflexivity|].
        now exists [Log (MCouldNotExtract (i + 1) n (trim raw))].
    + eexists. split; [reflexivity|]. split; [reflexivity|].
      now exists [Log (MCouldNotExtract (i + 1) n (trim raw))].
  - exists w. split; [reflexivity|]. split; [reflexivity|]. now exists [].
Qed.

Lemma try_bind_ok {A B} (m : M A) (k : A -> M B) (h : Err -> M B)
      (w : World) (a : A) (w' : World) :
  m w = (Ok a, w') -> try_catch (bind m k) h w = try_catch (k a) h w'.
Proof. intros H. unfold try_catch, bind. now rewrite H. Qed.

(** The first thing a round does for a target with an identifier is
    to send the browser to its URL. *)
Lemma exportProfile_navigates (url profileId : string) (w : World) :
  exists evs, trace (snd (exportProfile E url profileId w))
              = (evs ++ Drv (Get url) :: trace w)%list.
Proof.
  unfold exportProfile.
  set (w1 := push (Drv (Get url)) (elapse E 0 w)).
  destruct (drv_fault E (Get url) w) eqn:Hfault.
  - exists [Log (MErrorProcessing (DriverError (Get url)))].
    unfold try_catch, bind, drv_unit, drv. now rewrite Hfault.
  - assert (Hget : drv_unit E (Get url) w = (Ok tt, w1))
      by (unfold drv_unit, drv; now rewrite Hfault).
    rewrite (try_bind_ok _ _ _ _ _ _ Hget).
    match goal with
    | |- context [try_catch ?m ?h w1] =>
        assert (Ht : tame (try_catch m h))
          by (tame; solve [apply tame_savePdf | apply tame_savePdfAlternative]);
        destruct (Ht w1) as [_ [_ (evs & Hev & _)]]
    end.
    exists evs. now rewrite Hev.
Qed.

Lemma processProfile_navigates (i n : nat) (raw profileId : string) (w : World) :
  truthy (trim raw) = true ->
  extractProfileId (trim raw) = Some profileId -> truthy profileId = true ->
  exists evs,
    trace (snd (processProfile E driver i n raw w))
    = (evs ++ Drv (Get (trim raw)) :: Log (MUrl (trim raw))
           :: Log (MProcessing (i + 1) n profileId) :: trace w)%list.
Proof.
  intros Hurl Hid Hpid. unfold processProfile. rewrite Hurl, Hid, Hpid. cbn [negb].
  exact (exportProfile_navigates (trim raw) profileId
           (push (Log (MUrl (trim raw))) (push (Log (MProcessing (i + 1) n profileId)) w))).
Qed.

Lemma profilesLoop_cons (i n : nat) (raw : string) (rest : list string) (w : World) :
  exists w', processProfile E driver i n raw w = (Ok tt, w') /\
             profilesLoop E driver i n (raw :: rest) w =
             profilesLoop E driver (S i) n rest w'.
Proof.
  destruct (processProfile_runs i n raw w) as (w' & Hrun & _).
  exists w'. split; [exact Hrun|].
  cbn [profilesLoop]. unfold bind. now rewrite Hrun.
Qed.

(** The loop returns, and it started on every non-blank entry of the
    list, in the order of the list. *)
Lemma profilesLoop_runs (URLs : list string) (i n : nat) (w : World) :
  exists w', profilesLoop E driver i n URLs w = (Ok tt, w') /\
             profilesFile w' = profilesFile w /\
             exists evs, trace w' = (evs ++ trace w)%list /\
                         rev (urls_seen evs) = filter truthy (map trim URLs).
Proof.
  revert i w; induction URLs as [|raw rest IH]; intros i w.
  - exists w. split; [reflexivity|]. split; [reflexivity|]. now exists [].
  - destruct (processProfile_runs i n raw w) as (w1 & Hrun & Hp1 & e1 & Ht1 & Hs1).
    destruct (IH (S i) w1) as (w2 & Hloop & Hp2 & e2 & Ht2 & Hs2).
    exists w2. split; [|split; [congruence|]].
    + cbn [profilesLoop]. unfold bind. now rewrite Hrun.
    + exists (e2 ++ e1)%list. split.
      * rewrite Ht2, Ht1. now rewrite app_assoc.
      * rewrite urls_seen_app, rev_app_distr, Hs1, Hs2. cbn [map filter].
        destruct (truthy (trim raw)); reflexivity.
Qed.

Lemma tame_getProfileURLs : tame (getProfileURLs E).
Proof. unfold getProfileURLs. tame. apply tame_readFile. Qed.

Lemma safe_getProfileURLs : safe (getProfileURLs E).
Proof.
  unfold getProfileURLs. apply safe_try.
  - tame. apply tame_readFile.
  - intros e. apply safe_bind; [apply safe_console | intros _; exact (safe_ret _)].
Qed.

Lemma proccessProfiles_runs (w : World) :
  exists URLs w1 w',
    getProfileURLs E w = (Ok URLs, w1) /\
    proccessProfiles E driver w = (Ok tt, w') /\
    profilesFile w' = profilesFile w /\
    exists evs, trace w' = (evs ++ trace w)%list /\
                rev (urls_seen evs) = filter truthy (map trim URLs).
Proof.
  destruct (safe_getProfileURLs w) as [URLs HU].
  destruct (tame_getProfileURLs w) as [_ [Hp0 (e0 & Ht0 & Hs0)]].
  destruct (getProfileURLs E w) as [r w1] eqn:Hget; simpl in *; subst r.
  destruct (profilesLoop_runs URLs 0 (List.length URLs) w1)
    as (w' & Hloop & Hp & evs & Ht & Hs).
  exists URLs, w1, w'. split; [reflexivity|]. split; [|split; [congruence|]].
  - unfold proccessProfiles, bind. now rewrite Hget.
  - exists (evs ++ e0)%list. split.
    + rewrite Ht, Ht0. now rewrite app_assoc.
    + rewrite urls_seen_app, rev_app_distr, Hs0, Hs. reflexivity.
Qed.

End Loop.

(** ** Session and main *)

Section Session.

Variable E : Env.

Lemma tame_getDriver : tame (getDriver E).
Proof. unfold getDriver. tame. Qed.

Lemma safe_getDriver : safe (getDriver E).
Proof.
  unfold getDriver. apply safe_try; [tame|].
  intros e. apply safe_bind; [apply safe_console | intros _; exact (safe_ret _)].
Qed.

Lemma tame_loginToLinkedIn (driver : Driver) : tame (loginToLinkedIn E driver).
Proof.
  unfold loginToLinkedIn. tame;
    solve [apply tame_drv_element | apply tame_waitUrl | apply tame_writeFile].
Qed.

Lemma safe_loginToLinkedIn (driver : Driver) : safe (loginToLinkedIn E driver).
Proof.
  unfold loginToLinkedIn. apply safe_try.
  - tame; solve [apply tame_drv_element | apply tame_waitUrl | apply tame_writeFile].
  - intros e. apply safe_bind; [apply safe_console | intros _; exact (safe_ret _)].
Qed.

Lemma tame_addCookieOrWarn (entry : option Cookie) : tame (addCookieOrWarn E entry).
Proof. unfold addCookieOrWarn. tame. Qed.

Lemma tame_loadCookies (driver : Driver) : tame (loadCookies E driver).
Proof.
  unfold loadCookies. tame; solve [apply tame_readFile | apply tame_addCookieOrWarn].
Qed.

Lemma tame_loginWithSavedCookies (driver : Driver) :
  tame (loginWithSavedCookies E driver).
Proof.
  unfold loginWithSavedCookies. tame;
    solve [apply tame_loadCookies | apply tame_drv_element | apply tame_loginToLinkedIn].
Qed.

Lemma safe_loginWithSavedCookies (driver : Driver) :
  safe (loginWithSavedCookies E driver).
Proof.
  unfold loginWithSavedCookies. apply safe_try.
  - tame; solve [apply tame_loadCookies | apply tame_drv_element
                 | apply tame_loginToLinkedIn].
  - intros e. apply safe_bind; [apply safe_console | intros _; exact (safe_ret _)].
Qed.

Lemma tame_ensureDownloadFolder : tame (ensureDownloadFolder E).
Proof. unfold ensureDownloadFolder. tame. apply tame_mkdir. Qed.

Lemma safe_ensureDownloadFolder : safe (ensureDownloadFolder E).
Proof.
  unfold ensureDownloadFolder. apply safe_try; [|intros e; apply safe_console].
  tame. apply tame_mkdir.
Qed.

Lemma bind_ok {A B} (m : M A) (k : A -> M B) (w : World) (a : A) (w' : World) :
  m w = (Ok a, w') -> bind m k w = k a w'.
Proof. intros H. unfold bind. now rewrite H. Qed.

(** A computation that returns, with the world it leaves. *)
Lemma run_safe {A} (m : M A) (w : World) :
  safe m -> tame m -> exists a w', m w = (Ok a, w') /\ frame w w'.
Proof.
  intros Hs Ht. destruct (Hs w) as [a Ha]. destruct (Ht w) as [_ Hf].
  exists a, (snd (m w)). split; [|exact Hf].
  destruct (m w) as [r w']; simpl in *. now subst r.
Qed.


(** The course of main, stage by stage. *)
Lemma main_runs (w : World) :
  exists w1 od w2,
    ensureDownloadFolder E w = (Ok tt, w1) /\ frame w w1 /\
    getDriver E w1 = (Ok od, w2) /\ frame w1 w2 /\
    match od with
    | None => main E w = (Ok tt, push (Log MFailedToCreateDriver) w2)
    | Some driver =>
        exists isLogged w3,
          loginWithSavedCookies E driver w2 = (Ok isLogged, w3) /\ frame w2 w3 /\
          match isLogged with
          | Some true =>
              exists w4,
                proccessProfiles E driver (snd (sleep E 3000 w3)) = (Ok tt, w4) /\
                main E w = quitAfter E (push (Log MPdfsSavedIn) (push (Log MAllProcessed) w4))
          | _ => main E w = quitAfter E (push (Log MLoginFailed) w3)
          end
    end.
Proof.
  destruct (run_unit _ w safe_ensureDownloadFolder tame_ensureDownloadFolder)
    as (w1 & H1 & F1).
  destruct (run_safe _ w1 safe_getDriver tame_getDriver) as (od & w2 & H2 & F2).
  exists w1, od, w2. repeat (split; [assumption|]).
  assert (Hmain : main E w =
                  match od with
                  | None => console MFailedToCreateDriver w2
                  | Some driver =>
                      (isLogged <- loginWithSavedCookies E driver ;;
                       match isLogged with
                       | Some true =>
                           sleep E 3000 ;;;
                           proccessProfiles E driver ;;;
                           console MAllProcessed ;;;
                           console MPdfsSavedIn ;;;
                           sleep E 5000 ;;;
                           drv_unit E Quit
                       | _ =>
                           console MLoginFailed ;;;
                           sleep E 5000 ;;;
                           drv_unit E Quit
                       end) w2
                  end).
  { unfold main. rewrite (bind_ok _ _ _ _ _ H1), (bind_ok _ _ _ _ _ H2).
    now destruct od. }
  rewrite Hmain. clear Hmain.
  destruct od as [driver|]; [|reflexivity].
  destruct (run_safe _ w2 (safe_loginWithSavedCookies driver)
              (tame_loginWithSavedCookies driver)) as (isLogged & w3 & H3 & F3).
  exists isLogged, w3. repeat (split; [assumption|]).
  rewrite (bind_ok _ _ _ _ _ H3).
  destruct isLogged as [[|]|]; try reflexivity.
  destruct (proccessProfiles_runs E driver (snd (sleep E 3000 w3)))
    as (URLs & w' & w4 & _ & H4 & _).
  exists w4. split; [exact H4|].
  rewrite (bind_ok _ _ _ _ (snd (sleep E 3000 w3)) (eq_refl : sleep E 3000 w3 = (Ok tt, _))).
  now rewrite (bind_ok _ _ _ _ _ H4).
Qed.

End Session.

(** * The claims *)

(** ** C6, C7: identifier extraction *)

(** C6. For every URL that reads [pre ++ "/in/" ++ seg ++ rest], where
    this [/in/] is the first of the URL, [seg] is a non-empty run of
    code units other than slash and question mark, and [rest] is empty
    or starts with a slash or a question mark, extractProfileId returns
    exactly [seg]: the prefix up to [/in/] and the trailing slash are
    stripped.  Being a function of the URL alone, it is deterministic. *)
Theorem C6_extractProfileId_canonical (pre seg rest : string) :
  includes "/in/" (pre ++ "/in") = false ->
  seg <> "" -> all_seg seg = true -> ends_segment rest = true ->
  extractProfileId (pre ++ "/in/" ++ seg ++ rest) = Some seg.
Proof. apply extractProfileId_segment. Qed.

Lemma C6_witness :
  extractProfileId ("https://service.example" ++ "/in/" ++ "jane-smith" ++ "/")
  = Some "jane-smith".
Proof.
  apply (C6_extractProfileId_canonical "https://service.example" "jane-smith" "/").
  - reflexivity.
  - discriminate.
  - reflexivity.
  - reflexivity.
Defined.

(** The two examples of the specification. *)
Example extractProfileId_jane :
  extractProfileId "https://service.example/in/jane-smith/" = Some "jane-smith".
Proof. reflexivity. Qed.

Example extractProfileId_john :
  extractProfileId "https://service.example/in/john-doe-123456" = Some "john-doe-123456".
Proof. reflexivity. Qed.

(** C7 fails as stated: a URL whose path has no [/in/] segment but
    whose query holds one is given an identifier, read from the
    query. *)
Lemma C7_counterexample :
  ~ has_in_segment
      (before_query "https://www.linkedin.com/company/acme/?next=/in/bob") /\
  extractProfileId "https://www.linkedin.com/company/acme/?next=/in/bob" = Some "bob".
Proof.
  split; [|reflexivity]. apply regex_match_None. reflexivity.
Qed.

(** C7 (amended).  extractProfileId is a total function, so nothing
    is thrown, and it returns [null] exactly for the strings in which
    [/in/] followed by a code unit other than a slash and a question
    mark occurs nowhere: not in the path, and not in the query or the
    fragment either. *)
Theorem C7_null_exactly_without_match (url : string) :
  extractProfileId url = None <-> ~ has_in_segment url.
Proof.
  unfold extractProfileId. split.
  - intros H. apply regex_match_None.
    destruct (regex_match url) as [g|] eqn:Hm; [|reflexivity].
    now rewrite (regex_match_truthy _ _ Hm) in H.
  - intros H. destruct (regex_match url) as [g|] eqn:Hm; [|reflexivity].
    exfalso. exact (H (regex_match_Some _ _ Hm)).
Qed.

Example extractProfileId_other_page :
  extractProfileId "https://service.example/company/acme/" = None.
Proof. reflexivity. Qed.

(** ** C2: one bad target never stops the batch *)

(** C2. Whatever the browser and the file system answer (errors
    included), every round of the loop of proccessProfiles returns
    normally and the loop goes on with the rest of the list; a round
    for a target with an identifier sends the browser to its URL; so
    the loop as a whole returns, having started, in order, on every
    non-blank entry of the list, and so does proccessProfiles on the
    list that getProfileURLs gave it. *)
Theorem C2_bad_target_never_stops_batch (E : Env) (driver : Driver) :
  (forall i n raw rest w,
      exists w1, processProfile E driver i n raw w = (Ok tt, w1) /\
                 profilesLoop E driver i n (raw :: rest) w =
                 profilesLoop E driver (S i) n rest w1) /\
  (forall i n raw profileId w,
      truthy (trim raw) = true ->
      extractProfileId (trim raw) = Some profileId -> truthy profileId = true ->
      exists evs,
        trace (snd (processProfile E driver i n raw w))
        = (evs ++ Drv (Get (trim raw)) :: Log (MUrl (trim raw))
               :: Log (MProcessing (i + 1) n profileId) :: trace w)%list) /\
  (forall URLs i n w,
      exists w', profilesLoop E driver i n URLs w = (Ok tt, w') /\
                 exists evs, trace w' = (evs ++ trace w)%list /\
                             rev (urls_seen evs) = filter truthy (map trim URLs)) /\
  (forall w,
      exists URLs w1 w',
        getProfileURLs E w = (Ok URLs, w1) /\
        proccessProfiles E driver w = (Ok tt, w') /\
        exists evs, trace w' = (evs ++ trace w)%list /\
                    rev (urls_seen evs) = filter truthy (map trim URLs)).
Proof.
  split; [|split; [|split]].
  - intros i n raw rest w. apply profilesLoop_cons.
  - intros i n raw profileId w. apply processProfile_navigates.
  - intros URLs i n w.
    destruct (profilesLoop_runs E driver URLs i n w) as (w' & H & _ & Hev).
    exists w'. split; assumption.
  - intros w.
    destruct (proccessProfiles_runs E driver w) as (URLs & w1 & w' & H1 & H2 & _ & Hev).
    exists URLs, w1, w'. repeat split; assumption.
Qed.

(** Three targets, the second without an identifier, and a browser
    that rejects every call: the loop still gets to all three. *)
Example hostile_batch :
  let w' := snd (profilesLoop hostile_env ChromeDriver 0 3
                   ["https://www.linkedin.com/in/jane-smith/";
                    "https://www.linkedin.com/company/acme/";
                    "https://www.linkedin.com/in/john-doe-123456"] first_run) in
  rev (urls_seen (trace w')) =
  ["https://www.linkedin.com/in/jane-smith/";
   "https://www.linkedin.com/company/acme/";
   "https://www.linkedin.com/in/john-doe-123456"] /\
  In (Drv (Get "https://www.linkedin.com/in/john-doe-123456")) (trace w').
Proof. vm_compute. tauto. Qed.

(** ** C9: the browser is always closed *)

Lemma quitAfter_quits (E : Env) (w : World) :
  (fst (quitAfter E w) = Ok tt \/ fst (quitAfter E w) = Throw (DriverError Quit)) /\
  trace (snd (quitAfter E w)) = Drv Quit :: Slept 5000 :: trace w.
Proof.
  unfold quitAfter, drv_unit, drv, sleep. cbn [snd].
  destruct (drv_fault E Quit _); cbn; auto.
Qed.

(** C9. Whenever getDriver gave main a browser session, main ends
    (it returns, or the quit itself is rejected) and the last thing it
    did is [driver.quit()], whether the login succeeded or not and
    whatever happened to the targets. *)
Theorem C9_browser_always_closed (E : Env) (w : World) :
  fst (getDriver E (snd (ensureDownloadFolder E w))) = Ok (Some ChromeDriver) ->
  (fst (main E w) = Ok tt \/ fst (main E w) = Throw (DriverError Quit)) /\
  exists evs, trace (snd (main E w)) = Drv Quit :: evs.
Proof.
  intros Hdrv.
  destruct (main_runs E w) as (w1 & od & w2 & H1 & _ & H2 & _ & Hrest).
  rewrite H1 in Hdrv. cbn [snd] in Hdrv. rewrite H2 in Hdrv. cbn [fst] in Hdrv.
  injection Hdrv as ->.
  destruct Hrest as (isLogged & w3 & _ & _ & Hrest).
  destruct isLogged as [[|]|];
    [destruct Hrest as (w4 & _ & ->) | rewrite Hrest ..];
    (split; [apply quitAfter_quits | eexists; apply quitAfter_quits]).
Qed.

Lemma C9_witness :
  (fst (main first_run_env first_run) = Ok tt \/
   fst (main first_run_env first_run) = Throw (DriverError Quit)) /\
  exists evs, trace (snd (main first_run_env first_run)) = Drv Quit :: evs.
Proof.
  apply C9_browser_always_closed. vm_compute. reflexivity.
Defined.

(** ** C10: an unreadable or empty target list *)

Lemma getProfileURLs_empty (E : Env) (w : World) :
  targets_empty w ->
  exists m, urls_seen [Log m] = [] /\
            getProfileURLs E w = (Ok [], push (Log m) w).
Proof.
  intros H. unfold getProfileURLs, try_catch, bind, readFile, fs_read.
  destruct (fs_fault E (ReadFile profileURLsPath) w).
  - eexists. split; [|reflexivity]. reflexivity.
  - destruct H as [H | (c & H & Hc)]; rewrite H.
    + eexists. split; [|reflexivity]. reflexivity.
    + rewrite Hc. eexists. split; [|reflexivity]. reflexivity.
Qed.

Lemma proccessProfiles_empty (E : Env) (driver : Driver) (w : World) :
  targets_empty w ->
  exists m, urls_seen [Log m] = [] /\
            proccessProfiles E driver w = (Ok tt, push (Log m) w).
Proof.
  intros H. destruct (getProfileURLs_empty E w H) as (m & Hm & Hget).
  exists m. split; [exact Hm|].
  unfold proccessProfiles. now rewrite (bind_ok _ _ _ _ _ Hget).
Qed.

Lemma targets_empty_frame (w w' : World) :
  frame w w' -> targets_empty w -> targets_empty w'.
Proof. intros [Hp _] H. unfold targets_empty in *. now rewrite Hp. Qed.

Lemma frame_quitAfter (E : Env) (w : World) : frame w (snd (quitAfter E w)).
Proof.
  split.
  - unfold quitAfter, drv_unit, drv, sleep. cbn [snd].
    destruct (drv_fault E Quit _); reflexivity.
  - exists [Drv Quit; Slept 5000]. split; [apply quitAfter_quits | reflexivity].
Qed.

(** C10. When the target list cannot be read (the file is absent) or
    holds nothing but white space, getProfileURLs returns the empty
    list without throwing, proccessProfiles returns at once having
    written one console line, and main as a whole ends without having
    started on any target. *)
Theorem C10_no_targets (E : Env) (driver : Driver) (w : World) :
  targets_empty w ->
  (exists m, getProfileURLs E w = (Ok [], push (Log m) w) /\
             proccessProfiles E driver w = (Ok tt, push (Log m) w)) /\
  fst (main E w) <> Diverge /\
  exists evs, trace (snd (main E w)) = (evs ++ trace w)%list /\ urls_seen evs = [].
Proof.
  intros H. split; [|].
  - destruct (getProfileURLs_empty E w H) as (m & _ & Hget).
    exists m. split; [exact Hget|].
    unfold proccessProfiles. now rewrite (bind_ok _ _ _ _ _ Hget).
  - destruct (main_runs E w) as (w1 & od & w2 & _ & F1 & _ & F2 & Hrest).
    pose proof (frame_trans _ _ _ F1 F2) as F12.
    destruct od as [d|].
    + destruct Hrest as (isLogged & w3 & _ & F3 & Hrest).
      pose proof (frame_trans _ _ _ F12 F3) as F13.
      assert (Hend : forall w5, frame w w5 -> main E w = quitAfter E w5 ->
                fst (main E w) <> Diverge /\ frame w (snd (main E w))).
      { intros w5 F5 ->. split.
        - destruct (quitAfter_quits E w5) as [[Hq|Hq] _]; rewrite Hq; discriminate.
        - exact (frame_trans _ _ _ F5 (frame_quitAfter E w5)). }
      assert (Hgoal : fst (main E w) <> Diverge /\ frame w (snd (main E w))).
      { destruct isLogged as [[|]|].
        - destruct Hrest as (w4 & H4 & Hmain).
          pose proof (proj2 (tame_sleep E 3000 w3)) as Fs.
          pose proof (frame_trans _ _ _ F13 Fs) as F13'.
          destruct (proccessProfiles_empty E d _ (targets_empty_frame _ _ F13' H))
            as (m & Hm & Hp).
          rewrite Hp in H4. injection H4 as <-.
          apply (fun F => Hend _ F Hmain).
          eapply frame_trans; [exact F13'|].
          eapply frame_trans; [apply (frame_push _ _ Hm)|].
          eapply frame_trans; apply frame_push; reflexivity.
        - apply (fun F => Hend _ F Hrest).
          eapply frame_trans; [exact F13 | now apply frame_push].
        - apply (fun F => Hend _ F Hrest).
          eapply frame_trans; [exact F13 | now apply frame_push]. }
      destruct Hgoal as [Hd [_ Hev]]. split; assumption.
    + rewrite Hrest. split; [discriminate|]. cbn [snd].
      destruct (frame_trans _ _ _ F12
                  (frame_push (Log MFailedToCreateDriver) w2 eq_refl)) as [_ Hev].
      exact Hev.
Qed.

Lemma C10_witness :
  (exists m, getProfileURLs first_run_env blank_list = (Ok [], push (Log m) blank_list) /\
             proccessProfiles first_run_env ChromeDriver blank_list
             = (Ok tt, push (Log m) blank_list)) /\
  fst (main first_run_env blank_list) <> Diverge /\
  exists evs, trace (snd (main first_run_env blank_list))
              = (evs ++ trace blank_list)%list /\
              urls_seen evs = [].
Proof.
  apply C10_no_targets. right. exists "  ". split; reflexivity.
Defined.

(** ** C1: a session store that cannot be loaded *)

(** C1 (what the code does).  When the session store is absent or
    does not parse, loadCookies rethrows, the handler of
    loginWithSavedCookies logs the error and the function ends without
    a [return]: its result is [undefined], two console lines are all it
    did, and loginToLinkedIn was not called.  main takes that result
    for a failed login. *)
Theorem C1_unusable_store_ends_login (E : Env) (driver : Driver) (w : World) :
  store_unusable E w ->
  exists e, loginWithSavedCookies E driver w =
            (Ok None, push (Log (MError e)) (push (Log (MErrorLoadingCookies e)) w)).
Proof.
  intros H.
  unfold loginWithSavedCookies, loadCookies, try_catch, bind, readFile, fs_read.
  destruct (fs_fault E (ReadFile COOKIES_FILE) w).
  - now exists (FsError (ReadFile COOKIES_FILE)).
  - destruct H as [H | (c & H & Hc)]; rewrite H.
    + now exists (FsError (ReadFile COOKIES_FILE)).
    + rewrite Hc. now exists SyntaxError.
Qed.

Lemma C1_witness :
  exists e, loginWithSavedCookies first_run_env ChromeDriver first_run =
            (Ok None,
             push (Log (MError e)) (push (Log (MErrorLoadingCookies e)) first_run)).
Proof.
  apply C1_unusable_store_ends_login. left. reflexivity.
Defined.

(** The first run, with credentials in the environment and a browser
    that cooperates: no login page is opened, the run ends with
    [Login failed]. *)
Example first_run_never_logs_in :
  main first_run_env first_run =
  (Ok tt,
   mkWorld 1700000005000 (Some []) None
           (Some "https://www.linkedin.com/in/jane-smith/")
           [Drv Quit; Slept 5000; Log MLoginFailed;
            Log (MError (FsError (ReadFile COOKIES_FILE)));
            Log (MErrorLoadingCookies (FsError (ReadFile COOKIES_FILE)));
            Drv Build; Log MDownloadFolder; Fs (Mkdir DOWNLOAD_FOLDER)]).
Proof. vm_compute. reflexivity. Qed.

(** ** C3: credentials missing from the environment *)


(** The environment [E] with other credentials. *)
Lemma with_credentials_oracles (email password : option string) (E : Env) (w : World) :
  ensureDownloadFolder (with_credentials email password E) w = ensureDownloadFolder E w /\
  getDriver (with_credentials email password E) w = getDriver E w.
Proof. split; reflexivity. Qed.

(** The credentials reach loginWithSavedCookies through the call of
    loginToLinkedIn only, which follows the line [Not logged]. *)
Lemma loginWithSavedCookies_credentials
      (E : Env) (email password : option string) (driver : Driver) (w : World) :
  loginWithSavedCookies (with_credentials email password E) driver w =
  loginWithSavedCookies E driver w \/
  In (Log MNotLogged) (trace (snd (loginWithSavedCookies E driver w))).
Proof.
  unfold loginWithSavedCookies.
  change (loadCookies (with_credentials email password E)) with (loadCookies E).
  change (drv_unit (with_credentials email password E)) with (drv_unit E).
  change (drv_element (with_credentials email password E)) with (drv_element E).
  set (probe := try_catch (e <- drv_element E (WaitLocated (ById "username") 10000) ;;
                            ret (Some e))
                           (fun _ => console MLoginInputNotFound ;;; ret None)).
  set (login := fun E0 : Env =>
                  success <- loginToLinkedIn E0 driver ;;
                  if negb success
                  then console MLoginFailed ;;; ret (Some false)
                  else console MLoginSuccessful ;;; ret (Some true)).
  change (success <- loginToLinkedIn (with_credentials email password E) driver ;;
          if negb success
          then console MLoginFailed ;;; ret (Some false)
          else console MLoginSuccessful ;;; ret (Some true))
    with (login (with_credentials email password E)).
  change (success <- loginToLinkedIn E driver ;;
          if negb success
          then console MLoginFailed ;;; ret (Some false)
          else console MLoginSuccessful ;;; ret (Some true))
    with (login E).
  assert (T : tame (login E)).
  { unfold login. tame. apply tame_loginToLinkedIn. }
  unfold try_catch, bind.
  destruct (loadCookies E driver w) as [[[]|e|] w1]; try (now left).
  destruct (drv_unit E (Get "https://www.linkedin.com/feed/") w1) as [[[]|e|] w2];
    try (now left).
  destruct (console MTryingSavedCookies w2) as [[[]|e|] w3] eqn:H3; try (now left).
  destruct (probe w3) as [[[el|]|e|] w4]; try (now left).
  right.
  change (console MNotLogged w4) with (Ok tt, push (Log MNotLogged) w4).
  cbv beta iota.
  destruct (T (push (Log MNotLogged) w4)) as [Hend F].
  destruct (login E (push (Log MNotLogged) w4)) as [[r|e|] w5];
    cbn [snd] in *; cbn [fst] in Hend.
  - destruct F as [_ (evs & -> & _)]. apply in_or_app. right. now left.
  - cbn [console push bind ret snd trace]. right.
    destruct F as [_ (evs & -> & _)]. apply in_or_app. right. now left.
  - now exfalso.
Qed.

(** A run in which the login form never showed is the same run
    whatever the credentials are. *)
Lemma main_credentials (E : Env) (email password : option string) (w : World) :
  ~ In (Log MNotLogged) (trace (snd (main E w))) ->
  main (with_credentials email password E) w = main E w.
Proof.
  intros Hno. set (E' := with_credentials email password E).
  destruct (main_runs E w) as (w1 & od & w2 & H1 & _ & H2 & _ & Hrest).
  destruct (main_runs E' w) as (w1' & od' & w2' & H1' & _ & H2' & _ & Hrest').
  change (ensureDownloadFolder E' w) with (ensureDownloadFolder E w) in H1'.
  rewrite H1 in H1'. injection H1' as <-.
  change (getDriver E' w1) with (getDriver E w1) in H2'.
  rewrite H2 in H2'. injection H2' as <- <-.
  destruct od as [d|]; [|now rewrite Hrest, Hrest'].
  destruct Hrest as (r & w3 & H3 & _ & Hrest).
  destruct Hrest' as (r' & w3' & H3' & _ & Hrest').
  assert (Hin : In (Log MNotLogged) (trace w3) -> False).
  { intros Hin. apply Hno.
    assert (Hq : forall w5, In (Log MNotLogged) (trace w5) ->
                            In (Log MNotLogged) (trace (snd (quitAfter E w5)))).
    { intros w5 H5. destruct (quitAfter_quits E w5) as [_ ->]. now do 2 right. }
    destruct r as [[|]|].
    - destruct Hrest as (w4 & H4 & ->). apply Hq. cbn [push trace]. do 2 right.
      destruct (proccessProfiles_runs E d (snd (sleep E 3000 w3)))
        as (URLs & w1' & w4' & _ & H4' & _ & evs & Hev & _).
      rewrite H4' in H4. injection H4 as ->. rewrite Hev.
      apply in_or_app. right. cbn [sleep snd push trace elapse]. now right.
    - rewrite Hrest. apply Hq. now right.
    - rewrite Hrest. apply Hq. now right. }
  destruct (loginWithSavedCookies_credentials E email password d w2) as [Heq|Hin'].
  - fold E' in Heq. rewrite Heq, H3 in H3'. injection H3' as <- <-.
    destruct r as [[|]|]; try (now rewrite Hrest, Hrest').
    destruct Hrest as (w4 & H4 & ->). destruct Hrest' as (w4' & H4' & ->).
    change (proccessProfiles E' d (snd (sleep E' 3000 w3)))
      with (proccessProfiles E d (snd (sleep E 3000 w3))) in H4'.
    rewrite H4 in H4'. now injection H4' as <-.
  - rewrite H3 in Hin'. now exfalso.
Qed.



(** The run of the stored session that is still valid, with no
    credentials and with both. *)
Example later_run_with_credentials :
  ~ In (Log MNotLogged) (trace (snd (main no_credentials_env later_run))) /\
  main (with_credentials (Some "user@example.com") (Some "secret") no_credentials_env)
       later_run =
  main no_credentials_env later_run.
Proof.
  assert (H : ~ In (Log MNotLogged) (trace (snd (main no_credentials_env later_run)))).
  { vm_compute. intuition discriminate. }
  split; [exact H|]. now apply main_credentials.
Qed.

(** ** C5: the most recent artifact is the one selected *)

Lemma insertStat_cons (x : PdfStat) (l : list PdfStat) : insertStat x l <> [].
Proof. destruct l; simpl; [|destruct (notAbove _)]; discriminate. Qed.

Lemma insertStat_perm (x : PdfStat) (l : list PdfStat) :
  Permutation (x :: l) (insertStat x l).
Proof.
  induction l as [|y l IH]; cbn [insertStat]; [reflexivity|].
  destruct (notAbove (compareStats x y)); [reflexivity|].
  rewrite perm_swap. now constructor.
Qed.

Lemma sortStats_perm (l : list PdfStat) : Permutation l (sortStats l).
Proof.
  induction l as [|x l IH]; cbn [sortStats]; [constructor|].
  rewrite <- insertStat_perm. now constructor.
Qed.

(** The sorted list of a list that is not empty has a head, an entry
    of the list. *)
Lemma sortStats_first (l : list PdfStat) :
  l <> [] -> exists first rest, sortStats l = first :: rest /\ In first l.
Proof.
  intros Hne. destruct (sortStats l) as [|first rest] eqn:Hs.
  - destruct l as [|x l]; [contradiction|].
    cbn [sortStats] in Hs. now apply insertStat_cons in Hs.
  - exists first, rest. split; [reflexivity|].
    apply (Permutation_in _ (Permutation_sym (sortStats_perm l))).
    rewrite Hs. now left.
Qed.

(** When no time is [NaN], the head of the sorted list is an entry
    than which none is more recent. *)
Lemma sortStats_head (l : list PdfStat) :
  l <> [] -> (forall x, In x l -> time x <> None) ->
  exists first rest tf,
    sortStats l = first :: rest /\ In first l /\ time first = Some tf /\
    forall x, In x l -> exists t, time x = Some t /\ t <= tf.
Proof.
  induction l as [|x l IH]; intros Hne Hv; [contradiction|].
  destruct (time x) as [tx|] eqn:Hx; [|now destruct (Hv x (or_introl eq_refl))].
  destruct l as [|y l'].
  - exists x, [], tx. repeat split; [now left | exact Hx|].
    intros z [<-|[]]. exists tx. split; [exact Hx | lia].
  - destruct IH as (f & r & tf & Hs & Hin & Hf & Hmax);
      [discriminate | intros z Hz; apply Hv; now right |].
    cbn [sortStats] in *. rewrite Hs. cbn [insertStat]. unfold compareStats.
    rewrite Hf, Hx. cbn [notAbove].
    destruct (Z.leb_spec (tf - tx) 0) as [Hle|Hgt].
    + exists x, (f :: r), tx. repeat split; [now left | exact Hx|].
      intros z [<-|Hz]; [exists tx; split; [exact Hx | lia]|].
      destruct (Hmax z Hz) as (t & Ht & Hle'). exists t. split; [exact Ht | lia].
    + exists f, (insertStat x r), tf. repeat split; [now right | exact Hf|].
      intros z [<-|Hz]; [exists tx; split; [exact Hx | lia] | exact (Hmax z Hz)].
Qed.

Lemma lookup_Some (f : string) (d : list file) (x : file) :
  lookup f d = Some x -> In x d /\ fname x = f.
Proof.
  intros H. apply find_some in H as [Hin Heq].
  split; [exact Hin | now apply String.eqb_eq].
Qed.

Lemma lookup_listed (f : string) (d : list file) :
  In f (map fname d) -> lookup f d <> None.
Proof.
  intros Hin Hnone. apply in_map_iff in Hin as (x & <- & Hx).
  pose proof (find_none _ _ Hnone x Hx) as H. cbv beta in H.
  now rewrite String.eqb_refl in H.
Qed.

Lemma lookup_NoDup (d : list file) (g : file) :
  NoDup (map fname d) -> In g d -> lookup (fname g) d = Some g.
Proof.
  induction d as [|x d IH]; intros Hnd Hin; [contradiction|].
  cbn [map] in Hnd. apply NoDup_cons_iff in Hnd as [Hx Hnd].
  unfold lookup. cbn [find].
  destruct (String.eqb_spec (fname x) (fname g)) as [Heq|Hneq].
  - destruct Hin as [->|Hin]; [reflexivity|].
    exfalso. apply Hx. rewrite Heq. now apply in_map.
  - destruct Hin as [->|Hin]; [contradiction|]. now apply IH.
Qed.

Lemma selected_latest (d : list file) (n : string) :
  NoDup (map fname d) -> dated d -> selected d = Some n ->
  exists f, fname f = n /\ latest d f.
Proof.
  intros Hnd Hdated. unfold selected.
  set (names := filter isPdf (map fname d)).
  set (stats := map (fun f => mkStat f (mtime_in d f)) names).
  assert (Hstat : forall g, In g d -> isPdf (fname g) = true ->
                            In (mkStat (fname g) (Some (mtime g))) stats).
  { intros g Hg Hgpdf.
    replace (Some (mtime g)) with (mtime_in d (fname g)).
    - unfold stats. apply (in_map (fun f => mkStat f (mtime_in d f))).
      unfold names. apply filter_In. split; [now apply in_map | exact Hgpdf].
    - unfold mtime_in. rewrite (lookup_NoDup d g Hnd Hg). now apply Hdated. }
  assert (Hvalid : forall s, In s stats -> time s <> None).
  { intros s Hs. unfold stats in Hs. apply in_map_iff in Hs as (m & <- & Hm).
    unfold names in Hm. apply filter_In in Hm as [Hlisted Hpdf].
    cbn [time]. unfold mtime_in.
    destruct (lookup m d) as [x|] eqn:Hx; [|now apply lookup_listed in Hlisted].
    apply lookup_Some in Hx as [Hin <-]. now rewrite (Hdated x Hin Hpdf). }
  destruct stats as [|s0 stats0] eqn:Hstats; [discriminate|].
  destruct (sortStats_head (s0 :: stats0)) as (first & rest & tf & Hs & Hin & Hf & Hmax);
    [discriminate | exact Hvalid |].
  rewrite Hs. intros [= <-].
  rewrite <- Hstats in Hin. unfold stats in Hin.
  apply in_map_iff in Hin as (m & <- & Hm). cbn [name time] in *.
  unfold names in Hm. apply filter_In in Hm as [Hlisted Hpdf].
  destruct (lookup m d) as [f|] eqn:Hlook; [|now apply lookup_listed in Hlisted].
  apply lookup_Some in Hlook as Hf'. destruct Hf' as [Hfin Hfn].
  exists f. split; [exact Hfn|]. split; [exact Hfin|]. split; [now rewrite Hfn|].
  intros g Hg Hgpdf.
  destruct (Hmax _ (Hstat g Hg Hgpdf)) as (t & Ht & Hle). cbn [time] in Ht.
  injection Ht as <-.
  unfold mtime_in in Hf. rewrite Hlook in Hf.
  rewrite (Hdated f Hfin) in Hf by now rewrite Hfn. injection Hf as <-. exact Hle.
Qed.

Section Selection.

Variable E : Env.
Variable w : World.
Variable d : list file.
Hypothesis Hfolder : folder w = Some d.
Hypothesis Hreadable : readable E w.

Lemma readdir_readable :
  readdir E DOWNLOAD_FOLDER w = (Ok (map fname d), w).
Proof.
  unfold readdir, fs_read. destruct Hreadable as [-> _]. now rewrite Hfolder.
Qed.

Lemma statAll_readable (names : list string) :
  (forall f, In f names -> lookup f d <> None) ->
  statAll E names w = (Ok (map (fun f => mkStat f (mtime_in d f)) names), w).
Proof.
  unfold statAll. induction names as [|f names IH]; intros Hall; [reflexivity|].
  cbn [mapM map].
  assert (Hstat : stat_mtime E (InFolder f) w = (Ok (mtime_in d f), w)).
  { unfold stat_mtime, fs_read, mtime_in. destruct Hreadable as [_ ->].
    rewrite Hfolder. specialize (Hall f (or_introl eq_refl)).
    now destruct (lookup f d). }
  assert (Hone : (t <- stat_mtime E (InFolder f) ;; ret (mkStat f t)) w
                 = (Ok (mkStat f (mtime_in d f)), w))
    by now rewrite (bind_ok _ _ _ _ _ Hstat).
  cbv beta. rewrite (bind_ok _ _ _ _ _ Hone).
  rewrite (bind_ok _ _ _ _ _ (IH (fun g Hg => Hall g (or_intror Hg)))).
  reflexivity.
Qed.

Lemma statAll_candidates :
  statAll E (filter isPdf (map fname d)) w =
  (Ok (map (fun f => mkStat f (mtime_in d f)) (filter isPdf (map fname d))), w).
Proof.
  apply statAll_readable. intros f Hf. apply filter_In in Hf as [Hf _].
  now apply lookup_listed.
Qed.

Hypothesis Hcandidates : candidates w <> [].

Lemma selected_Some : exists n, selected d = Some n.
Proof.
  unfold candidates in Hcandidates. rewrite Hfolder in Hcandidates.
  unfold selected.
  destruct (sortStats_first (map (fun f => mkStat f (mtime_in d f))
                                 (filter isPdf (map fname d))))
    as (first & rest & -> & _).
  - destruct (filter isPdf (map fname d)); [contradiction | discriminate].
  - now exists (name first).
Qed.

Lemma pollDownload_selected : pollDownload E w = (Ok (selected d), w).
Proof.
  destruct selected_Some as [n Hn].
  unfold pollDownload, try_catch.
  rewrite (bind_ok _ _ _ _ _ readdir_readable).
  unfold candidates in Hcandidates. rewrite Hfolder in Hcandidates.
  destruct (filter isPdf (map fname d)) as [|f0 names] eqn:Hnames; [contradiction|].
  cbn [List.length Nat.ltb Nat.leb]. rewrite <- Hnames.
  rewrite (bind_ok _ _ _ _ _ statAll_candidates).
  unfold selected in *.
  destruct (sortStats _) as [|first rest]; [discriminate | reflexivity].
Qed.

Lemma waitForDownload_selected (timeout : Z) :
  0 < timeout -> waitForDownload E timeout w = (Ok (selected d), w).
Proof.
  intros Hpos. destruct selected_Some as [n Hn].
  rewrite waitForDownload_unfold. rewrite Nat.add_1_r.
  rewrite waitLoop_round by lia.
  rewrite pollDownload_selected, Hn. reflexivity.
Qed.

End Selection.

Lemma pollDownload_nothing (E : Env) (w : World) :
  candidates w = [] -> pollDownload E w = (Ok None, w).
Proof.
  unfold candidates, pollDownload, try_catch, bind, readdir, fs_read. intros H.
  destruct (fs_fault E (Readdir DOWNLOAD_FOLDER) w); [reflexivity|].
  destruct (folder w) as [d|]; [|reflexivity].
  cbn [option_map]. now rewrite H.
Qed.

(** Every round sleeps 500 ms at least. *)
Lemma now_iter_idle (E : Env) (k : nat) (w : World) :
  now w + 500 * Z.of_nat k <= now (Nat.iter k (idle E) w).
Proof.
  induction k as [|k IH]; [cbn; lia|].
  change (Nat.iter (S k) (idle E) w) with (idle E (Nat.iter k (idle E) w)).
  pose proof (now_idle E (Nat.iter k (idle E) w)). lia.
Qed.






Lemma reads_access (E : Env) (p : Path) : reads (access E p).
Proof. apply reads_fs_read. Qed.






(** In a folder with several exports, a download in progress and
    another file, the later of the two exports is returned at once. *)
Example busy_folder_selection :
  waitForDownload first_run_env 30000 busy_folder = (Ok (Some "Profile (1).pdf"), busy_folder).
Proof. vm_compute. reflexivity. Qed.

(** The export that lands in the folder during the first sleep is
    returned by the second round. *)
Example export_pending_selection :
  waitForDownload no_credentials_env 30000 export_pending =
  (Ok (Some "Profile.pdf"),
   mkWorld 1700000000500
           (Some [mkFile "Profile.pdf" 1700000000000 "export of jane-smith"])
           None None
           [Slept 500; Drv (ExecuteScript clickScript 3%nat)]).
Proof. vm_compute. reflexivity. Qed.

(** ** C8: the wait for the artifact times out *)

Lemma repeat_snoc {A} (x : A) (n : nat) (l : list A) :
  (repeat x n ++ x :: l = x :: repeat x n ++ l)%list.
Proof. induction n as [|n IH]; simpl; [reflexivity | now rewrite IH]. Qed.

Lemma trace_idle (E : Env) (w : World) : trace (idle E w) = Slept 500 :: trace w.
Proof. reflexivity. Qed.

(** When no round finds a candidate the loop sleeps 500 ms after each
    of them and returns [null] once the time is up. *)
Lemma waitLoop_times_out (E : Env) (fuel : nat) (timeout startTime : Z) (w : World) :
  timeout - (now w - startTime) <= 500 * Z.of_nat fuel ->
  (forall k, now (Nat.iter k (idle E) w) - startTime < timeout ->
             candidates (Nat.iter k (idle E) w) = []) ->
  exists n,
    waitLoop E fuel timeout startTime w = (Ok None, Nat.iter n (idle E) w) /\
    timeout <= now (Nat.iter n (idle E) w) - startTime /\
    (forall k, (k < n)%nat -> now (Nat.iter k (idle E) w) - startTime < timeout) /\
    trace (Nat.iter n (idle E) w) = (repeat (Slept 500) n ++ trace w)%list.
Proof.
  revert w; induction fuel as [|fuel IH]; intros w Hfuel Hnone.
  - exists 0%nat. change (Nat.iter 0 (idle E) w) with w.
    rewrite waitLoop_done by lia.
    split; [reflexivity|]. split; [lia|]. split; [intros k Hk; lia | reflexivity].
  - destruct (Z.lt_ge_cases (now w - startTime) timeout) as [Hlt|Hge].
    + rewrite (waitLoop_round _ _ _ _ _ Hlt).
      rewrite (pollDownload_nothing E w (Hnone 0%nat Hlt)). cbn [fst].
      pose proof (now_idle E w).
      destruct (IH (idle E w)) as (n & Hrun & Hup & Hbefore & Htrace); [lia| |].
      * intros k. rewrite <- Nat.iter_succ_r. apply Hnone.
      * exists (S n). rewrite Nat.iter_succ_r.
        split; [exact Hrun|]. split; [exact Hup|]. split.
        -- intros [|k] Hk; [exact Hlt|].
           rewrite Nat.iter_succ_r. apply Hbefore. lia.
        -- rewrite Htrace, trace_idle. cbn [repeat]. apply repeat_snoc.
    + exists 0%nat. change (Nat.iter 0 (idle E) w) with w.
      rewrite waitLoop_done by lia.
      split; [reflexivity|]. split; [lia|]. split; [intros k Hk; lia | reflexivity].
Qed.

(** savePdf is its steps up to the click, then the wait, then the
    claim. *)
Lemma savePdf_split (E : Env) (secondOverflowAction : Elem) (profileId : string)
      (w0 : World) :
  savePdf E secondOverflowAction profileId w0 =
  (startDownload E secondOverflowAction ;;;
   downloadedFile <- waitForDownload E 30000 ;;
   claimDownload E profileId downloadedFile) w0.
Proof.
  unfold savePdf, startDownload, bind. cbn [console emit].
  destruct (drv_unit E (Click secondOverflowAction) _) as [[[]|e|] w1];
    try reflexivity.
  cbn [sleep].
  destruct (drv_element E (FindElement saveToPdfItem) _) as [[pdfButton|e|] w2];
    try reflexivity.
  destruct (drv_unit E (ExecuteScript clickScript pdfButton) _) as [[[]|e|] w3];
    reflexivity.
Qed.

Lemma savePdfAlternative_split (E : Env) (profileId : string) (w0 : World) :
  savePdfAlternative E profileId w0 =
  (startAlternative E ;;;
   downloadedFile <- waitForDownload E 30000 ;;
   match downloadedFile with
   | Some f =>
       if truthy f
       then sleep E 2000 ;;; renameDownloadedPdf E profileId ;;; ret tt
       else ret tt
   | None => ret tt
   end) w0.
Proof.
  unfold savePdfAlternative, startAlternative, bind.
  destruct (drv_element E (FindElement saveToPdfAnywhere) _) as [[pdfButtonAlt|e|] w1];
    try reflexivity.
  destruct (drv_unit E (ExecuteScript clickScript pdfButtonAlt) _) as [[[]|e|] w2];
    reflexivity.
Qed.

(** C8 (what the code does).  If no qualifying artifact is in the
    folder at any round of the loop before [timeout] ms have passed,
    waitForDownload sleeps 500 ms after each round and returns [null]
    (nothing is thrown) once the time is up.  Of the two callers, both
    with a timeout of 30000 ms, the first (scraper.js 300-312) then
    writes its time-out line and returns; the second (scraper.js
    325-329) returns without a word: the world it leaves is the world
    the wait left.  A round of the loop over the targets always
    returns, so the loop goes on with the next target. *)
Theorem C8_wait_times_out (E : Env) (w : World) (timeout : Z) (profileId : string) :
  (forall k, now (Nat.iter k (idle E) w) - now w < timeout ->
             candidates (Nat.iter k (idle E) w) = []) ->
  exists n,
    waitForDownload E timeout w = (Ok None, Nat.iter n (idle E) w) /\
    timeout <= now (Nat.iter n (idle E) w) - now w /\
    (forall k, (k < n)%nat -> now (Nat.iter k (idle E) w) - now w < timeout) /\
    trace (Nat.iter n (idle E) w) = (repeat (Slept 500) n ++ trace w)%list /\
    (timeout = 30000 ->
     (forall secondOverflowAction w0,
         startDownload E secondOverflowAction w0 = (Ok tt, w) ->
         savePdf E secondOverflowAction profileId w0 =
         (Ok tt, push (Log MDownloadTimeout) (Nat.iter n (idle E) w))) /\
     (forall w0,
         startAlternative E w0 = (Ok tt, w) ->
         savePdfAlternative E profileId w0 = (Ok tt, Nat.iter n (idle E) w))) /\
    forall driver i m raw rest w0,
      exists w1, processProfile E driver i m raw w0 = (Ok tt, w1) /\
                 profilesLoop E driver i m (raw :: rest) w0 =
                 profilesLoop E driver (S i) m rest w1.
Proof.
  intros Hnone.
  destruct (waitLoop_times_out E (Z.to_nat (timeout / 500) + 1) timeout (now w) w)
    as (n & Hrun & Hup & Hbefore & Htrace).
  - pose proof (fuel_enough timeout). lia.
  - exact Hnone.
  - exists n. rewrite waitForDownload_unfold.
    repeat (split; [assumption|]). split.
    + intros ->. rewrite <- waitForDownload_unfold in Hrun. split.
      * intros el w0 Hstart. rewrite savePdf_split.
        rewrite (bind_ok _ _ _ _ _ Hstart), (bind_ok _ _ _ _ _ Hrun). reflexivity.
      * intros w0 Hstart. rewrite savePdfAlternative_split.
        rewrite (bind_ok _ _ _ _ _ Hstart), (bind_ok _ _ _ _ _ Hrun). reflexivity.
    + intros driver i m raw rest w0. apply profilesLoop_cons.
Qed.

Lemma first_run_folder_stays (k : nat) :
  candidates (Nat.iter k (idle first_run_env) after_click) = [].
Proof.
  assert (H : folder (Nat.iter k (idle first_run_env) after_click) = None)
    by (induction k as [|k IH]; [reflexivity | exact IH]).
  unfold candidates. now rewrite H.
Qed.

Lemma C8_witness :
  exists n,
    waitForDownload first_run_env 30000 after_click
    = (Ok None, Nat.iter n (idle first_run_env) after_click) /\
    30000 <= now (Nat.iter n (idle first_run_env) after_click) - now after_click /\
    (forall k, (k < n)%nat ->
               now (Nat.iter k (idle first_run_env) after_click) - now after_click
               < 30000) /\
    trace (Nat.iter n (idle first_run_env) after_click)
    = (repeat (Slept 500) n ++ trace after_click)%list /\
    (30000 = 30000 ->
     (forall secondOverflowAction w0,
         startDownload first_run_env secondOverflowAction w0 = (Ok tt, after_click) ->
         savePdf first_run_env secondOverflowAction "jane-smith" w0 =
         (Ok tt, push (Log MDownloadTimeout)
                      (Nat.iter n (idle first_run_env) after_click))) /\
     (forall w0,
         startAlternative first_run_env w0 = (Ok tt, after_click) ->
         savePdfAlternative first_run_env "jane-smith" w0 =
         (Ok tt, Nat.iter n (idle first_run_env) after_click))) /\
    forall driver i m raw rest w0,
      exists w1, processProfile first_run_env driver i m raw w0 = (Ok tt, w1) /\
                 profilesLoop first_run_env driver i m (raw :: rest) w0 =
                 profilesLoop first_run_env driver (S i) m rest w1.
Proof.
  apply C8_wait_times_out. intros k _. apply first_run_folder_stays.
Defined.

(** With an exact clock the thirty seconds of the caller are sixty
    rounds. *)
Example first_run_wait :
  waitForDownload first_run_env 30000 first_run
  = (Ok None, Nat.iter 60 (idle first_run_env) first_run).
Proof. vm_compute. reflexivity. Qed.

(** Both callers at work on an export that never arrives.  Under the
    first selector the round ends sixty sleeps after the click with
    the time-out line as its last event. *)
Example timeout_recorded :
  startDownload first_run_env 2%nat first_run = (Ok tt, after_click) /\
  savePdf first_run_env 2%nat "jane-smith" first_run =
  (Ok tt, push (Log MDownloadTimeout) (Nat.iter 60 (idle first_run_env) after_click)).
Proof. split; vm_compute; reflexivity. Qed.

(** Under the alternative selector the sixtieth sleep is the last
    event of the round, and a whole run on that page never writes the
    time-out line. *)
Example timeout_not_recorded :
  savePdfAlternative text_only_env "jane-smith" first_run =
  (Ok tt, Nat.iter 60 (idle text_only_env)
                   (snd (startAlternative text_only_env first_run))) /\
  fst (main text_only_env later_run) = Ok tt /\
  In (Log MInitiatedAlternative) (trace (snd (main text_only_env later_run))) /\
  polls (trace (snd (main text_only_env later_run))) = 60%nat /\
  ~ In (Log MDownloadTimeout) (trace (snd (main text_only_env later_run))) /\
  In (Log MDownloadTimeout) (trace (snd (main first_run_env later_run))).
Proof.
  split; [vm_compute; reflexivity|]. split; [vm_compute; reflexivity|].
  split; [vm_compute; tauto|]. split; [vm_compute; reflexivity|].
  split; [|vm_compute; tauto].
  vm_compute. intuition discriminate.
Qed.

(** ** C4: a destination that already exists *)

(** The timestamped name is never the plain name. *)
Lemma timestamped_name_differs (profileId : string) (timestamp : Z) :
  profileId ++ "_" ++ decimal timestamp ++ ".pdf" <> profileId ++ ".pdf".
Proof.
  induction profileId as [|c p IH]; simpl; intros H.
  - discriminate.
  - injection H as H. exact (IH H).
Qed.

(** When the file system accepts the timestamped rename, the entry
    that holds the destination name stays in the folder as it is. *)
Lemma collision_moves_aside
      (E : Env) (profileId : string) (w : World) (d : list file) (n : string) (old : file) :
  folder w = Some d -> readable E w -> candidates w <> [] -> selected d = Some n ->
  lookup (profileId ++ ".pdf") d = Some old -> n <> profileId ++ ".pdf" ->
  fs_fault E (Access (InFolder (profileId ++ ".pdf"))) w = false ->
  fs_fault E (Rename (InFolder n)
                     (InFolder (profileId ++ "_" ++ decimal (now w) ++ ".pdf")))
           (push (Log (MAlreadyExists (profileId ++ ".pdf"))) w) = false ->
  fst (renameDownloadedPdf E profileId w) = Ok true /\
  exists d', folder (snd (renameDownloadedPdf E profileId w)) = Some d' /\ In old d'.
Proof.
  intros Hfolder Hreadable Hcand Hsel Hold Hn Hacc Hren.
  assert (Hnd : lookup n d <> None).
  { unfold selected in Hsel.
    destruct (sortStats_first (map (fun f => mkStat f (mtime_in d f))
                                   (filter isPdf (map fname d))))
      as (first & rest & Hs & Hin).
    - unfold candidates in Hcand. rewrite Hfolder in Hcand.
      destruct (filter isPdf (map fname d)); [contradiction | discriminate].
    - rewrite Hs in Hsel. injection Hsel as <-.
      apply in_map_iff in Hin as (f & <- & Hf). apply filter_In in Hf as [Hf _].
      now apply lookup_listed. }
  unfold renameDownloadedPdf, try_catch.
  rewrite (bind_ok _ _ _ _ _ (readdir_readable E w d Hfolder Hreadable)).
  unfold candidates in Hcand. rewrite Hfolder in Hcand.
  destruct (filter isPdf (map fname d)) as [|f0 names] eqn:Hnames; [contradiction|].
  cbn [List.length Nat.eqb]. rewrite <- Hnames.
  rewrite (bind_ok _ _ _ _ _ (statAll_candidates E w d Hfolder Hreadable)).
  unfold selected in Hsel.
  destruct (sortStats _) as [|first rest]; [discriminate|]. injection Hsel as Hfirst.
  unfold moveIntoPlace, try_catch, bind, access, fs_read, console, emit, dateNow,
    rename, fs_write. cbv zeta.
  rewrite Hacc, Hfolder, Hold. cbn [option_map push now folder].
  rewrite Hfirst, Hren, Hfolder.
  destruct (lookup n d) as [x|]; [|contradiction].
  cbn. split; [reflexivity|]. eexists. split; [reflexivity|].
  apply lookup_Some in Hold as [Hin Hname].
  assert (Hts : fname old <> profileId ++ String "_" (decimal (now w) ++ ".pdf")).
  { rewrite Hname. intros Heq.
    exact (timestamped_name_differs profileId (now w) (eq_sym Heq)). }
  unfold rename_entry.
  match goal with
  | |- context [String.eqb n ?t] => destruct (String.eqb_spec n t); [exact Hin|]
  end.
  apply in_map_iff. exists old. split.
  - destruct (String.eqb_spec (fname old) n); [congruence | reflexivity].
  - apply filter_In. split; [exact Hin|].
    match goal with
    | |- context [String.eqb (fname old) ?t] =>
        destruct (String.eqb_spec (fname old) t); [contradiction | reflexivity]
    end.
Qed.

(** C4 (what the code does).  The rename under the timestamped name
    sits inside the [try] whose handler is meant for a destination
    that does not exist.  With an identifier of 240 code units the
    destination [<id>.pdf] exists, the timestamped name is longer than
    a file name may be, its rename is refused, and the handler renames
    the new artifact onto [<id>.pdf]: the first export is lost. *)
Theorem C4_existing_file_overwritten :
  lookup (long_id ++ ".pdf") [mkFile "Profile.pdf" 2000 "second export";
                              mkFile (long_id ++ ".pdf") 1000 "first export"]
  = Some (mkFile (long_id ++ ".pdf") 1000 "first export") /\
  fst (renameDownloadedPdf name_limit_env long_id second_export) = Ok true /\
  folder (snd (renameDownloadedPdf name_limit_env long_id second_export))
  = Some [mkFile (long_id ++ ".pdf") 2000 "second export"].
Proof. vm_compute. repeat split. Qed.

(** * Further properties of the program *)

(** ** extractProfileId: what a result looks like *)

Lemma take_seg_split (r : string) :
  exists rest, r = take_seg r ++ rest /\ ends_segment rest = true /\
               all_seg (take_seg r) = true.
Proof.
  induction r as [|c r IH].
  - now exists "".
  - cbn [take_seg]. destruct (seg_char c) eqn:Hc.
    + destruct IH as (rest & Hr & He & Ha). exists rest.
      cbn [all_seg append]. rewrite Hc, Ha. now rewrite <- Hr.
    + exists (String c r). cbn. now rewrite Hc.
Qed.

Lemma regex_match_sound (s g : string) :
  regex_match s = Some g ->
  g <> "" /\ all_seg g = true /\
  exists pre rest, s = pre ++ "/in/" ++ g ++ rest /\ ends_segment rest = true.
Proof.
  induction s as [|c s IH]; intros H; [discriminate|].
  cbn [regex_match] in H.
  destruct (match_here (String c s)) as [g'|] eqn:Hm.
  - injection H as ->. unfold match_here in Hm.
    destruct (stripPrefix "/in/" (String c s)) as [r|] eqn:Hs; [|discriminate].
    apply stripPrefix_Some in Hs.
    destruct (take_seg_split r) as (rest & Hr & He & Ha).
    destruct (take_seg r) as [|c' t] eqn:Ht; [discriminate|].
    injection Hm as <-. split; [discriminate|]. split; [exact Ha|].
    exists "", rest. split; [|exact He]. rewrite Hs, Hr. reflexivity.
  - destruct (IH H) as (Hne & Ha & pre & rest & -> & He).
    split; [exact Hne|]. split; [exact Ha|]. now exists (String c pre), rest.
Qed.

(** An identifier that extractProfileId returns is a piece of the URL:
    it stands right after an [/in/], it runs up to the next slash or
    question mark or to the end, it is not empty and it holds neither
    a slash nor a question mark, so [<id>.pdf] names a file inside the
    download folder. *)
Theorem extractProfileId_sound (url id : string) :
  extractProfileId url = Some id ->
  id <> "" /\ all_seg id = true /\
  exists pre rest, url = pre ++ "/in/" ++ id ++ rest /\ ends_segment rest = true.
Proof.
  unfold extractProfileId. intros H.
  destruct (regex_match url) as [g|] eqn:Hm; [|discriminate].
  destruct (regex_match_sound _ _ Hm) as (Hne & Ha & Hex).
  destruct g as [|c g']; [contradiction|]. cbn [truthy] in H.
  rewrite (removeTrailingSlash_seg _ Ha) in H. injection H as <-.
  repeat split; assumption.
Qed.

Lemma extractProfileId_sound_witness :
  "john-doe-123456" <> "" /\ all_seg "john-doe-123456" = true /\
  exists pre rest,
    "https://www.linkedin.com/in/john-doe-123456?trk=people" =
    pre ++ "/in/" ++ "john-doe-123456" ++ rest /\ ends_segment rest = true.
Proof.
  apply (extractProfileId_sound "https://www.linkedin.com/in/john-doe-123456?trk=people").
  reflexivity.
Defined.

(** Every URL with a segment after [/in/] gets an identifier: with
    the result for URLs without one, [null] is returned exactly for the
    URLs that have no such segment. *)
Theorem extractProfileId_complete (url : string) :
  has_in_segment url -> exists id, extractProfileId url = Some id.
Proof.
  intros H. unfold extractProfileId.
  destruct (regex_match url) as [g|] eqn:Hm.
  - destruct (regex_match_sound _ _ Hm) as (Hne & Ha & _).
    destruct g as [|c g']; [contradiction|]. eexists. reflexivity.
  - exfalso. exact (regex_match_None _ Hm H).
Qed.

Lemma extractProfileId_complete_witness :
  exists id, extractProfileId "https://x.example/in//in/bob/details" = Some id.
Proof.
  apply extractProfileId_complete.
  exists "https://x.example/in/", "b"%char, "ob/details". split; reflexivity.
Defined.

(** ** isPdf: the second test never decides *)

Lemma endsWith_pdf_not_crdownload (s : string) :
  endsWith ".pdf" s = true -> endsWith ".crdownload" s = false.
Proof.
  induction s as [|c s IH]; [discriminate|].
  cbn [endsWith]. intros H. apply orb_true_iff in H as [H|H].
  - apply String.eqb_eq in H. injection H as -> ->. reflexivity.
  - rewrite (IH H), orb_false_r.
    destruct (String.eqb_spec (String c s) ".crdownload") as [Heq|]; [|reflexivity].
    injection Heq as _ ->. discriminate.
Qed.

(** A name that ends in [.pdf] does not end in [.crdownload]: the
    filter of waitForDownload and renameDownloadedPdf keeps exactly the
    names that end in [.pdf], and a download in progress
    ([name.pdf.crdownload]) is left out by the first test alone. *)
Theorem isPdf_is_pdf_suffix (f : string) : isPdf f = endsWith ".pdf" f.
Proof.
  unfold isPdf. destruct (endsWith ".pdf" f) eqn:H; [|reflexivity].
  now rewrite (endsWith_pdf_not_crdownload f H).
Qed.

(** ** The target list *)

Lemma trimEnd_idem (s : string) : trimEnd (trimEnd s) = trimEnd s.
Proof.
  induction s as [|c s IH]; [reflexivity|].
  cbn [trimEnd]. destruct (trimEnd s) as [|c' t] eqn:Ht.
  - destruct (is_space c) eqn:Hc; [reflexivity|]. cbn [trimEnd]. now rewrite Hc.
  - cbn [trimEnd]. cbn [trimEnd] in IH. now rewrite IH.
Qed.

Lemma trimStart_starts_clean (s : string) : starts_clean (trimStart s) = true.
Proof.
  induction s as [|c s IH]; [reflexivity|].
  cbn [trimStart]. destruct (is_space c) eqn:Hc; [exact IH|]. cbn. now rewrite Hc.
Qed.

Lemma trimStart_clean (s : string) : starts_clean s = true -> trimStart s = s.
Proof.
  destruct s as [|c s]; [reflexivity|]. cbn. now destruct (is_space c).
Qed.

Lemma trimEnd_starts_clean (s : string) :
  starts_clean s = true -> starts_clean (trimEnd s) = true.
Proof.
  destruct s as [|c s]; [reflexivity|]. cbn [starts_clean trimEnd]. intros Hc.
  destruct (trimEnd s); [|exact Hc].
  destruct (is_space c) eqn:Hs; [discriminate | cbn; now rewrite Hs].
Qed.

Lemma trim_idem (s : string) : trim (trim s) = trim s.
Proof.
  unfold trim.
  rewrite (trimStart_clean (trimEnd (trimStart s)))
    by (apply trimEnd_starts_clean, trimStart_starts_clean).
  apply trimEnd_idem.
Qed.

Lemma all_chars_trimStart (p : ascii -> bool) (s : string) :
  all_chars p s = true -> all_chars p (trimStart s) = true.
Proof.
  induction s as [|c s IH]; [reflexivity|]. cbn [trimStart all_chars]. intros H.
  apply andb_prop in H as [Hc Hs].
  destruct (is_space c); [now apply IH | cbn; now rewrite Hc, Hs].
Qed.

Lemma all_chars_trimEnd (p : ascii -> bool) (s : string) :
  all_chars p s = true -> all_chars p (trimEnd s) = true.
Proof.
  induction s as [|c s IH]; [reflexivity|]. cbn [trimEnd all_chars]. intros H.
  apply andb_prop in H as [Hc Hs]. specialize (IH Hs).
  destruct (trimEnd s) as [|c' t].
  - destruct (is_space c); [reflexivity | cbn; now rewrite Hc].
  - cbn [all_chars] in *. now rewrite Hc, IH.
Qed.

Lemma all_chars_app (p : ascii -> bool) (a b : string) :
  all_chars p (a ++ b) = all_chars p a && all_chars p b.
Proof.
  induction a as [|c a IH]; [reflexivity|]. cbn. now rewrite IH, andb_assoc.
Qed.

Lemma splitFrom_sep_free (s cur : string) (inSep : bool) :
  sep_free cur = true ->
  Forall (fun p => sep_free p = true) (splitFrom cur inSep s).
Proof.
  revert cur inSep; induction s as [|c s IH]; intros cur inSep Hcur; cbn [splitFrom].
  - now constructor.
  - destruct (is_sep c) eqn:Hc.
    + destruct inSep; [now apply IH|]. constructor; [exact Hcur | now apply IH].
    + apply IH. unfold sep_free in *. rewrite all_chars_app, Hcur. cbn. now rewrite Hc.
Qed.

(** What the pipeline of getProfileURLs makes of any text. *)
Lemma parsed_urls_clean (text : string) :
  Forall clean_url (filter truthy (map trim (split (trim text)))).
Proof.
  apply Forall_forall. intros u Hu.
  apply filter_In in Hu as [Hu Ht]. apply in_map_iff in Hu as (p & <- & Hp).
  split; [|split].
  - intros Heq. rewrite Heq in Ht. discriminate.
  - apply trim_idem.
  - pose proof (splitFrom_sep_free (trim text) "" false eq_refl) as Hall.
    rewrite Forall_forall in Hall. specialize (Hall p Hp).
    unfold trim, sep_free in *. now apply all_chars_trimEnd, all_chars_trimStart.
Qed.

Lemma clean_urls_fixed (urls : list string) :
  Forall clean_url urls -> filter truthy (map trim urls) = urls.
Proof.
  induction 1 as [|u urls (Hne & Htrim & _) _ IH]; [reflexivity|].
  cbn [map filter]. rewrite Htrim, IH. now destruct u.
Qed.

Lemma getProfileURLs_cases (E : Env) (w : World) :
  exists urls m, getProfileURLs E w = (Ok urls, push (Log m) w) /\
                 urls_seen [Log m] = [] /\ Forall clean_url urls.
Proof.
  unfold getProfileURLs, try_catch, bind, readFile, fs_read.
  destruct (fs_fault E (ReadFile profileURLsPath) w).
  - exists [], (MErrorReadingURLs (FsError (ReadFile profileURLsPath))). now repeat split.
  - destruct (profilesFile w) as [text|].
    + eexists _, (MFoundURLs _). split; [reflexivity|]. split; [reflexivity|].
      apply parsed_urls_clean.
    + exists [], (MErrorReadingURLs (FsError (ReadFile profileURLsPath))). now repeat split.
Qed.

(** getProfileURLs never throws, writes one console line, and every
    entry of the list it returns is not empty, has no white space at
    either end and holds no comma and no newline. *)
Theorem getProfileURLs_clean (E : Env) (w : World) :
  exists urls m, getProfileURLs E w = (Ok urls, push (Log m) w) /\
                 Forall clean_url urls.
Proof.
  destruct (getProfileURLs_cases E w) as (urls & m & H & _ & Hc).
  now exists urls, m.
Qed.

(** proccessProfiles starts one round on each entry of the list that
    getProfileURLs returns, no more and no less, in the order of the
    list: the second trim and the blank test of the loop change
    nothing. *)
Theorem proccessProfiles_one_round_each (E : Env) (driver : Driver) (w : World) :
  exists URLs w1 w',
    getProfileURLs E w = (Ok URLs, w1) /\
    proccessProfiles E driver w = (Ok tt, w') /\
    exists evs, trace w' = (evs ++ trace w)%list /\ rev (urls_seen evs) = URLs.
Proof.
  destruct (proccessProfiles_runs E driver w)
    as (URLs & w1 & w' & Hget & Hrun & _ & evs & Hev & Hseen).
  exists URLs, w1, w'. split; [exact Hget|]. split; [exact Hrun|].
  exists evs. split; [exact Hev|].
  destruct (getProfileURLs_cases E w) as (urls & m & Hget' & _ & Hc).
  rewrite Hget' in Hget. injection Hget as -> _.
  now rewrite Hseen, clean_urls_fixed.
Qed.

Lemma splitFrom_piece (p cur rest : string) (inSep : bool) :
  sep_free p = true -> p <> "" ->
  splitFrom cur inSep (p ++ rest) = splitFrom (cur ++ p) false rest.
Proof.
  revert cur inSep; induction p as [|c p IH]; intros cur inSep Hp Hne; [contradiction|].
  cbn [sep_free all_chars] in Hp. apply andb_prop in Hp as [Hc Hp].
  cbn [append splitFrom]. apply negb_true_iff in Hc. rewrite Hc.
  destruct p as [|c' p'].
  - cbn [append]. reflexivity.
  - rewrite (IH _ false Hp) by discriminate.
    now rewrite append_assoc.
Qed.

Lemma splitFrom_skip (seps cur rest : string) :
  all_chars is_sep seps = true ->
  splitFrom cur true (seps ++ rest) = splitFrom cur true rest.
Proof.
  induction seps as [|c seps IH]; intros H; [reflexivity|].
  cbn [all_chars] in H. apply andb_prop in H as [Hc H].
  cbn [append splitFrom]. rewrite Hc. now apply IH.
Qed.

Lemma splitFrom_seps (seps cur rest : string) :
  all_chars is_sep seps = true -> seps <> "" ->
  splitFrom cur false (seps ++ rest) = cur :: splitFrom "" true rest.
Proof.
  destruct seps as [|c seps]; intros H Hne; [contradiction|].
  cbn [all_chars] in H. apply andb_prop in H as [Hc H].
  cbn [append splitFrom]. rewrite Hc. f_equal. now apply splitFrom_skip.
Qed.

Lemma append_empty_r (s : string) : s ++ "" = s.
Proof. induction s as [|c s IH]; [reflexivity | cbn; now rewrite IH]. Qed.

Lemma splitFrom_concat (seps : string) (urls : list string) (inSep : bool) :
  all_chars is_sep seps = true -> seps <> "" ->
  urls <> [] -> Forall clean_url urls ->
  splitFrom "" inSep (String.concat seps urls) = urls.
Proof.
  intros Hseps Hne Hnil Hall. revert inSep.
  induction Hall as [|u urls (Hu & _ & Hfree) Hall IH]; intros inSep; [contradiction|].
  destruct urls as [|v urls].
  - cbn [String.concat]. rewrite <- (append_empty_r u) at 1.
    now rewrite (splitFrom_piece u "" "" inSep Hfree Hu).
  - cbn [String.concat]. rewrite (splitFrom_piece u "" _ inSep Hfree Hu).
    cbn [append]. rewrite (splitFrom_seps seps u _ Hseps Hne).
    f_equal. apply IH. discriminate.
Qed.

Lemma length_trimStart (s : string) :
  (String.length (trimStart s) <= String.length s)%nat.
Proof.
  induction s as [|c s IH]; [reflexivity|]. cbn [trimStart].
  destruct (is_space c); cbn [String.length]; lia.
Qed.

Lemma length_trimEnd (s : string) :
  (String.length (trimEnd s) <= String.length s)%nat.
Proof.
  induction s as [|c s IH]; [reflexivity|]. cbn [trimEnd].
  destruct (trimEnd s); [destruct (is_space c)|]; cbn [String.length] in *; lia.
Qed.

Lemma trimmed_starts_clean (u : string) : trim u = u -> starts_clean u = true.
Proof.
  destruct u as [|c u]; [reflexivity|]. intros H. cbn [starts_clean].
  destruct (is_space c) eqn:Hc; [|reflexivity]. exfalso.
  assert (Hlen : (String.length (trim (String c u)) <= String.length u)%nat).
  { unfold trim. cbn [trimStart]. rewrite Hc.
    pose proof (length_trimEnd (trimStart u)). pose proof (length_trimStart u). lia. }
  rewrite H in Hlen. cbn [String.length] in Hlen. lia.
Qed.

Lemma trimmed_trimEnd (u : string) : trim u = u -> trimEnd u = u.
Proof.
  intros H. pose proof (trimmed_starts_clean u H) as Hs.
  unfold trim in H. now rewrite (trimStart_clean u Hs) in H.
Qed.

Lemma trimEnd_app (a b : string) :
  trimEnd b <> "" -> trimEnd (a ++ b) = a ++ trimEnd b.
Proof.
  intros Hb. induction a as [|c a IH]; [reflexivity|].
  cbn [append trimEnd]. rewrite IH.
  destruct (a ++ trimEnd b) as [|c' t] eqn:Hab; [|reflexivity].
  destruct a; [contradiction | discriminate].
Qed.

Lemma concat_last (seps : string) (urls : list string) :
  urls <> [] ->
  exists a u, String.concat seps urls = a ++ u /\ In u urls.
Proof.
  induction urls as [|u urls IH]; intros Hne; [contradiction|].
  destruct urls as [|v urls].
  - exists "", u. split; [reflexivity | now left].
  - destruct IH as (a & x & Hc & Hin); [discriminate|].
    exists (u ++ seps ++ a), x. split; [|now right].
    cbn [String.concat]. cbn [String.concat] in Hc. rewrite Hc.
    now rewrite !append_assoc.
Qed.

Lemma trim_concat (seps : string) (urls : list string) :
  urls <> [] -> Forall clean_url urls ->
  trim (String.concat seps urls) = String.concat seps urls.
Proof.
  intros Hne Hall. unfold trim.
  assert (Hstart : starts_clean (String.concat seps urls) = true).
  { destruct urls as [|u urls]; [contradiction|].
    inversion Hall as [|? ? (Hu & Ht & _) _]; subst.
    pose proof (trimmed_starts_clean u Ht) as Hs.
    destruct u as [|c u]; [contradiction|].
    destruct urls; exact Hs. }
  rewrite (trimStart_clean _ Hstart).
  destruct (concat_last seps urls Hne) as (a & u & -> & Hin).
  rewrite Forall_forall in Hall. destruct (Hall u Hin) as (Hu & Ht & _).
  pose proof (trimmed_trimEnd u Ht) as He.
  rewrite trimEnd_app; rewrite He; [reflexivity | exact Hu].
Qed.

(** Reading back a target list: a file that holds clean entries (not
    empty, no white space at either end, no comma and no newline) with
    a run of newlines and commas between one entry and the next is read
    as exactly these entries, in their order. *)
Theorem getProfileURLs_reads_back
        (E : Env) (w : World) (seps : string) (urls : list string) :
  urls <> [] -> Forall clean_url urls ->
  seps <> "" -> all_chars is_sep seps = true ->
  profilesFile w = Some (String.concat seps urls) ->
  fs_fault E (ReadFile profileURLsPath) w = false ->
  getProfileURLs E w = (Ok urls, push (Log (MFoundURLs urls)) w).
Proof.
  intros Hne Hall Hs Hseps Hfile Hfault.
  unfold getProfileURLs, try_catch, bind, readFile, fs_read.
  rewrite Hfault, Hfile. rewrite (trim_concat seps urls Hne Hall).
  unfold split. rewrite (splitFrom_concat seps urls false Hseps Hs Hne Hall).
  rewrite (clean_urls_fixed urls Hall). reflexivity.
Qed.

Lemma getProfileURLs_reads_back_witness :
  getProfileURLs first_run_env two_targets =
  (Ok ["https://www.linkedin.com/in/jane-smith/";
       "https://www.linkedin.com/in/john-doe-123456"],
   push (Log (MFoundURLs ["https://www.linkedin.com/in/jane-smith/";
                           "https://www.linkedin.com/in/john-doe-123456"]))
        two_targets).
Proof.
  apply (getProfileURLs_reads_back first_run_env two_targets (String "010" EmptyString)).
  - discriminate.
  - repeat constructor; discriminate.
  - discriminate.
  - reflexivity.
  - reflexivity.
  - reflexivity.
Defined.

(** ** The session store *)

Lemma cookies_added_app (a b : list Event) :
  cookies_added (a ++ b)%list = (cookies_added a ++ cookies_added b)%list.
Proof.
  induction a as [|ev a IH]; [reflexivity|].
  destruct ev as [c| | |]; cbn; try exact IH.
  destruct c; cbn; rewrite ?IH; reflexivity.
Qed.

(** The loop over the entries goes on whichever cookies the browser
    rejects, and ends at the first [null]. *)
Lemma addCookies_all (E : Env) (entries : list (option Cookie)) (w : World) :
  exists w' evs,
    forEach entries (addCookieOrWarn E) w
    = (if all_objects entries then Ok tt else Throw TypeError, w') /\
    trace w' = (evs ++ trace w)%list /\
    rev (cookies_added evs) = before_null entries /\
    ~ In (Drv Refresh) evs.
Proof.
  revert w; induction entries as [|[c|] entries IH]; intros w.
  - exists w, []. split; [reflexivity|]. split; [reflexivity|]. split; [reflexivity|].
    intros [].
  - cbn [forEach all_objects forallb before_null andb].
    fold (all_objects entries).
    assert (Hstep : exists w1 e1, addCookieOrWarn E (Some c) w = (Ok tt, w1) /\
                                  trace w1 = (e1 ++ trace w)%list /\
                                  cookies_added e1 = [c] /\ ~ In (Drv Refresh) e1).
    { unfold addCookieOrWarn, try_catch, drv_unit, drv.
      destruct (drv_fault E (AddCookie c) w).
      - eexists _, [_; _]. split; [reflexivity|]. split; [reflexivity|].
        split; [reflexivity|]. intros [H|[H|[]]]; discriminate.
      - eexists _, [_]. split; [reflexivity|]. split; [reflexivity|].
        split; [reflexivity|]. intros [H|[]]; discriminate. }
    destruct Hstep as (w1 & e1 & Hrun & Ht1 & Hc1 & Hr1).
    destruct (IH w1) as (w' & evs & Hloop & Ht & Hc & Hr).
    exists w', (evs ++ e1)%list. split; [|split; [|split]].
    + unfold bind. rewrite Hrun, Hloop. now destruct (all_objects entries).
    + rewrite Ht, Ht1. now rewrite app_assoc.
    + rewrite cookies_added_app, rev_app_distr, Hc1, Hc. reflexivity.
    + intros H. apply in_app_or in H as [H|H]; [now apply Hr | now apply Hr1].
  - exists w, []. split; [reflexivity|]. split; [reflexivity|]. split; [reflexivity|].
    intros [].
Qed.

Lemma before_null_all (entries : list (option Cookie)) :
  all_objects entries = true -> map Some (before_null entries) = entries.
Proof.
  induction entries as [|[c|] entries IH]; intros H; [reflexivity | | discriminate].
  cbn [before_null map]. now rewrite IH.
Qed.

(** Restoring a session: when the store is read and parses to an
    array and the first navigation goes through, loadCookies hands the
    cookies of the array to the browser in the order of the array,
    whichever of them the browser rejects, up to the first entry that
    is [null].  When no entry is [null], the cookies handed over are
    the whole array, the refresh is asked for after them, and the
    function fails only if the refresh does.  At a [null] the loop is
    left with a TypeError, which loadCookies throws on: the cookies
    after it are not handed over and no refresh is asked for. *)
Theorem loadCookies_offers_every_cookie
        (E : Env) (driver : Driver) (w : World) (text : string)
        (entries : list (option Cookie)) :
  cookiesFile w = Some text -> JSON_parse E text = Some (Some entries) ->
  fs_fault E (ReadFile COOKIES_FILE) w = false ->
  drv_fault E (Get "https://www.linkedin.com") w = false ->
  exists evs,
    trace (snd (loadCookies E driver w)) = (evs ++ trace w)%list /\
    rev (cookies_added evs) = before_null entries /\
    if all_objects entries
    then map Some (rev (cookies_added evs)) = entries /\
         In (Drv Refresh) evs /\
         (fst (loadCookies E driver w) = Ok tt \/
          fst (loadCookies E driver w) = Throw (DriverError Refresh))
    else ~ In (Drv Refresh) evs /\
         fst (loadCookies E driver w) = Throw TypeError.
Proof.
  intros Hfile Hparse Hread Hget.
  unfold loadCookies.
  set (w1 := push (Drv (Get "https://www.linkedin.com")) (elapse E 0 w)).
  destruct (addCookies_all E entries w1) as (w2 & evs & Hloop & Ht & Hc & Hnr).
  assert (Hrf : readFile E COOKIES_FILE w = (Ok text, w))
    by (unfold readFile, fs_read; now rewrite Hread, Hfile).
  assert (Hnav : drv_unit E (Get "https://www.linkedin.com") w = (Ok tt, w1))
    by (unfold drv_unit, drv; now rewrite Hget).
  rewrite (try_bind_ok _ _ _ _ _ _ Hrf). rewrite Hparse.
  rewrite (try_bind_ok _ _ _ w _ _ (eq_refl : ret (Some entries) w = (Ok _, w))).
  rewrite (try_bind_ok _ _ _ _ _ _ Hnav).
  rewrite (try_bind_ok _ _ _ w1 _ _ (eq_refl : ret entries w1 = (Ok _, w1))).
  pose proof (before_null_all entries) as Hall.
  destruct (all_objects entries).
  - rewrite (try_bind_ok _ _ _ _ _ _ Hloop).
    unfold try_catch, bind, console, emit, drv_unit, drv.
    destruct (drv_fault E Refresh _).
    + exists (Log (MErrorLoadingCookies (DriverError Refresh)) :: Drv Refresh
              :: Log MCookiesLoaded :: evs ++ [Drv (Get "https://www.linkedin.com")])%list.
      cbn. rewrite Ht.
      assert (Hcs : rev (cookies_added (evs ++ [Drv (Get "https://www.linkedin.com")]))
                    = before_null entries)
        by (rewrite cookies_added_app, rev_app_distr; exact Hc).
      rewrite Hcs. split; [now rewrite <- app_assoc|].
      split; [reflexivity|]. split; [now apply Hall|].
      split; [right; now left | now right].
    + exists (Drv Refresh :: Log MCookiesLoaded
              :: evs ++ [Drv (Get "https://www.linkedin.com")])%list.
      cbn. rewrite Ht.
      assert (Hcs : rev (cookies_added (evs ++ [Drv (Get "https://www.linkedin.com")]))
                    = before_null entries)
        by (rewrite cookies_added_app, rev_app_distr; exact Hc).
      rewrite Hcs. split; [now rewrite <- app_assoc|].
      split; [reflexivity|]. split; [now apply Hall|].
      split; [now left | now left].
  - unfold try_catch, bind. rewrite Hloop. cbn.
    exists (Log (MErrorLoadingCookies TypeError)
            :: evs ++ [Drv (Get "https://www.linkedin.com")])%list.
    rewrite Ht. split; [cbn; now rewrite <- app_assoc|]. split.
    + cbn. rewrite cookies_added_app, rev_app_distr. exact Hc.
    + split; [|reflexivity].
      intros [H|H]; [discriminate|].
      apply in_app_or in H as [H|[H|[]]]; [now apply Hnr | discriminate].
Qed.

Lemma loadCookies_offers_every_cookie_witness :
  exists evs,
    trace (snd (loadCookies no_cookie_env ChromeDriver two_cookies))
    = (evs ++ trace two_cookies)%list /\
    rev (cookies_added evs) = [li_at; jsessionid] /\
    map Some (rev (cookies_added evs)) = [Some li_at; Some jsessionid] /\
    In (Drv Refresh) evs /\
    (fst (loadCookies no_cookie_env ChromeDriver two_cookies) = Ok tt \/
     fst (loadCookies no_cookie_env ChromeDriver two_cookies)
     = Throw (DriverError Refresh)).
Proof.
  apply (loadCookies_offers_every_cookie no_cookie_env ChromeDriver two_cookies
           (json_cookies [li_at; jsessionid]) [Some li_at; Some jsessionid]);
    reflexivity.
Defined.

(** A store with a [null] between two cookies: the first cookie is
    handed over (and rejected by this browser), the second never is,
    and the function ends with the TypeError. *)
Example loadCookies_null_entry :
  loadCookies no_cookie_env ChromeDriver two_cookies_and_null =
  (Throw TypeError,
   mkWorld 1700000000000 None (Some json_with_null) None
           [Log (MErrorLoadingCookies TypeError);
            Log (MCouldNotAddCookie "li_at" (DriverError (AddCookie li_at)));
            Drv (AddCookie li_at);
            Drv (Get "https://www.linkedin.com")]).
Proof. vm_compute. reflexivity. Qed.

Lemma bind_inv {A B} (m : M A) (k : A -> M B) (w : World) (b : B) (w' : World) :
  bind m k w = (Ok b, w') ->
  exists a w1, m w = (Ok a, w1) /\ k a w1 = (Ok b, w').
Proof.
  unfold bind. destruct (m w) as [[a|e|] w1]; intros H; try discriminate.
  now exists a, w1.
Qed.

Lemma bind_tail {A B} (m : M A) (k : A -> M B) (w : World) (b : B) (w' : World) :
  bind m k w = (Ok b, w') -> exists a w1, k a w1 = (Ok b, w').
Proof.
  intros H. apply bind_inv in H as (a & w1 & _ & H). now exists a, w1.
Qed.

Lemma step_frame {A} (m : M A) (w0 w w1 : World) (a : A) :
  tame m -> frame w0 w -> m w = (Ok a, w1) -> frame w0 w1.
Proof.
  intros T F H. apply (frame_trans _ _ _ F).
  pose proof (proj2 (T w)) as F1. now rewrite H in F1.
Qed.

(** A successful credential login has saved the session: when
    loginToLinkedIn returns [true], its last five events are the call
    of [getCookies], the write of the cookie file, two console lines
    and the sleep of the driver; what was written is the JSON text of
    the very cookies that the call returned, and the cookie file holds
    that text on return. *)
Theorem loginToLinkedIn_saves_session (E : Env) (driver : Driver) (w w' : World) :
  loginToLinkedIn E driver w = (Ok true, w') ->
  exists w0 evs,
    trace w0 = (evs ++ trace w)%list /\
    cookiesFile w' = Some (JSON_stringify E (drv_cookies E w0)) /\
    trace w' =
    Drv (DriverSleep 3000)
    :: Log (MTotalCookies (List.length (drv_cookies E w0)))
    :: Log MCookiesSaved
    :: Fs (WriteFile COOKIES_FILE (JSON_stringify E (drv_cookies E w0)))
    :: Drv GetCookies :: trace w0.
Proof.
  unfold loginToLinkedIn. intros H.
  assert (Hbody : exists w0 cookies w1,
             frame w w0 /\
             drv E GetCookies (drv_cookies E) w0 = (Ok cookies, w1) /\
             (writeFile E COOKIES_FILE (JSON_stringify E cookies) ;;;
              console MCookiesSaved ;;;
              console (MTotalCookies (List.length cookies)) ;;;
              drv_unit E (DriverSleep 3000) ;;;
              ret true) w1 = (Ok true, w')).
  { unfold try_catch in H.
    match type of H with
    | match ?body w with _ => _ end = _ =>
        destruct (body w) as [[b|e|] wb] eqn:Hb; [|discriminate..]
    end.
    injection H as -> ->.
    pose proof (frame_refl w) as F.
    do 12 (apply bind_inv in Hb as (? & ? & Hs & Hb);
           eapply step_frame in Hs;
           [ | first [exact F | apply tame_drv_element | apply tame_waitUrl
                     | solve [tame]] ..];
           clear F; rename Hs into F).
    apply bind_inv in Hb as (cookies & w1 & Hget & Hb).
    eauto 10. }
  destruct Hbody as (w0 & cookies & w1 & [_ (evs & Hev & _)] & Hget & Hrest).
  exists w0, evs. split; [exact Hev|].
  unfold drv in Hget. destruct (drv_fault E GetCookies w0); [discriminate|].
  injection Hget as <- <-.
  apply bind_inv in Hrest as ([] & w2 & Hwrite & Hrest).
  unfold writeFile, fs_write in Hwrite.
  destruct (fs_fault E _ _); [discriminate|]. injection Hwrite as <-.
  unfold bind, console, emit, drv_unit, drv, ret in Hrest.
  destruct (drv_fault E (DriverSleep 3000) _); [discriminate|].
  injection Hrest as <-. split; reflexivity.
Qed.

Lemma loginToLinkedIn_saves_session_witness :
  exists w0 evs,
    trace w0 = (evs ++ trace first_run)%list /\
    cookiesFile (snd (loginToLinkedIn login_env ChromeDriver first_run))
    = Some (JSON_stringify login_env (drv_cookies login_env w0)) /\
    trace (snd (loginToLinkedIn login_env ChromeDriver first_run)) =
    Drv (DriverSleep 3000)
    :: Log (MTotalCookies (List.length (drv_cookies login_env w0)))
    :: Log MCookiesSaved
    :: Fs (WriteFile COOKIES_FILE (JSON_stringify login_env (drv_cookies login_env w0)))
    :: Drv GetCookies :: trace w0.
Proof.
  apply (loginToLinkedIn_saves_session login_env ChromeDriver first_run).
  vm_compute. reflexivity.
Defined.

(** The store that the login of the scenario leaves is the store that
    the next run reads back. *)
Example login_env_store :
  cookiesFile (snd (loginToLinkedIn login_env ChromeDriver first_run))
  = Some (json_cookies [li_at]) /\
  JSON_parse login_env (json_cookies [li_at]) = Some (Some [Some li_at]).
Proof. split; vm_compute; reflexivity. Qed.

(** ** main: the paths without targets *)

Lemma frame_In (w w' : World) (ev : Event) :
  frame w w' -> In ev (trace w) -> In ev (trace w').
Proof.
  intros [_ (evs & -> & _)] H. apply in_or_app. now right.
Qed.

(** A failed login ends the run: when getDriver gave a browser and
    loginWithSavedCookies did not return [true], main writes
    [Login failed], sleeps five seconds and quits, and no round of the
    target loop was started. *)
Theorem main_login_failure_is_fatal (E : Env) (w : World) :
  fst (getDriver E (snd (ensureDownloadFolder E w))) = Ok (Some ChromeDriver) ->
  fst (loginWithSavedCookies E ChromeDriver
         (snd (getDriver E (snd (ensureDownloadFolder E w))))) <> Ok (Some true) ->
  exists evs,
    trace (snd (main E w))
    = (Drv Quit :: Slept 5000 :: Log MLoginFailed :: evs ++ trace w)%list /\
    urls_seen evs = [].
Proof.
  intros Hdrv Hlogin.
  destruct (main_runs E w) as (w1 & od & w2 & H1 & F1 & H2 & F2 & Hrest).
  rewrite H1 in Hdrv, Hlogin. cbn [snd] in Hdrv, Hlogin.
  rewrite H2 in Hdrv, Hlogin. cbn [fst snd] in Hdrv, Hlogin.
  injection Hdrv as ->.
  destruct Hrest as (isLogged & w3 & H3 & F3 & Hmain).
  rewrite H3 in Hlogin. cbn [fst] in Hlogin.
  destruct (frame_trans _ _ _ (frame_trans _ _ _ F1 F2) F3) as [_ (evs & Hev & Hs)].
  exists evs. split; [|exact Hs].
  assert (Hm : main E w = quitAfter E (push (Log MLoginFailed) w3))
    by (destruct isLogged as [[|]|]; [contradiction | exact Hmain | exact Hmain]).
  rewrite Hm. destruct (quitAfter_quits E (push (Log MLoginFailed) w3)) as [_ ->].
  cbn [push trace]. now rewrite Hev.
Qed.

Lemma main_login_failure_is_fatal_witness :
  exists evs,
    trace (snd (main first_run_env first_run))
    = (Drv Quit :: Slept 5000 :: Log MLoginFailed :: evs ++ trace first_run)%list /\
    urls_seen evs = [].
Proof.
  apply main_login_failure_is_fatal.
  - vm_compute. reflexivity.
  - vm_compute. discriminate.
Defined.

Lemma ensureDownloadFolder_events (E : Env) (w : World) :
  exists evs, trace (snd (ensureDownloadFolder E w)) = (evs ++ trace w)%list /\
              forall c, ~ In (Drv c) evs.
Proof.
  unfold ensureDownloadFolder, try_catch, bind, mkdir, fs_write, console, emit.
  destruct (fs_fault E (Mkdir DOWNLOAD_FOLDER) w).
  - exists [Log MFolderExists; Fs (Mkdir DOWNLOAD_FOLDER)]. split; [reflexivity|].
    intros c [H|[H|[]]]; discriminate.
  - exists [Log MDownloadFolder; Fs (Mkdir DOWNLOAD_FOLDER)].
    cbn [push folder]. split; [now destruct (folder w)|].
    intros c [H|[H|[]]]; discriminate.
Qed.

(** Without a browser there is nothing to close: when the build of
    the driver fails, main returns after its console line, and the
    request for the build is the only call to the driver of the whole
    run; in particular nothing is quit. *)
Theorem main_without_browser (E : Env) (w : World) :
  drv_fault E Build (snd (ensureDownloadFolder E w)) = true ->
  fst (main E w) = Ok tt /\
  exists evs, trace (snd (main E w)) = (evs ++ trace w)%list /\
              In (Log MFailedToCreateDriver) evs /\
              forall c, In (Drv c) evs -> c = Build.
Proof.
  intros Hfault.
  destruct (main_runs E w) as (w1 & od & w2 & H1 & _ & H2 & _ & Hrest).
  rewrite H1 in Hfault. cbn [snd] in Hfault.
  destruct (ensureDownloadFolder_events E w) as (e1 & He1 & Hno).
  rewrite H1 in He1. cbn [snd] in He1.
  unfold getDriver, try_catch, bind, drv_unit, drv in H2. rewrite Hfault in H2.
  cbn in H2. injection H2 as <- <-.
  rewrite Hrest. split; [reflexivity|]. cbn [snd push trace elapse]. rewrite He1.
  exists (Log MFailedToCreateDriver :: Log (MErrorGettingDriver (DriverError Build))
          :: Drv Build :: e1).
  split; [reflexivity|]. split; [now left|].
  intros c [H|[H|[H|H]]]; [discriminate | discriminate | now injection H |].
  now apply Hno in H.
Qed.

Lemma main_without_browser_witness :
  fst (main no_browser_env first_run) = Ok tt /\
  exists evs,
    trace (snd (main no_browser_env first_run)) = (evs ++ trace first_run)%list /\
    In (Log MFailedToCreateDriver) evs /\
    forall c, In (Drv c) evs -> c = Build.
Proof.
  apply main_without_browser. reflexivity.
Defined.

(** ** The artifact *)

Lemma statAll_names (E : Env) (names : list string) (w w' : World) (stats : list PdfStat) :
  statAll E names w = (Ok stats, w') -> map name stats = names.
Proof.
  unfold statAll. revert w w' stats; induction names as [|f names IH];
    intros w w' stats H.
  - injection H as <- _. reflexivity.
  - cbn [mapM] in H. apply bind_inv in H as (s & w1 & Hs & H).
    apply bind_inv in H as (ss & w2 & Hss & H). injection H as <- _.
    apply bind_inv in Hs as (t & w0 & _ & Hs). injection Hs as <- _.
    cbn [map name]. now rewrite (IH _ _ _ Hss).
Qed.

Lemma pollDownload_Some (E : Env) (w : World) (f : string) :
  fst (pollDownload E w) = Ok (Some f) -> In f (candidates w).
Proof.
  unfold pollDownload, try_catch. intros H.
  match type of H with
  | fst (match ?body w with _ => _ end) = _ =>
      destruct (body w) as [[r|e|] wb] eqn:Hb; [|discriminate..]
  end.
  cbn [fst] in H. injection H as ->.
  apply bind_inv in Hb as (files & w0 & Hdir & Hb).
  assert (Hfiles : w0 = w /\ candidates w = filter isPdf files).
  { unfold readdir, fs_read, candidates in *.
    destruct (fs_fault E _ w); [discriminate|].
    destruct (folder w) as [d|]; [|discriminate].
    cbn in Hdir. now injection Hdir as <- <-. }
  destruct Hfiles as [-> ->].
  destruct (0 <? _)%nat; [|discriminate].
  apply bind_inv in Hb as (stats & w1 & Hstat & Hb).
  destruct (sortStats stats) as [|first rest] eqn:Hsort; [discriminate|].
  injection Hb as <- _.
  rewrite <- (statAll_names _ _ _ _ _ Hstat). apply in_map.
  apply (Permutation_in _ (Permutation_sym (sortStats_perm stats))).
  rewrite Hsort. now left.
Qed.

Lemma waitLoop_outcome (E : Env) (fuel : nat) (timeout startTime : Z) (w : World) :
  timeout - (now w - startTime) <= 500 * Z.of_nat fuel ->
  exists n r,
    waitLoop E fuel timeout startTime w = (Ok r, Nat.iter n (idle E) w) /\
    trace (Nat.iter n (idle E) w) = (repeat (Slept 500) n ++ trace w)%list /\
    (forall k, (k < n)%nat ->
               now (Nat.iter k (idle E) w) - startTime < timeout /\
               fst (pollDownload E (Nat.iter k (idle E) w)) = Ok None) /\
    match r with
    | Some f => fst (pollDownload E (Nat.iter n (idle E) w)) = Ok (Some f) /\
                now (Nat.iter n (idle E) w) - startTime < timeout
    | None => timeout <= now (Nat.iter n (idle E) w) - startTime
    end.
Proof.
  revert w; induction fuel as [|fuel IH]; intros w Hfuel.
  - exists 0%nat, None. change (Nat.iter 0 (idle E) w) with w.
    rewrite waitLoop_done by lia.
    split; [reflexivity|]. split; [reflexivity|]. split; [intros k Hk; lia | lia].
  - destruct (Z.lt_ge_cases (now w - startTime) timeout) as [Hlt|Hge].
    + rewrite (waitLoop_round _ _ _ _ _ Hlt).
      destruct (safe_pollDownload E w) as [r Hr]. rewrite Hr.
      destruct r as [f|].
      * exists 0%nat, (Some f). change (Nat.iter 0 (idle E) w) with w.
        split; [reflexivity|]. split; [reflexivity|].
        split; [intros k Hk; lia|]. split; [exact Hr | exact Hlt].
      * pose proof (now_idle E w).
        destruct (IH (idle E w)) as (n & r & Hrun & Htrace & Hbefore & Hres); [lia|].
        exists (S n), r. rewrite Nat.iter_succ_r.
        split; [exact Hrun|]. split; [|split].
        -- rewrite Htrace, trace_idle. cbn [repeat]. apply repeat_snoc.
        -- intros [|k] Hk; [split; [exact Hlt | exact Hr]|].
           rewrite Nat.iter_succ_r. apply Hbefore. lia.
        -- exact Hres.
    + exists 0%nat, None. change (Nat.iter 0 (idle E) w) with w.
      rewrite waitLoop_done by lia.
      split; [reflexivity|]. split; [reflexivity|]. split; [intros k Hk; lia | lia].
Qed.

(** What waitForDownload does in every environment.  It returns, at
    the first round of its loop that finds an entry or at the first
    round that begins when the time is up: the [n] rounds before found
    nothing, each began before the time was up, and each was followed
    by a sleep of 500 ms and by nothing else, so that there are at most
    [timeout / 500 + 1] of them.  A name is returned by the round that
    found it, at once; it is a qualifying entry of the folder as it is
    then.  [null] is returned only once the time is up. *)
Theorem waitForDownload_outcome (E : Env) (timeout : Z) (w : World) :
  exists n r,
    waitForDownload E timeout w = (Ok r, Nat.iter n (idle E) w) /\
    trace (Nat.iter n (idle E) w) = (repeat (Slept 500) n ++ trace w)%list /\
    (n = 0%nat \/ 500 * Z.of_nat n < timeout + 500) /\
    (forall k, (k < n)%nat ->
               now (Nat.iter k (idle E) w) - now w < timeout /\
               fst (pollDownload E (Nat.iter k (idle E) w)) = Ok None) /\
    match r with
    | Some f => fst (pollDownload E (Nat.iter n (idle E) w)) = Ok (Some f) /\
                In f (candidates (Nat.iter n (idle E) w)) /\
                isPdf f = true /\
                now (Nat.iter n (idle E) w) - now w < timeout
    | None => timeout <= now (Nat.iter n (idle E) w) - now w
    end.
Proof.
  destruct (waitLoop_outcome E (Z.to_nat (timeout / 500) + 1) timeout (now w) w)
    as (n & r & Hrun & Htrace & Hbefore & Hres).
  { pose proof (fuel_enough timeout). lia. }
  exists n, r. rewrite waitForDownload_unfold.
  split; [exact Hrun|]. split; [exact Htrace|]. split; [|split; [exact Hbefore|]].
  - destruct n as [|n]; [now left | right].
    destruct (Hbefore n (Nat.lt_succ_diag_r n)) as [Hn _].
    pose proof (now_iter_idle E n w). lia.
  - destruct r as [f|]; [|exact Hres]. destruct Hres as [Hfound Hlt].
    pose proof (pollDownload_Some E _ f Hfound) as Hin.
    split; [exact Hfound|]. split; [exact Hin|]. split; [|exact Hlt].
    unfold candidates in Hin. destruct (folder _); [|contradiction].
    now apply filter_In in Hin.
Qed.

(** A round of the loop, in a folder that can be listed and
    inspected: it finds nothing when there is no qualifying entry. *)
Example waitForDownload_second_round :
  fst (pollDownload no_credentials_env export_pending) = Ok None /\
  fst (pollDownload no_credentials_env (idle no_credentials_env export_pending))
  = Ok (Some "Profile.pdf").
Proof. split; vm_compute; reflexivity. Qed.

Lemma rename_outcome (E : Env) (src dst : Path) (w : World) :
  fst (rename E src dst w) = Ok tt \/
  (fst (rename E src dst w) = Throw (FsError (Rename src dst)) /\
   folder (snd (rename E src dst w)) = folder w).
Proof.
  unfold rename, fs_write. destruct (fs_fault E _ w); [now right|].
  destruct (match src with InFolder _ => _ | _ => _ end); [now left | now right].
Qed.

(** The naming block either returns [true] or throws with the folder
    as it found it. *)
Lemma moveIntoPlace_outcome (E : Env) (profileId : string) (first : PdfStat) (w : World) :
  fst (moveIntoPlace E profileId first w) = Ok true \/
  ((exists e, fst (moveIntoPlace E profileId first w) = Throw e) /\
   folder (snd (moveIntoPlace E profileId first w)) = folder w).
Proof.
  set (src := InFolder (name first)).
  set (new := profileId ++ ".pdf").
  set (fb := rename E src (InFolder new) ;;; console (MRenamedTo new) ;;; ret true).
  assert (Hfb : forall w0, folder w0 = folder w ->
             fst (fb w0) = Ok true \/
             ((exists e, fst (fb w0) = Throw e) /\ folder (snd (fb w0)) = folder w)).
  { intros w0 H0.
    assert (Heq : fb w0 = match rename E src (InFolder new) w0 with
                          | (Ok _, w1) => (Ok true, push (Log (MRenamedTo new)) w1)
                          | (Throw e, w1) => (Throw e, w1)
                          | (Diverge, w1) => (Diverge, w1)
                          end)
      by (unfold fb, bind; now destruct (rename E src (InFolder new) w0) as [[[]|e|] w1]).
    rewrite Heq.
    destruct (rename_outcome E src (InFolder new) w0) as [Hok | [Hthrow Hf]];
      destruct (rename E src (InFolder new) w0) as [r w1]; cbn [fst snd] in *; subst r;
      cbv beta iota; cbn [fst snd].
    - now left.
    - right. split; [now eexists | congruence]. }
  set (w1 := push (Log (MAlreadyExists new)) w).
  set (ts := profileId ++ "_" ++ decimal (now w1) ++ ".pdf").
  assert (Heq : moveIntoPlace E profileId first w =
                match access E (InFolder new) w with
                | (Ok _, _) =>
                    match rename E src (InFolder ts) w1 with
                    | (Ok _, w2) => (Ok true, push (Log (MRenamedTo ts)) w2)
                    | (Throw _, w2) => fb w2
                    | (Diverge, w2) => (Diverge, w2)
                    end
                | (Throw _, _) => fb w
                | (Diverge, _) => (Diverge, w)
                end).
  { unfold moveIntoPlace, try_catch. cbv zeta. fold src new fb. unfold bind at 1.
    pose proof (reads_access E (InFolder new) w) as Hrd.
    destruct (access E (InFolder new) w) as [[[]|e|] w0]; cbn [snd] in Hrd; subst w0;
      [|reflexivity..].
    unfold bind at 1. cbn [console emit]. unfold bind at 1. cbn [dateNow].
    fold w1 ts. unfold bind at 1.
    now destruct (rename E src (InFolder ts) w1) as [[[]|e|] w2]. }
  rewrite Heq. clear Heq.
  pose proof (proj1 (tame_access E (InFolder new) w)) as Hd.
  destruct (access E (InFolder new) w) as [[[]|e|] w0]; cbn [fst] in Hd;
    [|now apply Hfb | contradiction].
  destruct (rename_outcome E src (InFolder ts) w1) as [Hok | [Hthrow Hf]];
    destruct (rename E src (InFolder ts) w1) as [r w2]; cbn [fst snd] in *; subst r;
    cbv beta iota; cbn [fst snd].
  - now left.
  - apply Hfb. now rewrite Hf.
Qed.

Lemma true_or_untouched_bind {A} (m : M A) (k : A -> M bool) :
  reads m -> tame m -> (forall a, true_or_untouched (k a)) ->
  true_or_untouched (bind m k).
Proof.
  intros Hr Ht Hk w. unfold bind. specialize (Hr w). destruct (Ht w) as [Hd _].
  destruct (m w) as [[a|e|] w0]; cbn [fst snd] in *; subst w0.
  - apply Hk.
  - right. split; [discriminate | reflexivity].
  - contradiction.
Qed.

Lemma true_or_untouched_claim (E : Env) (profileId : string) :
  true_or_untouched
    (files <- readdir E DOWNLOAD_FOLDER ;;
     if (List.length (filter isPdf files) =? 0)%nat
     then console MNoPdfToRename ;;; ret false
     else
       pdfStats <- statAll E (filter isPdf files) ;;
       match sortStats pdfStats with
       | [] => throw TypeError
       | mostRecentPdf :: _ => moveIntoPlace E profileId mostRecentPdf
       end).
Proof.
  apply true_or_untouched_bind; [apply reads_fs_read | apply tame_readdir | intros files].
  destruct (List.length (filter isPdf files) =? 0)%nat.
  { intros w. right. split; [discriminate | reflexivity]. }
  apply true_or_untouched_bind; [apply reads_statAll | apply tame_statAll | intros stats].
  destruct (sortStats stats) as [|first rest].
  { intros w. right. split; [discriminate | reflexivity]. }
  intros w. destruct (moveIntoPlace_outcome E profileId first w) as [Hok | [[e He] Hf]];
    [now left | right].
  split; [rewrite He; discriminate | exact Hf].
Qed.

(** renameDownloadedPdf never throws, and when it returns [false]
    (no export in the folder, the folder unreadable, every rename
    refused) the folder is as it was: a claim that fails leaves the
    artifact in place. *)
Theorem renameDownloadedPdf_failure_keeps_folder
        (E : Env) (profileId : string) (w : World) :
  exists b w', renameDownloadedPdf E profileId w = (Ok b, w') /\
               (b = false -> folder w' = folder w).
Proof.
  unfold renameDownloadedPdf, try_catch.
  pose proof (true_or_untouched_claim E profileId w) as Hbody.
  match type of Hbody with
  | fst (?body w) = _ \/ _ => destruct (body w) as [[b|e|] w1]
  end; cbn [fst snd] in Hbody.
  - exists b, w1. split; [reflexivity|]. intros ->.
    destruct Hbody as [H | [_ H]]; [discriminate | exact H].
  - exists false, (push (Log (MErrorRenaming e)) w1). split; [reflexivity|]. intros _.
    destruct Hbody as [H | [_ H]]; [discriminate | exact H].
  - destruct Hbody as [H | [H _]]; [discriminate | contradiction].
Qed.

(** Claiming an artifact under a free name: in a listable folder with
    distinct names that holds a qualifying entry but none called
    [<profileId>.pdf], with the time stamps of the qualifying entries
    within the range of [Date] and with the rename not refused,
    renameDownloadedPdf returns [true]; the latest qualifying entry is
    then called [<profileId>.pdf], with its time and contents, and every
    other entry is in the folder as before. *)
Theorem renameDownloadedPdf_claims_free_name
        (E : Env) (profileId : string) (w : World) (d : list file) :
  folder w = Some d -> NoDup (map fname d) -> dated d -> readable E w ->
  candidates w <> [] ->
  lookup (profileId ++ ".pdf") d = None ->
  (forall n, fs_fault E (Rename (InFolder n) (InFolder (profileId ++ ".pdf"))) w = false) ->
  exists f d',
    latest d f /\
    fst (renameDownloadedPdf E profileId w) = Ok true /\
    folder (snd (renameDownloadedPdf E profileId w)) = Some d' /\
    In (mkFile (profileId ++ ".pdf") (mtime f) (fdata f)) d' /\
    forall g, In g d -> fname g <> fname f -> In g d'.
Proof.
  intros Hfolder Hnd Hdated Hreadable Hcand Hfree Hren.
  destruct (selected_Some w d Hfolder Hcand) as [n Hsel].
  destruct (selected_latest d n Hnd Hdated Hsel) as (f & Hfn & Hlatest).
  assert (Hlook : lookup n d = Some f)
    by (rewrite <- Hfn; apply lookup_NoDup; [exact Hnd | apply Hlatest]).
  assert (Hnew : n <> profileId ++ ".pdf") by (intros ->; congruence).
  exists f, (rename_entry n (profileId ++ ".pdf") d). split; [exact Hlatest|].
  assert (Hrun : renameDownloadedPdf E profileId w =
                 (Ok true,
                  push (Log (MRenamedTo (profileId ++ ".pdf")))
                    (set_folder (Some (rename_entry n (profileId ++ ".pdf") d))
                       (push (Fs (Rename (InFolder n) (InFolder (profileId ++ ".pdf"))))
                             w)))).
  { unfold renameDownloadedPdf, try_catch.
    rewrite (bind_ok _ _ _ _ _ (readdir_readable E w d Hfolder Hreadable)).
    unfold candidates in Hcand. rewrite Hfolder in Hcand.
    destruct (filter isPdf (map fname d)) as [|f0 names] eqn:Hnames; [contradiction|].
    cbn [List.length Nat.eqb]. rewrite <- Hnames.
    rewrite (bind_ok _ _ _ _ _ (statAll_candidates E w d Hfolder Hreadable)).
    unfold selected in Hsel.
    destruct (sortStats _) as [|first rest]; [discriminate|]. injection Hsel as Hfirst.
    unfold moveIntoPlace, try_catch, bind, access, fs_read, console, emit, dateNow,
      rename, fs_write. cbv zeta.
    rewrite Hfolder, Hfree, Hfirst. cbn [option_map].
    destruct (fs_fault E (Access _) w); cbv beta iota;
      rewrite (Hren n); cbn [push folder]; rewrite Hfolder, Hlook; reflexivity. }
  rewrite Hrun. cbn [fst snd push set_folder folder].
  split; [reflexivity|]. split; [reflexivity|].
  unfold rename_entry. destruct (String.eqb_spec n (profileId ++ ".pdf")); [contradiction|].
  assert (Hkeep : forall g, In g d ->
                    In g (filter (fun x => negb (fname x =? profileId ++ ".pdf")%string) d)).
  { intros g Hg. apply filter_In. split; [exact Hg|].
    destruct (String.eqb_spec (fname g) (profileId ++ ".pdf")) as [Heq|]; [|reflexivity].
    exfalso. pose proof (lookup_NoDup d g Hnd Hg) as Hl. rewrite Heq in Hl. congruence. }
  split.
  - apply in_map_iff. exists f. split; [|apply Hkeep, Hlatest].
    rewrite Hfn, String.eqb_refl. reflexivity.
  - intros g Hg Hne. apply in_map_iff. exists g. split; [|now apply Hkeep].
    destruct (String.eqb_spec (fname g) n); [congruence | reflexivity].
Qed.

Lemma renameDownloadedPdf_claims_free_name_witness :
  exists f d',
    latest [mkFile "Profile.pdf" 4000 "export of jane-smith";
            mkFile "Profile (1).pdf.crdownload" 6000 "partial"] f /\
    fst (renameDownloadedPdf first_run_env "jane-smith" fresh_export) = Ok true /\
    folder (snd (renameDownloadedPdf first_run_env "jane-smith" fresh_export)) = Some d' /\
    In (mkFile ("jane-smith" ++ ".pdf") (mtime f) (fdata f)) d' /\
    forall g, In g [mkFile "Profile.pdf" 4000 "export of jane-smith";
                    mkFile "Profile (1).pdf.crdownload" 6000 "partial"] ->
              fname g <> fname f -> In g d'.
Proof.
  apply renameDownloadedPdf_claims_free_name.
  - reflexivity.
  - repeat constructor; simpl; intuition discriminate.
  - intros f [<-|[<-|[]]] _; reflexivity.
  - split; reflexivity.
  - discriminate.
  - reflexivity.
  - reflexivity.
Defined.

(** ** What the program never does *)

Section Only.

Variable p : Event -> bool.

Lemma only_ret {A} (a : A) : only p (ret a).
Proof. intros w. now exists []. Qed.

Lemma only_throw {A} (e : Err) : only p (@throw A e).
Proof. intros w. now exists []. Qed.

Lemma only_bind {A B} (m : M A) (k : A -> M B) :
  only p m -> (forall a, only p (k a)) -> only p (bind m k).
Proof.
  intros Hm Hk w. unfold bind. destruct (Hm w) as (e1 & H1 & P1).
  destruct (m w) as [[a|e|] w1]; cbn [snd] in *; [|now exists e1..].
  destruct (Hk a w1) as (e2 & H2 & P2). exists (e2 ++ e1)%list.
  rewrite H2, H1, app_assoc, forallb_app, P1, P2. now split.
Qed.

Lemma only_try {A} (m : M A) (h : Err -> M A) :
  only p m -> (forall e, only p (h e)) -> only p (try_catch m h).
Proof.
  intros Hm Hh w. unfold try_catch. destruct (Hm w) as (e1 & H1 & P1).
  destruct (m w) as [[a|e|] w1]; cbn [snd] in *; [now exists e1| |now exists e1].
  destruct (Hh e w1) as (e2 & H2 & P2). exists (e2 ++ e1)%list.
  rewrite H2, H1, app_assoc, forallb_app, P1, P2. now split.
Qed.

Lemma only_console (m : Msg) : p (Log m) = true -> only p (console m).
Proof. intros H w. exists [Log m]. cbn. now rewrite H. Qed.

Lemma only_dateNow : only p dateNow.
Proof. intros w. now exists []. Qed.

Lemma only_sleep (E : Env) (ms : Z) : p (Slept ms) = true -> only p (sleep E ms).
Proof. intros H w. exists [Slept ms]. cbn. now rewrite H. Qed.

Lemma only_drv {A} (E : Env) (c : DrvCall) (answer : World -> A) :
  p (Drv c) = true -> only p (drv E c answer).
Proof.
  intros H w. exists [Drv c]. unfold drv.
  destruct (drv_fault E c w); cbn; now rewrite H.
Qed.

Lemma only_fs_read {A} (E : Env) (c : FsCall) (answer : World -> option A) :
  only p (fs_read E c answer).
Proof. intros w. exists []. now rewrite (reads_fs_read E c answer w). Qed.

Lemma only_fs_write (E : Env) (c : FsCall) (effect : World -> option World) :
  p (Fs c) = true ->
  (forall w w', effect w = Some w' -> trace w' = trace w) ->
  only p (fs_write E c effect).
Proof.
  intros H He w. exists [Fs c]. unfold fs_write.
  destruct (fs_fault E c w); [cbn; now rewrite H|].
  destruct (effect (push (Fs c) w)) as [w'|] eqn:Hw; cbn; rewrite H; [|now split].
  now rewrite (He _ _ Hw).
Qed.

Lemma only_forEach {A} (l : list A) (f : A -> M unit) :
  (forall x, only p (f x)) -> only p (forEach l f).
Proof.
  intros Hf. induction l as [|x l IH]; cbn [forEach].
  - apply only_ret.
  - apply only_bind; [apply Hf | intros _; exact IH].
Qed.

Lemma only_mapM {A B} (f : A -> M B) (l : list A) :
  (forall x, only p (f x)) -> only p (mapM f l).
Proof.
  intros Hf. induction l as [|x l IH]; cbn [mapM].
  - apply only_ret.
  - apply only_bind; [apply Hf | intros y].
    apply only_bind; [exact IH | intros ys; apply only_ret].
Qed.

End Only.

(** One step of the proof that a computation adds only events that
    satisfy the predicate; what is left are the events themselves. *)
Ltac only_step :=
  match goal with
  | |- only _ (bind _ _) => apply only_bind; [|intro]
  | |- only _ (try_catch _ _) => apply only_try; [|intro]
  | |- only _ (ret _) => apply only_ret
  | |- only _ (throw _) => apply only_throw
  | |- only _ (console _) => apply only_console; reflexivity
  | |- only _ (sleep _ _) => apply only_sleep; reflexivity
  | |- only _ dateNow => apply only_dateNow
  | |- only _ (drv _ _ _) => apply only_drv
  | |- only _ (drv_unit _ _) => apply only_drv
  | |- only _ (drv_element _ _) => unfold drv_element
  | |- only _ (fs_read _ _ _) => apply only_fs_read
  | |- only _ (readFile _ _) => apply only_fs_read
  | |- only _ (readdir _ _) => apply only_fs_read
  | |- only _ (stat_mtime _ _) => apply only_fs_read
  | |- only _ (access _ _) => apply only_fs_read
  | |- only _ (forEach _ _) => apply only_forEach; intro
  | |- only _ (mapM _ _) => apply only_mapM; intro
  | |- only _ (match ?x with _ => _ end) => destruct x
  | |- only _ _ => assumption
  end.

Ltac only_tac := repeat only_step.

(** The loop adds what its rounds add. *)
Lemma only_proccessProfiles_rounds (p : Event -> bool) (E : Env) (driver : Driver) :
  (forall m, p (Log m) = true) ->
  (forall url id, extractProfileId url = Some id -> only p (exportProfile E url id)) ->
  only p (proccessProfiles E driver).
Proof.
  intros p_log Hround.
  assert (Hlog : forall m, only p (console m))
    by (intros m; apply only_console, p_log).
  unfold proccessProfiles, getProfileURLs.
  apply only_bind.
  - apply only_try; [|intros e; apply only_bind; [apply Hlog | intros _; apply only_ret]].
    apply only_bind; [apply only_fs_read | intros text].
    apply only_bind; [apply Hlog | intros _; apply only_ret].
  - intros URLs. generalize (List.length URLs), 0%nat.
    induction URLs as [|raw rest IH]; intros n i; cbn [profilesLoop]; [apply only_ret|].
    apply only_bind; [|intros _; apply IH].
    unfold processProfile. cbv zeta.
    destruct (negb (truthy (trim raw))); [apply only_ret|].
    destruct (extractProfileId (trim raw)) as [id|] eqn:Hid; [|apply Hlog].
    destruct (negb (truthy id)); [apply Hlog|].
    apply only_bind; [apply Hlog | intros _].
    apply only_bind; [apply Hlog | intros _].
    now apply (Hround _ id).
Qed.

Section OnlyProgram.

Variable p : Event -> bool.
Variable E : Env.

(** The events of the kinds the program issues wherever it is. *)
Hypothesis p_sleep : forall ms, p (Slept ms) = true.
Hypothesis p_log : forall m, p (Log m) = true.
Hypothesis p_drv : forall c, (forall url, c <> Get url) -> p (Drv c) = true.
Hypothesis p_rename : forall a b, p (Fs (Rename (InFolder a) (InFolder b))) = true.
Hypothesis p_write : forall data, p (Fs (WriteFile COOKIES_FILE data)) = true.
Hypothesis p_mkdir : p (Fs (Mkdir DOWNLOAD_FOLDER)) = true.
Hypothesis p_pages :
  p (Drv (Get "https://www.linkedin.com/login")) = true /\
  p (Drv (Get "https://www.linkedin.com")) = true /\
  p (Drv (Get "https://www.linkedin.com/feed/")) = true.
Hypothesis p_target :
  forall url id, extractProfileId url = Some id -> p (Drv (Get url)) = true.

Ltac leaf :=
  first [ apply p_sleep | apply p_log | apply p_rename | apply p_write | apply p_mkdir
        | apply p_pages | apply p_drv; intros; discriminate ].

Ltac walk :=
  repeat first
    [ only_step
    | match goal with
      | |- only _ (console _) => apply only_console; leaf
      | |- only _ (sleep _ _) => apply only_sleep; leaf
      end
    | leaf ].

Lemma only_rename (a b : string) : only p (rename E (InFolder a) (InFolder b)).
Proof.
  apply only_fs_write; [apply p_rename|]. intros w w' H.
  cbn in H. destruct (folder w); [|discriminate].
  destruct (lookup a l); [|discriminate]. now injection H as <-.
Qed.

Lemma only_waitLoop (fuel : nat) (timeout startTime : Z) :
  only p (waitLoop E fuel timeout startTime).
Proof.
  induction fuel as [|fuel IH]; intros w; cbn [waitLoop];
    destruct (now w - startTime <? timeout); try now exists [].
  revert w. change (only p (found <- pollDownload E ;;
                            match found with
                            | Some f => ret (Some f)
                            | None => sleep E 500 ;;; waitLoop E fuel timeout startTime
                            end)).
  unfold pollDownload, statAll. walk.
Qed.

Lemma only_waitForDownload (timeout : Z) : only p (waitForDownload E timeout).
Proof. unfold waitForDownload. walk. apply only_waitLoop. Qed.

Lemma only_renameDownloadedPdf (profileId : string) :
  only p (renameDownloadedPdf E profileId).
Proof.
  unfold renameDownloadedPdf, moveIntoPlace, statAll. cbv zeta.
  walk; apply only_rename.
Qed.

Lemma only_exportProfile (url profileId : string) :
  p (Drv (Get url)) = true -> only p (exportProfile E url profileId).
Proof.
  intros Hurl. unfold exportProfile, savePdf, savePdfAlternative, claimDownload.
  walk; solve [exact Hurl | apply only_waitForDownload | apply only_renameDownloadedPdf].
Qed.

Lemma only_proccessProfiles (driver : Driver) : only p (proccessProfiles E driver).
Proof.
  apply only_proccessProfiles_rounds; [exact p_log|].
  intros url id Hid. apply only_exportProfile. exact (p_target _ _ Hid).
Qed.

Lemma only_main : only p (main E).
Proof.
  unfold main, ensureDownloadFolder, getDriver, loginWithSavedCookies, loadCookies,
    addCookieOrWarn, loginToLinkedIn, waitUrl.
  walk; try solve [apply only_proccessProfiles].
  - apply only_fs_write; [apply p_mkdir|]. intros w w' H. injection H as <-.
    now destruct (folder w).
  - apply only_fs_write; [apply p_write|]. intros w w' H. now injection H as <-.
Qed.

End OnlyProgram.

(** The program writes nowhere but where it is meant to: in every
    run of main, every write it asks of the file system is the writing
    of the cookie file, the creation of the download folder, or a
    rename of an entry of the download folder to a name in the same
    folder. *)
Theorem main_writes_only_its_files (E : Env) (w : World) :
  exists evs, trace (snd (main E w)) = (evs ++ trace w)%list /\
              forallb own_files evs = true.
Proof.
  apply (only_main own_files E).
  - reflexivity.
  - reflexivity.
  - reflexivity.
  - reflexivity.
  - reflexivity.
  - reflexivity.
  - repeat split.
  - reflexivity.
Qed.

(** The browser is sent nowhere but to the login page, the home page
    and the feed of the service, and to URLs of the target list in
    which an identifier was found: a target without one is never
    loaded. *)
Theorem main_navigates_only_to_known_pages (E : Env) (w : World) :
  exists evs, trace (snd (main E w)) = (evs ++ trace w)%list /\
              forallb known_page evs = true.
Proof.
  apply (only_main known_page E).
  - reflexivity.
  - reflexivity.
  - intros c Hc. destruct c; try reflexivity. now contradiction (Hc url).
  - reflexivity.
  - reflexivity.
  - reflexivity.
  - repeat split.
  - intros url id H. cbn [known_page]. rewrite H. now rewrite orb_true_r.
Qed.

(** Pages with fewer than two overflow buttons: when the browser never
    finds a second one, proccessProfiles skips every target.  It loads
    the page, waits, looks for the buttons and writes its console
    lines; it clicks nothing, runs no script and renames nothing. *)
Theorem proccessProfiles_skips_without_second_button
        (E : Env) (driver : Driver) (w : World) :
  (forall w0, nth_error (drv_elements E (FindElements overflowButtons) w0) 1 = None) ->
  exists evs, trace (snd (proccessProfiles E driver w)) = (evs ++ trace w)%list /\
              forallb looks_only evs = true.
Proof.
  intros Hfew. apply only_proccessProfiles_rounds; [reflexivity|].
  intros url id _. unfold exportProfile.
  apply only_try; [|intros e; now apply only_console].
  apply only_bind; [now apply only_drv | intros _].
  apply only_bind; [now apply only_sleep | intros _].
  intros w0. unfold bind, drv.
  destruct (drv_fault E (FindElements overflowButtons) w0).
  - now exists [Drv (FindElements overflowButtons)].
  - rewrite Hfew. now exists [Log MNoSecondOverflow; Drv (FindElements overflowButtons)].
Qed.

Lemma proccessProfiles_skips_without_second_button_witness :
  exists evs,
    trace (snd (proccessProfiles one_button_env ChromeDriver two_targets))
    = (evs ++ trace two_targets)%list /\
    forallb looks_only evs = true.
Proof.
  apply proccessProfiles_skips_without_second_button.
  intros w0. reflexivity.
Defined.

(** ** The two selectors *)

Lemma throws_within_bind (p : Event -> bool) {A B} (m : M A) (k : A -> M B) :
  only p m -> (forall a, throws_within p (k a)) -> throws_within p (bind m k).
Proof.
  intros Hm Hk w e w' H. unfold bind in H. destruct (Hm w) as (e1 & H1 & P1).
  destruct (m w) as [[a|e0|] w1]; cbn [snd] in H1.
  - destruct (Hk a w1 e w' H) as (e2 & H2 & P2). exists (e2 ++ e1)%list.
    rewrite H2, H1, app_assoc, forallb_app, P1, P2. now split.
  - injection H as <- <-. now exists e1.
  - discriminate.
Qed.

Lemma throws_within_safe (p : Event -> bool) {A} (m : M A) :
  safe m -> throws_within p m.
Proof. intros Hs w e w' H. destruct (Hs w) as [a Ha]. rewrite H in Ha. discriminate. Qed.

Lemma safe_claimDownload (E : Env) (profileId : string) (downloadedFile : option string) :
  safe (claimDownload E profileId downloadedFile).
Proof.
  unfold claimDownload. destruct downloadedFile as [f|]; [|apply safe_console].
  destruct (truthy f); [|apply safe_console].
  apply safe_bind; [apply safe_console | intros _].
  apply safe_bind; [apply safe_sleep | intros _].
  apply safe_bind; [apply safe_renameDownloadedPdf | intros _; exact (safe_ret _)].
Qed.

(** The alternative selector is a fallback for a failure before the
    download: when the primary sequence throws, it had not announced a
    download and had touched no file, for once the click on the menu
    item has gone through nothing in it throws any more. *)
Theorem savePdf_throws_before_download
        (E : Env) (secondOverflowAction : Elem) (profileId : string)
        (w : World) (e : Err) (w' : World) :
  savePdf E secondOverflowAction profileId w = (Throw e, w') ->
  exists evs, trace w' = (evs ++ trace w)%list /\ forallb before_download evs = true.
Proof.
  revert w e w'. change (throws_within before_download (savePdf E secondOverflowAction profileId)).
  unfold savePdf.
  apply throws_within_bind; [now apply only_console | intros _].
  apply throws_within_bind; [now apply only_drv | intros _].
  apply throws_within_bind; [now apply only_sleep | intros _].
  apply throws_within_bind; [|intros pdfButton].
  { unfold drv_element. apply only_bind; [now apply only_drv | intros l].
    destruct l; [apply only_throw | apply only_ret]. }
  apply throws_within_bind; [now apply only_console | intros _].
  apply throws_within_bind; [now apply only_drv | intros _].
  apply throws_within_safe.
  apply safe_bind; [apply safe_console | intros _].
  apply safe_bind; [apply waitForDownload_returns | intros f].
  apply safe_claimDownload.
Qed.

Lemma savePdf_throws_before_download_witness :
  exists evs,
    trace (snd (savePdf hostile_env 2%nat "jane-smith" first_run))
    = (evs ++ trace first_run)%list /\
    forallb before_download evs = true.
Proof.
  apply (savePdf_throws_before_download hostile_env 2%nat "jane-smith" first_run
           (DriverError (Click 2%nat))).
  vm_compute. reflexivity.
Defined.
(** ** The verdict of loginWithSavedCookies *)

Lemma step_only {A} (p : Event -> bool) (m : M A) (w0 w w1 : World) (r : Res A) :
  only p m -> within p w0 w -> m w = (r, w1) -> within p w0 w1.
Proof.
  intros Hm (e1 & H1 & P1) H. destruct (Hm w) as (e2 & H2 & P2).
  rewrite H in H2. cbn [snd] in H2. exists (e2 ++ e1)%list.
  rewrite H2, H1, app_assoc, forallb_app, P1, P2. now split.
Qed.

Lemma only_loadCookies_not_login (E : Env) (driver : Driver) :
  only not_login (loadCookies E driver).
Proof. unfold loadCookies, addCookieOrWarn. only_tac; reflexivity. Qed.

(** The verdict of loginWithSavedCookies, and when the credential
    login is run.  Either loginToLinkedIn was called, once: this is
    after the wait for the login form had found the form, nothing of
    the credential login had happened before, and the function returns
    what loginToLinkedIn returned, followed by one console line.  Or
    loginToLinkedIn was not called at all: then the function returned
    [true] because the wait for the form had failed, so that the
    restored session is taken for valid, or it returned [undefined]
    because restoring the session had thrown.  It never throws. *)
Theorem loginWithSavedCookies_verdict
        (E : Env) (driver : Driver) (w w' : World) (r : Res (option bool)) :
  loginWithSavedCookies E driver w = (r, w') ->
  (exists w0 evs b w1,
      trace w0 = (Drv (WaitLocated (ById "username") 10000) :: evs ++ trace w)%list /\
      forallb not_login evs = true /\
      loginToLinkedIn E driver (push (Log MNotLogged) w0) = (Ok b, w1) /\
      r = Ok (Some b) /\
      w' = push (Log (if b then MLoginSuccessful else MLoginFailed)) w1) \/
  (exists evs,
      trace w' = (evs ++ trace w)%list /\ forallb not_login evs = true /\
      ((r = Ok (Some true) /\
        exists evs', evs = Log MLoginSuccessful :: Log MLoginInputNotFound
                           :: Drv (WaitLocated (ById "username") 10000) :: evs') \/
       (r = Ok None /\ exists e evs', evs = Log (MError e) :: evs'))).
Proof.
  unfold loginWithSavedCookies. intros H.
  assert (Hhandler : forall e w1, within not_login w w1 ->
             (r, w') = (console (MError e) ;;; ret None) w1 ->
             exists evs,
               trace w' = (evs ++ trace w)%list /\ forallb not_login evs = true /\
               ((r = Ok (Some true) /\
                 exists evs', evs = Log MLoginSuccessful :: Log MLoginInputNotFound
                                    :: Drv (WaitLocated (ById "username") 10000) :: evs') \/
                (r = Ok None /\ exists e evs', evs = Log (MError e) :: evs'))).
  { intros e w1 (evs & Hev & Hp) Heq. cbn in Heq. injection Heq as -> ->.
    exists (Log (MError e) :: evs). cbn [push trace]. rewrite Hev.
    split; [reflexivity|]. split; [exact Hp|]. right. split; [reflexivity|]. eauto. }
  assert (W0 : within not_login w w) by now exists [].
  unfold try_catch at 1 in H. unfold bind at 1 in H.
  destruct (loadCookies E driver w) as [[[]|e|] w1] eqn:H1;
    pose proof (step_only _ _ _ _ _ _ (only_loadCookies_not_login E driver) W0 H1) as W1;
    [|right; now apply (Hhandler e w1)|].
  2:{ exfalso. pose proof (proj1 (tame_loadCookies E driver w)) as Hd.
      rewrite H1 in Hd. now apply Hd. }
  unfold bind at 1 in H.
  destruct (drv_unit E (Get "https://www.linkedin.com/feed/") w1) as [[[]|e|] w2] eqn:H2;
    pose proof (step_only not_login _ _ _ _ _
                  (only_drv not_login E _ _ eq_refl) W1 H2) as W2;
    [|right; now apply (Hhandler e w2)|].
  2:{ exfalso. unfold drv_unit, drv in H2. destruct (drv_fault E _ _); discriminate. }
  unfold bind at 1 in H. cbn [console emit] in H.
  assert (W3 : within not_login w (push (Log MTryingSavedCookies) w2)).
  { destruct W2 as (evs & Hev & Hp). exists (Log MTryingSavedCookies :: evs).
    cbn [push trace]. rewrite Hev. now split. }
  set (w3 := push (Log MTryingSavedCookies) w2) in *.
  unfold bind at 1 in H. unfold try_catch at 1, bind at 1, drv_element, bind at 1, drv in H.
  destruct (drv_fault E (WaitLocated (ById "username") 10000) w3).
  - cbn in H. injection H as <- <-. right.
    destruct W3 as (evs & Hev & Hp).
    exists (Log MLoginSuccessful :: Log MLoginInputNotFound
            :: Drv (WaitLocated (ById "username") 10000) :: evs).
    cbn [push trace elapse]. rewrite Hev. split; [reflexivity|].
    split; [exact Hp|]. left. split; [reflexivity|]. eauto.
  - destruct (drv_elements E (WaitLocated (ById "username") 10000) w3) as [|el els].
    + cbn in H. injection H as <- <-. right.
      destruct W3 as (evs & Hev & Hp).
      exists (Log MLoginSuccessful :: Log MLoginInputNotFound
              :: Drv (WaitLocated (ById "username") 10000) :: evs).
      cbn [push trace elapse]. rewrite Hev. split; [reflexivity|].
      split; [exact Hp|]. left. split; [reflexivity|]. eauto.
    + cbn [ret] in H. left.
      set (w0 := push (Drv (WaitLocated (ById "username") 10000)) (elapse E 0 w3)) in *.
      unfold bind at 1 in H. cbn [console emit] in H. unfold bind at 1 in H.
      destruct (safe_loginToLinkedIn E driver (push (Log MNotLogged) w0)) as [b Hb].
      destruct (loginToLinkedIn E driver (push (Log MNotLogged) w0)) as [rb w4] eqn:Hl.
      cbn [fst] in Hb. subst rb.
      destruct W3 as (evs & Hev & Hp).
      exists w0, evs, b, w4. split; [cbn [w0 push trace elapse]; now rewrite Hev|].
      split; [exact Hp|]. split; [exact Hl|].
      destruct b; cbn in H; injection H as <- <-; now split.
Qed.

Lemma loginWithSavedCookies_verdict_witness :
  (exists w0 evs b w1,
      trace w0 = (Drv (WaitLocated (ById "username") 10000) :: evs ++ trace later_run)%list /\
      forallb not_login evs = true /\
      loginToLinkedIn expired_env ChromeDriver (push (Log MNotLogged) w0) = (Ok b, w1) /\
      fst (loginWithSavedCookies expired_env ChromeDriver later_run) = Ok (Some b) /\
      snd (loginWithSavedCookies expired_env ChromeDriver later_run)
      = push (Log (if b then MLoginSuccessful else MLoginFailed)) w1) \/
  (exists evs,
      trace (snd (loginWithSavedCookies expired_env ChromeDriver later_run))
      = (evs ++ trace later_run)%list /\ forallb not_login evs = true /\
      ((fst (loginWithSavedCookies expired_env ChromeDriver later_run) = Ok (Some true) /\
        exists evs', evs = Log MLoginSuccessful :: Log MLoginInputNotFound
                           :: Drv (WaitLocated (ById "username") 10000) :: evs') \/
       (fst (loginWithSavedCookies expired_env ChromeDriver later_run) = Ok None /\
        exists e evs', evs = Log (MError e) :: evs'))).
Proof.
  apply (loginWithSavedCookies_verdict expired_env ChromeDriver later_run).
  apply surjective_pairing.
Defined.

(** The three verdicts at work: the form shows and the credential
    login fails; the form does not show; the store is missing. *)
Example loginWithSavedCookies_verdicts :
  fst (loginWithSavedCookies expired_env ChromeDriver later_run) = Ok (Some false) /\
  fst (loginWithSavedCookies no_credentials_env ChromeDriver later_run) = Ok (Some true) /\
  fst (loginWithSavedCookies first_run_env ChromeDriver first_run) = Ok None.
Proof. repeat split; vm_compute; reflexivity. Qed.
